(** * Policy engine: fiscal cost and temperature mitigation of climate policy levers

    A shallow embedding of [backend/utils/formatters.py],
    [backend/data/mock_repository.py] and [backend/core/engine.py].

    Python's [float] is IEEE 754 binary64; it is modelled by Rocq's primitive
    [float], whose operations are the same binary64 operations.  The builtins
    [round], [float], [int], [abs], [max], [min] and the ['.Nf'] format are
    modelled on the exact value of a float, read through [Prim2SF]. *)

From Stdlib Require Import ZArith QArith Qpower Lqa Lia List String Ascii Bool.
From Stdlib Require Import Floats DecimalString.
Import ListNotations.

#[local] Set Warnings "-inexact-float".

Local Open Scope string_scope.
Local Open Scope Z_scope.

(** * Exceptions and fallible results *)

Inductive PyExc : Type := ValueError | TypeError | OverflowError | KeyError.

Inductive result (A : Type) : Type :=
| Ok (a : A)
| Raise (e : PyExc).

Arguments Ok {A} a.
Arguments Raise {A} e.

Definition bind {A B : Type} (r : result A) (k : A -> result B) : result B :=
  match r with
  | Ok a => k a
  | Raise e => Raise e
  end.

Notation "x <- r ;; k" := (bind r (fun x => k))
  (at level 61, r at next level, right associativity).

(** * Python's numeric builtins on binary64 *)

Module PyFloat.

(** The quotient [num / den] of two integers ([0 <= num], [0 < den]) rounded
    to the nearest binary64, ties to even.  The quotient is first computed
    with at least 64 significant bits and a sticky last bit, then rounded by
    [binary_normalize]. *)
Definition of_ratio (num den : Z) : float :=
  if num =? 0 then PrimFloat.zero
  else
    let k := Z.max 0 (Z.log2 den - Z.log2 num + 64) in
    let q := (num * 2 ^ k) / den in
    let sticky := if (num * 2 ^ k) mod den =? 0 then 0 else 1 in
    SF2Prim (binary_normalize prec emax (2 * q + sticky) (- k - 1) false).

(** [float(n)] for an integer that does not overflow. *)
Definition of_Z (n : Z) : float :=
  if n <? 0 then PrimFloat.opp (of_ratio (- n) 1) else of_ratio n 1.

(** The integer nearest to [num / den], ties to the even one. *)
Definition round_half_even (num den : Z) : Z :=
  let q := num / den in
  let r := num mod den in
  match (2 * r ?= den) with
  | Lt => q
  | Gt => q + 1
  | Eq => if Z.even q then q else q + 1
  end.

(** The integer nearest to [m * 2^e * 10^nd]: the decimal digits of the
    float [m * 2^e] correctly rounded at [nd] places, as [dtoa] produces
    them in mode 3. *)
Definition scaled_digits (m : positive) (e nd : Z) : Z :=
  if 0 <=? e then Zpos m * 2 ^ e * 10 ^ nd
  else round_half_even (Zpos m * 10 ^ nd) (2 ^ (- e)).

(** [round(x, nd)] for [0 <= nd]: the decimal rounding of [x] converted
    back to the nearest float; zeros, infinities and nan round to
    themselves. *)
Definition py_round (x : float) (nd : Z) : float :=
  match Prim2SF x with
  | S754_finite s m e =>
      let r := of_ratio (scaled_digits m e nd) (10 ^ nd) in
      if s then PrimFloat.opp r else r
  | _ => x
  end.

Definition digits (n : Z) : string := NilZero.string_of_uint (N.to_uint (Z.to_N n)).

(** The scaled integer [n] printed with [nd] digits after the point. *)
Definition fixed (n nd : Z) : string :=
  let ip := n / 10 ^ nd in
  let fp := n mod 10 ^ nd in
  let frac := substring 1 (Z.to_nat nd) (digits (10 ^ nd + fp)) in
  if nd =? 0 then digits ip else (digits ip ++ "." ++ frac)%string.

(** [f"{x:.{nd}f}"]. *)
Definition format_f (x : float) (nd : Z) : string :=
  match Prim2SF x with
  | S754_zero s => ((if s then "-" else "") ++ fixed 0 nd)%string
  | S754_finite s m e =>
      ((if s then "-" else "") ++ fixed (scaled_digits m e nd) nd)%string
  | S754_infinity s => if s then "-inf" else "inf"
  | S754_nan => "nan"
  end.

(** [int(x)]: truncation toward zero; fails on nan and on the infinities. *)
Definition to_int (x : float) : result Z :=
  match Prim2SF x with
  | S754_zero _ => Ok 0
  | S754_finite s m e =>
      let a := if 0 <=? e then Zpos m * 2 ^ e else Zpos m / 2 ^ (- e) in
      Ok (if s then - a else a)
  | S754_infinity _ => Raise OverflowError
  | S754_nan => Raise ValueError
  end.

(** [max(a, b)] keeps [a] unless [b > a]; [min(a, b)] keeps [a] unless
    [b < a]. *)
Definition py_max (a b : float) : float := if PrimFloat.ltb a b then b else a.
Definition py_min (a b : float) : float := if PrimFloat.ltb b a then b else a.

End PyFloat.

(** * Python values received from a request body *)

Inductive PyVal : Type :=
| VNone
| VBool (b : bool)
| VInt (n : Z)
| VFloat (x : float)
| VStr (s : string)
| VList   (* a list; its items are never inspected *)
| VDict.  (* a nested dict; its items are never inspected *)

(** A [dict] with string keys, in insertion order. *)
Definition dict (A : Type) : Type := list (string * A).

Fixpoint dict_find {A : Type} (d : dict A) (k : string) : option A :=
  match d with
  | [] => None
  | (k', v) :: rest => if String.eqb k k' then Some v else dict_find rest k
  end.

(** [d.get(k, default)] *)
Definition dict_get {A : Type} (d : dict A) (k : string) (default : A) : A :=
  match dict_find d k with
  | Some v => v
  | None => default
  end.

(** [d[k]] *)
Definition dict_item {A : Type} (d : dict A) (k : string) : result A :=
  match dict_find d k with
  | Some v => Ok v
  | None => Raise KeyError
  end.

(** ** [float(str)] *)

Module PyStr.

Definition code (c : ascii) : Z := Z.of_N (N_of_ascii c).

Definition is_space (c : ascii) : bool :=
  (code c =? 32) || ((9 <=? code c) && (code c <=? 13)).

Definition is_digit (c : ascii) : bool :=
  (48 <=? code c) && (code c <=? 57).

Definition is_underscore (c : ascii) : bool := code c =? 95.

Definition lower (c : ascii) : ascii :=
  if (65 <=? code c) && (code c <=? 90)
  then ascii_of_N (N_of_ascii c + 32) else c.

Fixpoint lstrip (s : list ascii) : list ascii :=
  match s with
  | c :: t => if is_space c then lstrip t else s
  | [] => []
  end.

Definition strip (s : list ascii) : list ascii :=
  rev (lstrip (rev (lstrip s))).

(** Underscores may only stand between two digits; they are removed. *)
Fixpoint drop_underscores (prev : ascii) (s : list ascii)
  : option (list ascii) :=
  match s with
  | [] => if is_underscore prev then None else Some []
  | c :: t =>
      if is_underscore c then
        if is_digit prev then drop_underscores c t else None
      else if is_underscore prev && negb (is_digit c) then None
      else option_map (cons c) (drop_underscores c t)
  end.

(** Reads a run of digits: the number read so far, how many digits were
    read, and the rest of the text. *)
Fixpoint take_digits (s : list ascii) (acc count : Z)
  : Z * Z * list ascii :=
  match s with
  | c :: t =>
      if is_digit c then take_digits t (10 * acc + (code c - 48)) (count + 1)
      else (acc, count, s)
  | [] => (acc, count, [])
  end.

Definition take_sign (s : list ascii) : bool * list ascii :=
  match s with
  | c :: t =>
      if code c =? 45 then (true, t)
      else if code c =? 43 then (false, t)
      else (false, s)
  | [] => (false, [])
  end.

(** The exponent part [e[+-]digits]; when no digit follows, the [e] is not
    part of the number. *)
Definition take_exponent (s : list ascii) : Z * list ascii :=
  match s with
  | c :: t =>
      if code (lower c) =? 101 then
        let '(neg, t') := take_sign t in
        let '(e, n, rest) := take_digits t' 0 0 in
        if n =? 0 then (0, s) else ((if neg then - e else e), rest)
      else (0, s)
  | [] => (0, [])
  end.

(** An unsigned decimal literal as [(m, e)], standing for [m * 10^e];
    the whole text must be used. *)
Definition parse_decimal (s : list ascii) : option (Z * Z) :=
  let '(m1, n1, r1) := take_digits s 0 0 in
  let '(m2, n2, r2) :=
    match r1 with
    | c :: t => if code c =? 46 then take_digits t m1 0 else (m1, 0, r1)
    | [] => (m1, 0, [])
    end in
  if n1 + n2 =? 0 then None
  else
    let '(e, r3) := take_exponent r2 in
    match r3 with
    | [] => Some (m2, e - n2)
    | _ => None
    end.

Definition of_decimal (m e : Z) : float :=
  if 0 <=? e then PyFloat.of_ratio (m * 10 ^ e) 1
  else PyFloat.of_ratio m (10 ^ (- e)).

(** A text is held as its UTF-8 bytes.  [float] first rewrites a text that
    is not pure ASCII: a Unicode white space becomes a space, a Unicode
    decimal digit its ASCII digit, and at the first other character above
    126 the text is cut with a question mark, which no number contains.
    The tables are those of Unicode 14.0. *)
Definition is_continuation (c : ascii) : bool :=
  (128 <=? code c) && (code c <=? 191).

(** The code points of a UTF-8 text; [-1] stands for a byte sequence that
    encodes none. *)
Fixpoint utf8_decode (s : list ascii) : list Z :=
  match s with
  | [] => []
  | b0 :: t =>
      let c0 := code b0 in
      if c0 <? 128 then c0 :: utf8_decode t
      else
        match t with
        | b1 :: t1 =>
            if (194 <=? c0) && (c0 <=? 223) && is_continuation b1 then
              ((c0 - 192) * 64 + (code b1 - 128)) :: utf8_decode t1
            else
              match t1 with
              | b2 :: t2 =>
                  let cp3 := (c0 - 224) * 4096 + (code b1 - 128) * 64
                             + (code b2 - 128) in
                  if (224 <=? c0) && (c0 <=? 239) && is_continuation b1
                     && is_continuation b2 && (2048 <=? cp3)
                     && negb ((55296 <=? cp3) && (cp3 <=? 57343)) then
                    cp3 :: utf8_decode t2
                  else
                    match t2 with
                    | b3 :: t3 =>
                        let cp4 := (c0 - 240) * 262144
                                   + (code b1 - 128) * 4096
                                   + (code b2 - 128) * 64 + (code b3 - 128) in
                        if (240 <=? c0) && (c0 <=? 244) && is_continuation b1
                           && is_continuation b2 && is_continuation b3
                           && (65536 <=? cp4) && (cp4 <=? 1114111) then
                          cp4 :: utf8_decode t3
                        else (-1) :: utf8_decode t
                    | [] => (-1) :: utf8_decode t
                    end
              | [] => (-1) :: utf8_decode t
              end
        | [] => [-1]
        end
  end.

(** The white space above 127: [Py_UNICODE_ISSPACE]. *)
Definition is_unicode_space (cp : Z) : bool :=
  existsb (Z.eqb cp) [133; 160; 5760; 8232; 8233; 8239; 8287; 12288]
  || ((8192 <=? cp) && (cp <=? 8202)).

(** The digit zero of every run of decimal digits above 127; each run has
    the ten digits in order. *)
Definition decimal_zeros : list Z :=
  [ 1632; 1776; 1984; 2406; 2534; 2662; 2790; 2918; 3046; 3174; 3302; 3430;
    3558; 3664; 3792; 3872; 4160; 4240; 6112; 6160; 6470; 6608; 6784; 6800;
    6992; 7088; 7232; 7248; 42528; 43216; 43264; 43472; 43504; 43600; 44016;
    65296; 66720; 68912; 69734; 69872; 69942; 70096; 70384; 70736; 70864;
    71248; 71360; 71472; 71904; 72016; 72784; 73040; 73120; 92768; 92864;
    93008; 120782; 120792; 120802; 120812; 120822; 123200; 123632; 125264;
    130032 ].

(** [Py_UNICODE_TODECIMAL] *)
Definition to_decimal (cp : Z) : option Z :=
  option_map (fun z => cp - z)
    (find (fun z => (z <=? cp) && (cp <=? z + 9)) decimal_zeros).

Definition ascii_of_code (n : Z) : ascii := ascii_of_N (Z.to_N n).

(** [_PyUnicode_TransformDecimalAndSpaceToASCII] on the code points. *)
Fixpoint transform_code_points (cps : list Z) : list ascii :=
  match cps with
  | [] => []
  | ch :: t =>
      if (0 <=? ch) && (ch <? 127) then
        ascii_of_code ch :: transform_code_points t
      else if is_unicode_space ch then
        ascii_of_code 32 :: transform_code_points t
      else
        match to_decimal ch with
        | Some d => ascii_of_code (48 + d) :: transform_code_points t
        | None => [ascii_of_code 63]
        end
  end.

Definition transform_decimal_and_space (s : list ascii) : list ascii :=
  if forallb (fun c => code c <? 128) s then s
  else transform_code_points (utf8_decode s).

Definition parse_float (text : string) : option float :=
  match drop_underscores Ascii.zero
          (strip (transform_decimal_and_space (list_ascii_of_string text)))
  with
  | None => None
  | Some s =>
      let '(neg, body) := take_sign s in
      let sign (x : float) := if neg then PrimFloat.opp x else x in
      let word := string_of_list_ascii (map lower body) in
      if String.eqb word "inf" || String.eqb word "infinity"
      then Some (sign PrimFloat.infinity)
      else if String.eqb word "nan" then Some PrimFloat.nan
      else
        match parse_decimal body with
        | Some (m, e) => Some (sign (of_decimal m e))
        | None => None
        end
  end.

End PyStr.

(** [float(value)] *)
Definition py_float (value : PyVal) : result float :=
  match value with
  | VFloat x => Ok x
  | VInt n =>
      let x := PyFloat.of_Z n in
      if PrimFloat.is_infinity x then Raise OverflowError else Ok x
  | VBool b => Ok (if b then PrimFloat.one else PrimFloat.zero)
  | VStr s =>
      match PyStr.parse_float s with
      | Some x => Ok x
      | None => Raise ValueError
      end
  | VNone | VList | VDict => Raise TypeError
  end.

(** * [backend/utils/formatters.py] *)

Definition format_currency (value : float) : string :=
  let abs_value := PrimFloat.abs value in
  let formatted :=
    if PrimFloat.leb 1000 abs_value then
      ("$" ++ PyFloat.format_f (abs_value / 1000) 2 ++ "T")%string
    else if PrimFloat.leb 1 abs_value then
      ("$" ++ PyFloat.format_f abs_value 2 ++ "B")%string
    else
      ("$" ++ PyFloat.format_f (abs_value * 1000) 2 ++ "M")%string in
  if PrimFloat.ltb value 0 then ("-" ++ formatted)%string else formatted.

Definition format_temperature (value : float) (decimals : Z) : string :=
  let sign := if PrimFloat.leb 0 value then "+" else "" in
  (sign ++ PyFloat.format_f value decimals ++ "°C")%string.

(** The [try] block catches [ValueError] and [TypeError] only; any other
    exception leaves the function. *)
Definition sanitize_slider_value (value : PyVal) : result Z :=
  match
    (num_value <- py_float value ;;
     n <- PyFloat.to_int num_value ;;
     Ok (Z.max 0 (Z.min 100 n)))
  with
  | Ok n => Ok n
  | Raise ValueError | Raise TypeError => Ok 0
  | Raise e => Raise e
  end.

Definition calculate_efficiency_index (temperature_impact fiscal_cost : float)
  : float :=
  if PrimFloat.leb fiscal_cost 0 then
    (PrimFloat.abs temperature_impact * 1000)%float
  else
    let efficiency := (PrimFloat.abs temperature_impact / fiscal_cost)%float in
    PyFloat.py_round (efficiency * 1000)%float 2.

Definition round_to_precision (value : float) (precision : Z) : float :=
  PyFloat.py_round value precision.

(** * [backend/data/mock_repository.py] *)

Record YearPoint : Type := { year : Z; anomaly : float }.

Record PolicyData : Type := {
  cost_per_unit : float;
  temperature_impact : float;
  max_impact : float;
  label : string;
  description : string
}.

Record Baseline : Type := {
  baseline_year : Z;
  temperature_anomaly : float;
  national_debt : Z;
  policies : dict Z
}.

Definition yp (y : Z) (a : float) : YearPoint := {| year := y; anomaly := a |}.

Definition HISTORICAL_TEMPERATURE_DATA : list YearPoint :=
  [ yp 2000 0.62; yp 2001 0.65; yp 2002 0.68; yp 2003 0.71; yp 2004 0.66;
    yp 2005 0.76; yp 2006 0.73; yp 2007 0.77; yp 2008 0.64; yp 2009 0.74;
    yp 2010 0.82; yp 2011 0.71; yp 2012 0.75; yp 2013 0.77; yp 2014 0.86;
    yp 2015 1.02; yp 2016 1.09; yp 2017 1.01; yp 2018 0.95; yp 2019 1.08;
    yp 2020 1.15; yp 2021 0.98; yp 2022 1.04; yp 2023 1.35; yp 2024 1.38;
    yp 2025 1.18 ].

Definition BAU_PROJECTION : list YearPoint :=
  [ yp 2026 1.2; yp 2027 1.25; yp 2028 1.31; yp 2029 1.36; yp 2030 1.42;
    yp 2031 1.47; yp 2032 1.53; yp 2033 1.58; yp 2034 1.64; yp 2035 1.69;
    yp 2036 1.75; yp 2037 1.80; yp 2038 1.86; yp 2039 1.91; yp 2040 1.97;
    yp 2041 2.02; yp 2042 2.08; yp 2043 2.13; yp 2044 2.19; yp 2045 2.24;
    yp 2046 2.30; yp 2047 2.35; yp 2048 2.41; yp 2049 2.46; yp 2050 2.52 ].

Definition POLICY_COSTS : dict PolicyData :=
  [ ("ev_adoption",
      {| cost_per_unit := 1.2; temperature_impact := -0.0008;
         max_impact := -0.08;
         label := "EV Adoption Incentives";
         description :=
           "Subsidies, charging infrastructure, and manufacturer incentives" |});
    ("renewable_energy",
      {| cost_per_unit := 2.5; temperature_impact := -0.0012;
         max_impact := -0.12;
         label := "Renewable Energy Expansion";
         description :=
           "Solar, wind, hydro infrastructure and grid upgrades" |});
    ("carbon_tax",
      {| cost_per_unit := -0.8; temperature_impact := -0.0015;
         max_impact := -0.15;
         label := "Carbon Tax Implementation";
         description :=
           "Industrial emissions pricing and regulatory enforcement" |});
    ("reforestation",
      {| cost_per_unit := 0.6; temperature_impact := -0.0005;
         max_impact := -0.05;
         label := "Reforestation Programs";
         description :=
           "Tree planting, forest protection, and carbon sequestration" |});
    ("public_transport",
      {| cost_per_unit := 1.8; temperature_impact := -0.0010;
         max_impact := -0.10;
         label := "Public Transport Expansion";
         description :=
           "Mass transit infrastructure, bus networks, and rail systems" |});
    ("industrial_controls",
      {| cost_per_unit := 1.5; temperature_impact := -0.0013;
         max_impact := -0.13;
         label := "Industrial Emission Controls";
         description :=
           "Factory regulations, emission standards, and monitoring systems" |});
    ("green_buildings",
      {| cost_per_unit := 1.0; temperature_impact := -0.0007;
         max_impact := -0.07;
         label := "Green Building Standards";
         description :=
           "Energy-efficient construction, retrofits, and building codes" |});
    ("waste_management",
      {| cost_per_unit := 0.8; temperature_impact := -0.0006;
         max_impact := -0.06;
         label := "Waste Management & Recycling";
         description :=
           "Recycling programs, waste-to-energy, and landfill reduction" |}) ]%float.

Definition policy_keys : list string :=
  [ "ev_adoption"; "renewable_energy"; "carbon_tax"; "reforestation";
    "public_transport"; "industrial_controls"; "green_buildings";
    "waste_management" ].

Definition BASELINE_2026 : Baseline :=
  {| baseline_year := 2026;
     temperature_anomaly := 1.2;
     national_debt := 0;
     policies :=
       [ ("ev_adoption", 0); ("renewable_energy", 0); ("carbon_tax", 0);
         ("reforestation", 0); ("public_transport", 0);
         ("industrial_controls", 0); ("green_buildings", 0);
         ("waste_management", 0) ] |}.

Definition BANKRUPTCY_THRESHOLD : float := 1000.
Definition SUSTAINABILITY_THRESHOLD : float := 1.5.

Definition get_complete_trend_data : list YearPoint :=
  HISTORICAL_TEMPERATURE_DATA ++ BAU_PROJECTION.

(** * [backend/core/engine.py] *)

(** The dictionaries the engine builds, one record per shape. *)

Module BreakdownEntry.
Record t : Type := {
  policy : string;
  level : Z;
  cost : float;
  cost_formatted : string;
  temperature_impact : float;
  temperature_formatted : string;
  description : string
}.
End BreakdownEntry.

Module TreemapEntry.
Record t : Type := {
  name : string;
  value : float;
  formatted : string;
  percentage : float
}.
End TreemapEntry.

Module EfficiencyEntry.
Record t : Type := {
  policy : string;
  efficiency : float;
  interpretation : string
}.
End EfficiencyEntry.

Module TrendPoint.
Record t : Type := {
  year : Z;
  anomaly : float;
  anomaly_formatted : string;
  bau_anomaly : float;
  mitigation_applied : float
}.
End TrendPoint.

Module FormattedPoint.
Record t : Type := {
  year : Z;
  anomaly : float;
  anomaly_formatted : string
}.
End FormattedPoint.

Module CalculationResult.
Record t : Type := {
  total_cost : float;
  total_cost_formatted : string;
  temperature_mitigation : float;
  temperature_mitigation_formatted : string;
  national_debt : float;
  national_debt_formatted : string;
  bankruptcy_flag : bool;
  policy_breakdown : list BreakdownEntry.t;
  trend_line : list TrendPoint.t;
  fiscal_treemap : list TreemapEntry.t;
  efficiency_index : list EfficiencyEntry.t;
  policies_applied : dict Z;
  warning_message : option string
}.
End CalculationResult.

Module BaselineState.
Record t : Type := {
  year : Z;
  temperature_anomaly : float;
  temperature_formatted : string;
  national_debt : Z;
  national_debt_formatted : string;
  policies : dict Z;
  bau_projection : list FormattedPoint.t;
  historical_data : list FormattedPoint.t
}.
End BaselineState.

(** The engine object: [__init__] stores the reference tables in it. *)
Record PolicyEngine : Type := {
  policy_costs : dict PolicyData;
  bau_projection : list YearPoint;
  baseline : Baseline
}.

Definition new_PolicyEngine : PolicyEngine :=
  {| policy_costs := POLICY_COSTS;
     bau_projection := BAU_PROJECTION;
     baseline := BASELINE_2026 |}.

(** A [for] loop whose body may raise. *)
Fixpoint for_each {S A : Type} (body : S -> A -> result S) (items : list A)
  (st : S) : result S :=
  match items with
  | [] => Ok st
  | x :: rest => st' <- body st x ;; for_each body rest st'
  end.

Definition _interpret_efficiency (efficiency_score : float) : string :=
  if PrimFloat.leb 1.0 efficiency_score then "Excellent"
  else if PrimFloat.leb 0.5 efficiency_score then "Good"
  else if PrimFloat.leb 0.2 efficiency_score then "Moderate"
  else "Poor".

Definition _generate_trend_line (self : PolicyEngine) (total_mitigation : float)
  : list TrendPoint.t :=
  map (fun bau_point =>
         let year := year bau_point in
         let bau_temp := anomaly bau_point in
         let years_from_start := year - 2026 in
         let mitigation_factor :=
           PyFloat.py_min 1.0 (PyFloat.of_Z years_from_start / 9.0) in
         let adjusted_temp :=
           (bau_temp + total_mitigation * mitigation_factor)%float in
         {| TrendPoint.year := year;
            TrendPoint.anomaly := round_to_precision adjusted_temp 3;
            TrendPoint.anomaly_formatted := format_temperature adjusted_temp 2;
            TrendPoint.bau_anomaly := round_to_precision bau_temp 3;
            TrendPoint.mitigation_applied :=
              round_to_precision (total_mitigation * mitigation_factor)%float 3
         |})
      (bau_projection self).

(** The variables the policy loop of [calculate_impacts] updates.  The two
    totals start as the integer [0]; adding a float to it, rounding it,
    formatting it and comparing it all behave as for the float [0.0], which
    stands for it here. *)
Record Totals : Type := {
  total_cost : float;
  total_temp_mitigation : float;
  policy_breakdown : list BreakdownEntry.t;
  fiscal_treemap : list TreemapEntry.t;
  efficiency_metrics : list EfficiencyEntry.t
}.

Definition initial_totals : Totals :=
  {| total_cost := 0; total_temp_mitigation := 0;
     policy_breakdown := []; fiscal_treemap := []; efficiency_metrics := [] |}.

(** One lever's contribution: the linear cost and the capped temperature
    impact. *)
Definition lever_cost (policy_data : PolicyData) (level : Z) : float :=
  (cost_per_unit policy_data * PyFloat.of_Z level)%float.

Definition lever_temp_impact (policy_data : PolicyData) (level : Z) : float :=
  PyFloat.py_max (temperature_impact policy_data * PyFloat.of_Z level)%float
    (max_impact policy_data).

Definition policy_step (self : PolicyEngine) (st : Totals) (item : string * Z)
  : result Totals :=
  let '(policy_key, level) := item in
  if level =? 0 then Ok st
  else
    policy_data <- dict_item (policy_costs self) policy_key ;;
    let cost := lever_cost policy_data level in
    let temp_impact := lever_temp_impact policy_data level in
    let efficiency := calculate_efficiency_index temp_impact cost in
    Ok {| total_cost := (total_cost st + cost)%float;
          total_temp_mitigation := (total_temp_mitigation st + temp_impact)%float;
          policy_breakdown :=
            (policy_breakdown st ++
            [ {| BreakdownEntry.policy := label policy_data;
                 BreakdownEntry.level := level;
                 BreakdownEntry.cost := round_to_precision cost 2;
                 BreakdownEntry.cost_formatted := format_currency cost;
                 BreakdownEntry.temperature_impact :=
                   round_to_precision temp_impact 3;
                 BreakdownEntry.temperature_formatted :=
                   format_temperature temp_impact 3;
                 BreakdownEntry.description := description policy_data |} ])%list;
          fiscal_treemap :=
            if PrimFloat.ltb 0 cost then
              (fiscal_treemap st ++
              [ {| TreemapEntry.name := label policy_data;
                   TreemapEntry.value := round_to_precision cost 2;
                   TreemapEntry.formatted := format_currency cost;
                   TreemapEntry.percentage := 0 |} ])%list
            else fiscal_treemap st;
          efficiency_metrics :=
            (efficiency_metrics st ++
            [ {| EfficiencyEntry.policy := label policy_data;
                 EfficiencyEntry.efficiency := efficiency;
                 EfficiencyEntry.interpretation :=
                   _interpret_efficiency efficiency |} ])%list |}.

(** [sum(values)], left to right from [0]. *)
Definition py_sum (values : list float) : float :=
  fold_left PrimFloat.add values 0%float.

(** The pass that fills in the treemap percentages. *)
Definition treemap_percentages (treemap : list TreemapEntry.t)
  : list TreemapEntry.t :=
  let total_positive_cost := py_sum (map TreemapEntry.value treemap) in
  if PrimFloat.ltb 0 total_positive_cost then
    map (fun item =>
           {| TreemapEntry.name := TreemapEntry.name item;
              TreemapEntry.value := TreemapEntry.value item;
              TreemapEntry.formatted := TreemapEntry.formatted item;
              TreemapEntry.percentage :=
                round_to_precision
                  (TreemapEntry.value item / total_positive_cost * 100)%float 1
           |})
        treemap
  else treemap.

(** The sanitized levels, in the order the [policies] dict is built. *)
Definition sanitize_inputs (policy_inputs : dict PyVal) : result (dict Z) :=
  for_each
    (fun acc key =>
       v <- sanitize_slider_value (dict_get policy_inputs key (VInt 0)) ;;
       Ok (acc ++ [(key, v)])%list)
    policy_keys [].

(** The part of [calculate_impacts] after the policy loop: percentages, trend
    line, bankruptcy check and the response. *)
Definition assemble (self : PolicyEngine) (policies : dict Z) (st : Totals)
  : CalculationResult.t :=
  let fiscal_treemap := treemap_percentages (fiscal_treemap st) in
  let trend_line := _generate_trend_line self (total_temp_mitigation st) in
  let national_debt := total_cost st in
  let bankruptcy_flag := PrimFloat.ltb BANKRUPTCY_THRESHOLD national_debt in
  {| CalculationResult.total_cost := round_to_precision (total_cost st) 2;
     CalculationResult.total_cost_formatted := format_currency (total_cost st);
     CalculationResult.temperature_mitigation :=
       round_to_precision (total_temp_mitigation st) 3;
     CalculationResult.temperature_mitigation_formatted :=
       format_temperature (total_temp_mitigation st) 3;
     CalculationResult.national_debt := round_to_precision national_debt 2;
     CalculationResult.national_debt_formatted := format_currency national_debt;
     CalculationResult.bankruptcy_flag := bankruptcy_flag;
     CalculationResult.policy_breakdown := policy_breakdown st;
     CalculationResult.trend_line := trend_line;
     CalculationResult.fiscal_treemap := fiscal_treemap;
     CalculationResult.efficiency_index := efficiency_metrics st;
     CalculationResult.policies_applied := policies;
     CalculationResult.warning_message :=
       if bankruptcy_flag then Some "ECONOMIC COLLAPSE IMMINENT" else None |}.

(** The policy loop over the sanitized levels. *)
Definition policy_loop (self : PolicyEngine) (policies : dict Z)
  : result Totals :=
  for_each (policy_step self) policies initial_totals.

Definition calculate_impacts (self : PolicyEngine) (policy_inputs : dict PyVal)
  : result CalculationResult.t :=
  policies <- sanitize_inputs policy_inputs ;;
  st <- policy_loop self policies ;;
  Ok (assemble self policies st).

Definition format_point (point : YearPoint) : FormattedPoint.t :=
  {| FormattedPoint.year := year point;
     FormattedPoint.anomaly := anomaly point;
     FormattedPoint.anomaly_formatted := format_temperature (anomaly point) 2 |}.

Definition get_baseline_state (self : PolicyEngine) : BaselineState.t :=
  {| BaselineState.year := baseline_year (baseline self);
     BaselineState.temperature_anomaly := temperature_anomaly (baseline self);
     BaselineState.temperature_formatted :=
       format_temperature (temperature_anomaly (baseline self)) 2;
     BaselineState.national_debt := national_debt (baseline self);
     BaselineState.national_debt_formatted :=
       format_currency (PyFloat.of_Z (national_debt (baseline self)));
     BaselineState.policies := policies (baseline self);
     BaselineState.bau_projection := map format_point (bau_projection self);
     BaselineState.historical_data :=
       map format_point
         (filter (fun point => year point <? 2026) get_complete_trend_data) |}.

(** * Properties *)

(** ** Helpers for reading results *)

Definition levels (ev re ct rf pt ic gb wm : Z) : dict PyVal :=
  [ ("ev_adoption", VInt ev); ("renewable_energy", VInt re);
    ("carbon_tax", VInt ct); ("reforestation", VInt rf);
    ("public_transport", VInt pt); ("industrial_controls", VInt ic);
    ("green_buildings", VInt gb); ("waste_management", VInt wm) ].

Definition mitigation_at (y : Z) (trend : list TrendPoint.t) : option float :=
  option_map TrendPoint.mitigation_applied
    (find (fun p => TrendPoint.year p =? y) trend).

(** ** Worked examples *)

(** C1: with renewable_energy at 100 and every other lever at 0 the total
    cost is 250 ("$250.00B"), the linear impact equals the cap, the
    mitigation is -0.12 ("-0.120°C"), the treemap has one entry at 100%, and
    the mitigation applied is -0.12 in 2035 and -0.053 in 2030. *)
Theorem renewable_energy_full_example :
  exists r,
    calculate_impacts new_PolicyEngine (levels 0 100 0 0 0 0 0 0) = Ok r /\
    CalculationResult.total_cost r = 250%float /\
    CalculationResult.total_cost_formatted r = "$250.00B" /\
    (-0.0012 * 100 = -0.12)%float /\
    CalculationResult.temperature_mitigation r = (-0.12)%float /\
    CalculationResult.temperature_mitigation_formatted r = "-0.120°C" /\
    map TreemapEntry.percentage (CalculationResult.fiscal_treemap r)
      = [100%float] /\
    mitigation_at 2035 (CalculationResult.trend_line r) = Some (-0.12)%float /\
    mitigation_at 2030 (CalculationResult.trend_line r)
      = Some (PyFloat.py_round (-0.12 * (4 / 9))%float 3) /\
    PyFloat.py_round (-0.12 * (4 / 9))%float 3 = (-0.053)%float.
Proof.
  eexists. split; [vm_compute; reflexivity|].
  repeat split; vm_compute; reflexivity.
Qed.

(** C6, as the code has it: with carbon_tax at 50 and every other lever at 0
    the lever's cost is -40 ("-$40.00B"), the treemap is empty, and the
    efficiency entry is 75.0 by the non-positive-cost branch, which
    [_interpret_efficiency] reads as "Excellent" (75.0 >= 1.0). *)
Theorem carbon_tax_half_example :
  exists r,
    calculate_impacts new_PolicyEngine (levels 0 0 50 0 0 0 0 0) = Ok r /\
    map (fun b => (BreakdownEntry.cost b, BreakdownEntry.cost_formatted b))
        (CalculationResult.policy_breakdown r)
      = [((-40)%float, "-$40.00B")] /\
    CalculationResult.fiscal_treemap r = [] /\
    PrimFloat.leb (-0.8 * 50) 0 = true /\
    map (fun e => (EfficiencyEntry.efficiency e,
                   EfficiencyEntry.interpretation e))
        (CalculationResult.efficiency_index r)
      = [((PrimFloat.abs (-0.0015 * 50) * 1000)%float, "Excellent")] /\
    (PrimFloat.abs (-0.0015 * 50) * 1000 = 75)%float.
Proof.
  eexists. split; [vm_compute; reflexivity|].
  repeat split; vm_compute; reflexivity.
Qed.

(** C6, as stated, fails: the tier of the carbon_tax=50 entry is not
    "Good". *)
Lemma carbon_tax_half_not_good :
  ~ (exists r,
       calculate_impacts new_PolicyEngine (levels 0 0 50 0 0 0 0 0) = Ok r /\
       map EfficiencyEntry.interpretation (CalculationResult.efficiency_index r)
         = ["Good"]).
Proof.
  intros [r [H1 H2]].
  vm_compute in H1. injection H1 as <-.
  vm_compute in H2. discriminate H2.
Qed.

(** ** The baseline state *)

Lemma historical_before_2026 :
  filter (fun point => year point <? 2026) get_complete_trend_data
    = HISTORICAL_TEMPERATURE_DATA.
Proof. reflexivity. Qed.

(** What a returned point holds. *)
Definition point_fields (p : FormattedPoint.t) : Z * float * string :=
  (FormattedPoint.year p, FormattedPoint.anomaly p,
   FormattedPoint.anomaly_formatted p).

(** C9: [get_baseline_state] takes no input besides the engine and returns
    the 2026 baseline (year 2026, anomaly 1.2, debt 0, every level 0), the
    whole BAU projection and, as historical data, exactly the points of the
    complete series whose year is below 2026; each point keeps its year and
    its anomaly and carries the anomaly written with a sign and two
    decimals.  The two lists are given in full. *)
Theorem get_baseline_state_spec :
  let b := get_baseline_state new_PolicyEngine in
  BaselineState.year b = 2026 /\
  BaselineState.temperature_anomaly b = 1.2%float /\
  BaselineState.temperature_formatted b = "+1.20°C" /\
  BaselineState.national_debt b = 0 /\
  BaselineState.national_debt_formatted b = "$0.00M" /\
  BaselineState.policies b = map (fun k => (k, 0)) policy_keys /\
  BaselineState.bau_projection b = map format_point BAU_PROJECTION /\
  List.length (BaselineState.bau_projection b) = 25%nat /\
  (forall p, In p (BaselineState.historical_data b) <->
     exists q, In q get_complete_trend_data /\ year q < 2026 /\
               p = format_point q) /\
  map FormattedPoint.year (BaselineState.historical_data b)
    = map (fun i => 2000 + Z.of_nat i) (seq 0 26) /\
  (forall p, In p (BaselineState.bau_projection b ++
                   BaselineState.historical_data b)%list ->
     FormattedPoint.anomaly_formatted p
       = format_temperature (FormattedPoint.anomaly p) 2) /\
  map point_fields (BaselineState.bau_projection b) =
      [ (2026, 1.2%float, "+1.20°C"); (2027, 1.25%float, "+1.25°C");
        (2028, 1.31%float, "+1.31°C"); (2029, 1.36%float, "+1.36°C");
        (2030, 1.42%float, "+1.42°C"); (2031, 1.47%float, "+1.47°C");
        (2032, 1.53%float, "+1.53°C"); (2033, 1.58%float, "+1.58°C");
        (2034, 1.64%float, "+1.64°C"); (2035, 1.69%float, "+1.69°C");
        (2036, 1.75%float, "+1.75°C"); (2037, 1.8%float, "+1.80°C");
        (2038, 1.86%float, "+1.86°C"); (2039, 1.91%float, "+1.91°C");
        (2040, 1.97%float, "+1.97°C"); (2041, 2.02%float, "+2.02°C");
        (2042, 2.08%float, "+2.08°C"); (2043, 2.13%float, "+2.13°C");
        (2044, 2.19%float, "+2.19°C"); (2045, 2.24%float, "+2.24°C");
        (2046, 2.3%float, "+2.30°C"); (2047, 2.35%float, "+2.35°C");
        (2048, 2.41%float, "+2.41°C"); (2049, 2.46%float, "+2.46°C");
        (2050, 2.52%float, "+2.52°C") ] /\
  map point_fields (BaselineState.historical_data b) =
      [ (2000, 0.62%float, "+0.62°C"); (2001, 0.65%float, "+0.65°C");
        (2002, 0.68%float, "+0.68°C"); (2003, 0.71%float, "+0.71°C");
        (2004, 0.66%float, "+0.66°C"); (2005, 0.76%float, "+0.76°C");
        (2006, 0.73%float, "+0.73°C"); (2007, 0.77%float, "+0.77°C");
        (2008, 0.64%float, "+0.64°C"); (2009, 0.74%float, "+0.74°C");
        (2010, 0.82%float, "+0.82°C"); (2011, 0.71%float, "+0.71°C");
        (2012, 0.75%float, "+0.75°C"); (2013, 0.77%float, "+0.77°C");
        (2014, 0.86%float, "+0.86°C"); (2015, 1.02%float, "+1.02°C");
        (2016, 1.09%float, "+1.09°C"); (2017, 1.01%float, "+1.01°C");
        (2018, 0.95%float, "+0.95°C"); (2019, 1.08%float, "+1.08°C");
        (2020, 1.15%float, "+1.15°C"); (2021, 0.98%float, "+0.98°C");
        (2022, 1.04%float, "+1.04°C"); (2023, 1.35%float, "+1.35°C");
        (2024, 1.38%float, "+1.38°C"); (2025, 1.18%float, "+1.18°C") ].
Proof.
  cbv zeta.
  do 8 (split; [vm_compute; reflexivity|]).
  split; [|split; [vm_compute; reflexivity|]].
  - intros p. unfold get_baseline_state. cbn [BaselineState.historical_data].
    rewrite in_map_iff. split.
    + intros [q [Hq Hin]]. apply filter_In in Hin as [Hin Hy].
      exists q. repeat split; auto. now apply Z.ltb_lt.
    + intros [q [Hin [Hy ->]]]. exists q. split; [reflexivity|].
      apply filter_In. split; [assumption|]. now apply Z.ltb_lt.
  - split; [|split; vm_compute; reflexivity].
    intros p Hin. apply in_app_or in Hin.
    unfold get_baseline_state in Hin.
    cbn [BaselineState.bau_projection BaselineState.historical_data] in Hin.
    destruct Hin as [Hin | Hin]; apply in_map_iff in Hin as [q [<- _]];
      reflexivity.
Qed.

(** ** Requests with the same sanitized levels *)

(** The result depends on the request only through the sanitized levels. *)
Lemma calculate_impacts_sanitized (self : PolicyEngine)
  (inputs1 inputs2 : dict PyVal) :
  sanitize_inputs inputs1 = sanitize_inputs inputs2 ->
  calculate_impacts self inputs1 = calculate_impacts self inputs2.
Proof. unfold calculate_impacts. intros ->. reflexivity. Qed.

(** ** Input sanitization *)

Lemma to_int_cases (x : float) :
  (exists n, PyFloat.to_int x = Ok n) \/
  PyFloat.to_int x = Raise OverflowError \/
  PyFloat.to_int x = Raise ValueError.
Proof.
  unfold PyFloat.to_int. destruct (Prim2SF x); eauto.
Qed.

Lemma py_float_cases (v : PyVal) :
  (exists x, py_float v = Ok x) \/
  py_float v = Raise OverflowError \/
  py_float v = Raise ValueError \/
  py_float v = Raise TypeError.
Proof.
  destruct v as [| b | n | x | s | |]; unfold py_float; cbv beta iota.
  - right; right; right; reflexivity.
  - left; eexists; reflexivity.
  - destruct (PrimFloat.is_infinity (PyFloat.of_Z n));
      [right; left; reflexivity | left; eexists; reflexivity].
  - left; eexists; reflexivity.
  - destruct (PyStr.parse_float s);
      [left; eexists; reflexivity | right; right; left; reflexivity].
  - right; right; right; reflexivity.
  - right; right; right; reflexivity.
Qed.

(** Whatever the raw value, [sanitize_slider_value] either returns an
    integer of [0..100] or lets an [OverflowError] escape. *)
Lemma sanitize_slider_value_cases (v : PyVal) :
  (exists n, sanitize_slider_value v = Ok n /\ 0 <= n <= 100) \/
  sanitize_slider_value v = Raise OverflowError.
Proof.
  unfold sanitize_slider_value.
  destruct (py_float_cases v) as [[x ->] | [-> | [-> | ->]]]; cbn;
    try (left; exists 0; split; [reflexivity | lia]); auto.
  destruct (to_int_cases x) as [[n ->] | [-> | ->]]; cbn;
    try (left; exists 0; split; [reflexivity | lia]); auto.
  left. eexists. split; [reflexivity | lia].
Qed.

Lemma sanitize_slider_value_range (v : PyVal) (n : Z) :
  sanitize_slider_value v = Ok n -> 0 <= n <= 100.
Proof.
  intros H. destruct (sanitize_slider_value_cases v) as [[m [Hm Hr]] | Hm];
    rewrite Hm in H; [injection H as <-; exact Hr | discriminate].
Qed.

(** A value that coerces to a finite float is truncated toward zero and
    clamped. *)
Lemma sanitize_slider_value_numeric (v : PyVal) (x : float) (n : Z) :
  py_float v = Ok x -> PyFloat.to_int x = Ok n ->
  sanitize_slider_value v = Ok (Z.max 0 (Z.min 100 n)).
Proof.
  unfold sanitize_slider_value. intros H1 H2.
  rewrite H1. cbn [bind]. rewrite H2. reflexivity.
Qed.

(** A value that fails the coercion with [ValueError] or [TypeError]
    yields 0. *)
Lemma sanitize_slider_value_not_numeric (v : PyVal) :
  py_float v = Raise ValueError \/ py_float v = Raise TypeError ->
  sanitize_slider_value v = Ok 0.
Proof. unfold sanitize_slider_value. intros [-> | ->]; reflexivity. Qed.

Example sanitize_slider_value_examples :
  map sanitize_slider_value
    [ VStr "42.7"; VFloat 99.9; VFloat (-3.5); VInt (-5); VInt 150; VNone;
      VStr "abc"; VStr ""; VStr "nan"; VBool true; VList; VStr " 1_0 " ]
  = [ Ok 42; Ok 99; Ok 0; Ok 0; Ok 100; Ok 0;
      Ok 0; Ok 0; Ok 0; Ok 1; Ok 0; Ok 10 ].
Proof. vm_compute. reflexivity. Qed.

(** Digits and white space outside ASCII are read as [float] reads them:
    full-width, Arabic-Indic and mathematical digits, the ideographic space
    and the no-break space (bytes 194 160); other letters are not. *)
Example sanitize_slider_value_unicode :
  map sanitize_slider_value
    [ VStr "５０"; VStr "٣"; VStr "　７　"; VStr "𝟏𝟐"; VStr "１.５";
      VStr "1e５"; VStr "٠۱";
      VStr ("50" ++ String "194"%char (String "160"%char ""));
      VStr "ｉｎｆ"; VStr "−1"; VStr "5€" ]
  = [ Ok 50; Ok 3; Ok 7; Ok 12; Ok 1; Ok 100; Ok 1; Ok 50;
      Ok 0; Ok 0; Ok 0 ].
Proof. vm_compute. reflexivity. Qed.

(** C4 fails on the infinities: [float] accepts them (as a float, as the
    text "inf", or as a decimal too large for a float), [int] then raises
    [OverflowError], which the [except] clause does not catch; the error
    leaves [calculate_impacts] as well. *)
Theorem sanitize_slider_value_infinity :
  sanitize_slider_value (VFloat PrimFloat.infinity) = Raise OverflowError /\
  sanitize_slider_value (VStr "inf") = Raise OverflowError /\
  sanitize_slider_value (VStr "1e999") = Raise OverflowError /\
  sanitize_slider_value (VInt (10 ^ 400)) = Raise OverflowError /\
  calculate_impacts new_PolicyEngine
    [("renewable_energy", VFloat PrimFloat.infinity)] = Raise OverflowError.
Proof. repeat split; vm_compute; reflexivity. Qed.

(** The sanitized levels are those of the eight keys, in order. *)
Definition level_of (policy_inputs : dict PyVal) (key : string) : result Z :=
  sanitize_slider_value (dict_get policy_inputs key (VInt 0)).

Lemma sanitize_inputs_eq (policy_inputs : dict PyVal) :
  sanitize_inputs policy_inputs =
    (l1 <- level_of policy_inputs "ev_adoption" ;;
     l2 <- level_of policy_inputs "renewable_energy" ;;
     l3 <- level_of policy_inputs "carbon_tax" ;;
     l4 <- level_of policy_inputs "reforestation" ;;
     l5 <- level_of policy_inputs "public_transport" ;;
     l6 <- level_of policy_inputs "industrial_controls" ;;
     l7 <- level_of policy_inputs "green_buildings" ;;
     l8 <- level_of policy_inputs "waste_management" ;;
     Ok [ ("ev_adoption", l1); ("renewable_energy", l2); ("carbon_tax", l3);
          ("reforestation", l4); ("public_transport", l5);
          ("industrial_controls", l6); ("green_buildings", l7);
          ("waste_management", l8) ]).
Proof.
  unfold sanitize_inputs, policy_keys, level_of. cbn [for_each app].
  repeat (match goal with
          | |- context [sanitize_slider_value ?v] =>
              destruct (sanitize_slider_value v); cbn [bind app]
          end; [|reflexivity]).
  reflexivity.
Qed.

(** The levels of a sanitized request: one per lever, each in [0..100]. *)
Definition valid_levels (policies : dict Z) : Prop :=
  exists l1 l2 l3 l4 l5 l6 l7 l8,
    policies =
      [ ("ev_adoption", l1); ("renewable_energy", l2); ("carbon_tax", l3);
        ("reforestation", l4); ("public_transport", l5);
        ("industrial_controls", l6); ("green_buildings", l7);
        ("waste_management", l8) ] /\
    Forall (fun l => 0 <= l <= 100) [l1; l2; l3; l4; l5; l6; l7; l8].

Lemma sanitize_inputs_valid (policy_inputs : dict PyVal) (policies : dict Z) :
  sanitize_inputs policy_inputs = Ok policies -> valid_levels policies.
Proof.
  rewrite sanitize_inputs_eq. unfold level_of.
  repeat (match goal with
          | |- context [sanitize_slider_value ?v] =>
              let H := fresh "H" in
              destruct (sanitize_slider_value v) eqn:H; cbn [bind];
              [apply sanitize_slider_value_range in H | discriminate]
          end).
  intros [= <-]. do 8 eexists. split; [reflexivity|].
  repeat (apply Forall_cons; [assumption|]). apply Forall_nil.
Qed.

(** Checking a decidable property on every integer of a range. *)
Definition Z_range (lo : Z) (n : nat) : list Z :=
  map (fun i => lo + Z.of_nat i) (seq 0 n).

Lemma Z_range_In (lo : Z) (n : nat) (l : Z) :
  lo <= l < lo + Z.of_nat n -> In l (Z_range lo n).
Proof.
  intros H. unfold Z_range. apply in_map_iff.
  exists (Z.to_nat (l - lo)). split; [lia|].
  apply in_seq. lia.
Qed.

Lemma Z_range_forallb (P : Z -> bool) (lo : Z) (n : nat) :
  forallb P (Z_range lo n) = true ->
  forall l, lo <= l < lo + Z.of_nat n -> P l = true.
Proof.
  intros H l Hl. rewrite forallb_forall in H. apply H.
  now apply Z_range_In.
Qed.

Definition all_levels : list Z := Z_range 0 101.

Lemma all_levels_forallb (P : Z -> bool) :
  forallb P all_levels = true -> forall l, 0 <= l <= 100 -> P l = true.
Proof.
  intros H l Hl. apply (Z_range_forallb P 0 101 H). lia.
Qed.

Definition result_Z_eqb (r : result Z) (n : Z) : bool :=
  match r with
  | Ok m => m =? n
  | Raise _ => false
  end.

Lemma result_Z_eqb_eq (r : result Z) (n : Z) :
  result_Z_eqb r n = true -> r = Ok n.
Proof.
  destruct r; cbn; [|discriminate]. intros H. apply Z.eqb_eq in H. now subst.
Qed.

(** An integer level in range is left as it is. *)
Lemma sanitize_slider_value_level (l : Z) :
  0 <= l <= 100 -> sanitize_slider_value (VInt l) = Ok l.
Proof.
  intros Hl. apply result_Z_eqb_eq.
  apply (all_levels_forallb
           (fun l => result_Z_eqb (sanitize_slider_value (VInt l)) l));
    [vm_compute; reflexivity | exact Hl].
Qed.

(** Every vector of levels in range is the sanitized form of a request. *)
Lemma sanitize_inputs_levels (l1 l2 l3 l4 l5 l6 l7 l8 : Z) :
  Forall (fun l => 0 <= l <= 100) [l1; l2; l3; l4; l5; l6; l7; l8] ->
  sanitize_inputs (levels l1 l2 l3 l4 l5 l6 l7 l8) =
    Ok [ ("ev_adoption", l1); ("renewable_energy", l2); ("carbon_tax", l3);
         ("reforestation", l4); ("public_transport", l5);
         ("industrial_controls", l6); ("green_buildings", l7);
         ("waste_management", l8) ].
Proof.
  intros H.
  repeat match goal with
         | H : Forall _ (_ :: _) |- _ => inversion_clear H
         end.
  rewrite sanitize_inputs_eq. unfold level_of, levels.
  cbn [dict_get dict_find String.eqb Ascii.eqb Bool.eqb].
  rewrite !sanitize_slider_value_level by assumption.
  reflexivity.
Qed.

(** ** The bankruptcy flag *)

(** An engine whose levers all cost [c] per point, for reaching a given
    debt. *)
Definition engine_with_unit_cost (c : float) : PolicyEngine :=
  {| policy_costs :=
       map (fun '(key, pd) =>
              (key, {| cost_per_unit := c;
                       temperature_impact := temperature_impact pd;
                       max_impact := max_impact pd;
                       label := label pd;
                       description := description pd |}))
           POLICY_COSTS;
     bau_projection := BAU_PROJECTION;
     baseline := BASELINE_2026 |}.

Lemma calculate_impacts_Ok (self : PolicyEngine) (policy_inputs : dict PyVal)
  (r : CalculationResult.t) :
  calculate_impacts self policy_inputs = Ok r ->
  exists policies st,
    sanitize_inputs policy_inputs = Ok policies /\
    policy_loop self policies = Ok st /\
    r = assemble self policies st.
Proof.
  unfold calculate_impacts.
  destruct (sanitize_inputs policy_inputs) as [policies|]; [|discriminate].
  cbn [bind].
  destruct (policy_loop self policies) as [st|] eqn:Hloop; [|discriminate].
  cbn [bind]. intros [= <-]. exists policies, st.
  split; [reflexivity|]. split; [exact Hloop | reflexivity].
Qed.

(** C5: the reported national debt is the reported total cost; the flag is
    set exactly when the debt summed by the policy loop exceeds 1000 (a debt
    of 1000 leaves it unset, a debt of 1000.01 sets it); the warning is the
    fixed text when the flag is set and absent otherwise. *)
Theorem bankruptcy_flag_spec (self : PolicyEngine)
  (policy_inputs : dict PyVal) (r : CalculationResult.t) :
  calculate_impacts self policy_inputs = Ok r ->
  exists policies st,
    sanitize_inputs policy_inputs = Ok policies /\
    policy_loop self policies = Ok st /\
    CalculationResult.national_debt r = CalculationResult.total_cost r /\
    CalculationResult.national_debt r = round_to_precision (total_cost st) 2 /\
    (CalculationResult.bankruptcy_flag r = true <->
       PrimFloat.ltb 1000 (total_cost st) = true) /\
    PrimFloat.ltb 1000 1000 = false /\
    PrimFloat.ltb 1000 1000.01 = true /\
    CalculationResult.warning_message r =
      (if CalculationResult.bankruptcy_flag r
       then Some "ECONOMIC COLLAPSE IMMINENT" else None).
Proof.
  intros H. apply calculate_impacts_Ok in H as [policies [st [H1 [H2 ->]]]].
  exists policies, st. cbn. repeat split; auto.
Qed.

(** A debt of exactly 1000 leaves the flag unset, a debt of 1000.01 sets
    it. *)
Example bankruptcy_flag_at_threshold :
  option_map
    (fun r => (CalculationResult.national_debt r,
               CalculationResult.bankruptcy_flag r,
               CalculationResult.warning_message r))
    (match calculate_impacts (engine_with_unit_cost 10)
             (levels 100 0 0 0 0 0 0 0) with Ok r => Some r | _ => None end)
  = Some (1000%float, false, None) /\
  option_map
    (fun r => (CalculationResult.national_debt r,
               CalculationResult.bankruptcy_flag r,
               CalculationResult.warning_message r))
    (match calculate_impacts (engine_with_unit_cost 10.0001)
             (levels 100 0 0 0 0 0 0 0) with Ok r => Some r | _ => None end)
  = Some (1000.01%float, true, Some "ECONOMIC COLLAPSE IMMINENT").
Proof. split; vm_compute; reflexivity. Qed.

Lemma bankruptcy_flag_spec_witness :
  exists r,
    calculate_impacts new_PolicyEngine (levels 10 20 30 0 0 0 0 5) = Ok r /\
    CalculationResult.national_debt r = CalculationResult.total_cost r /\
    CalculationResult.bankruptcy_flag r = false.
Proof.
  eexists. split; [vm_compute; reflexivity|].
  match goal with
  | |- CalculationResult.national_debt ?r = _ /\ _ =>
      destruct (bankruptcy_flag_spec new_PolicyEngine
                  (levels 10 20 30 0 0 0 0 5) r)
        as [policies [st [_ [_ [Hd _]]]]]; [vm_compute; reflexivity|]
  end.
  split; [exact Hd | vm_compute; reflexivity].
Defined.

(** ** The cap on a lever's temperature impact *)

Lemma policy_step_active (self : PolicyEngine) (st : Totals) (key : string)
  (pd : PolicyData) (l : Z) :
  dict_find (policy_costs self) key = Some pd -> l <> 0 ->
  exists st',
    policy_step self st (key, l) = Ok st' /\
    total_cost st' = (total_cost st + lever_cost pd l)%float /\
    total_temp_mitigation st' =
      (total_temp_mitigation st + lever_temp_impact pd l)%float.
Proof.
  intros Hf Hl. unfold policy_step, dict_item. rewrite Hf.
  apply Z.eqb_neq in Hl. rewrite Hl. cbn [bind].
  eexists. split; [reflexivity|]. split; reflexivity.
Qed.

(** ** The all-zero request *)

Definition zero_levels : dict Z := map (fun key => (key, 0)) policy_keys.

Lemma sanitize_inputs_zero (policy_inputs : dict PyVal) :
  (forall key, In key policy_keys -> level_of policy_inputs key = Ok 0) ->
  sanitize_inputs policy_inputs = Ok zero_levels.
Proof.
  intros H. rewrite sanitize_inputs_eq.
  rewrite !H by (cbn; tauto). reflexivity.
Qed.

(** C2: when every lever is at level 0 after sanitization, the total cost
    and the mitigation are 0, the breakdown, the treemap and the efficiency
    list are empty, and the trend line is the BAU projection: each year's
    anomaly is the BAU anomaly and the mitigation applied is 0. *)
Theorem all_zero_request (policy_inputs : dict PyVal) :
  (forall key, In key policy_keys -> level_of policy_inputs key = Ok 0) ->
  exists r,
    calculate_impacts new_PolicyEngine policy_inputs = Ok r /\
    CalculationResult.total_cost r = 0%float /\
    CalculationResult.temperature_mitigation r = 0%float /\
    CalculationResult.policy_breakdown r = [] /\
    CalculationResult.fiscal_treemap r = [] /\
    CalculationResult.efficiency_index r = [] /\
    map (fun p => yp (TrendPoint.year p) (TrendPoint.anomaly p))
        (CalculationResult.trend_line r) = BAU_PROJECTION /\
    Forall (fun p => TrendPoint.anomaly p = TrendPoint.bau_anomaly p /\
                     TrendPoint.mitigation_applied p = 0%float)
           (CalculationResult.trend_line r).
Proof.
  intros H. apply sanitize_inputs_zero in H.
  exists (assemble new_PolicyEngine zero_levels initial_totals).
  split; [unfold calculate_impacts; rewrite H; reflexivity|].
  do 6 (split; [vm_compute; reflexivity|]).
  vm_compute. repeat (apply Forall_cons; [split; reflexivity|]).
  apply Forall_nil.
Qed.

Lemma all_zero_request_witness :
  exists r,
    calculate_impacts new_PolicyEngine
      [("carbon_tax", VStr "-3"); ("reforestation", VNone)] = Ok r /\
    CalculationResult.total_cost r = 0%float.
Proof.
  destruct (all_zero_request
              [("carbon_tax", VStr "-3"); ("reforestation", VNone)])
    as [r [H1 [H2 _]]].
  - intros key Hin. cbn in Hin.
    repeat (destruct Hin as [<- | Hin]; [vm_compute; reflexivity|]).
    contradiction.
  - exists r. split; assumption.
Defined.

(** * Binary64 arithmetic: values and rounding errors *)

Definition bpow (e : Z) : Q := Qpower 2 e.

Definition SFval (x : spec_float) : Q :=
  match x with
  | S754_finite s m e =>
      (if s then - (1) else 1) * inject_Z (Zpos m) * bpow e
  | _ => 0
  end%Q.

Definition Fval (x : float) : Q := SFval (Prim2SF x).

Definition digits (m : Z) : Z := Zdigits2 m.

Lemma digits2_pos_size (p : positive) : digits2_pos p = Pos.size p.
Proof. induction p; cbn; congruence. Qed.

Lemma digits_bounds (p : positive) :
  2 ^ (digits (Zpos p) - 1) <= Zpos p < 2 ^ digits (Zpos p).
Proof.
  change (digits (Zpos p)) with (Zpos (digits2_pos p)).
  rewrite digits2_pos_size.
  pose proof (Pos.size_gt p) as Hgt. pose proof (Pos.size_le p) as Hle.
  split.
  - assert (H : (2 ^ Pos.size p <= p~0)%positive) by exact Hle.
    assert (H2 : 2 ^ Zpos (Pos.size p) <= 2 * Zpos p).
    { change (2 * Zpos p) with (Zpos p~0). rewrite <- Pos2Z.inj_pow. 
      apply Pos2Z.pos_le_pos. exact H. }
    assert (E : 2 ^ Zpos (Pos.size p) = 2 * 2 ^ (Zpos (Pos.size p) - 1)).
    { rewrite <- Z.pow_succ_r by lia. f_equal. lia. }
    lia.
  - rewrite <- Pos2Z.inj_pow. apply Pos2Z.pos_lt_pos. exact Hgt.
Qed.

Lemma digits_pos (p : positive) : 1 <= digits (Zpos p).
Proof. unfold digits. cbn. lia. Qed.

Lemma digits_unique (m d : Z) :
  0 < m -> 2 ^ (d - 1) <= m < 2 ^ d -> 1 <= d -> digits m = d.
Proof.
  intros Hm [Hlo Hhi] Hd. destruct m as [|p|p]; try lia.
  pose proof (digits_bounds p) as [Blo Bhi].
  pose proof (digits_pos p) as Hp.
  destruct (Z.lt_trichotomy (digits (Zpos p)) d) as [Hlt | [Heq | Hgt]]; auto.
  - assert (2 ^ digits (Zpos p) <= 2 ^ (d - 1)) by (apply Z.pow_le_mono_r; lia).
    lia.
  - assert (2 ^ d <= 2 ^ (digits (Zpos p) - 1)) by (apply Z.pow_le_mono_r; lia).
    lia.
Qed.

(** ** Right shifts *)

Lemma fexp_eq (e : Z) : fexp prec emax e = Z.max (e - 53) (-1074).
Proof. reflexivity. Qed.

Lemma shr_1_m (mrs : shr_record) :
  0 <= shr_m mrs -> shr_m (shr_1 mrs) = shr_m mrs / 2.
Proof.
  destruct mrs as [m r s]. cbn [shr_m]. intros Hm.
  destruct m as [|[p|p|]|p]; cbn [shr_1 shr_m].
  - reflexivity.
  - rewrite Pos2Z.inj_xI. apply Z.div_unique with (r := 1); lia.
  - rewrite Pos2Z.inj_xO. apply Z.div_unique with (r := 0); lia.
  - reflexivity.
  - lia.
Qed.

Lemma iter_shr_m (p : positive) :
  forall mrs, 0 <= shr_m mrs ->
    shr_m (iter_pos shr_1 p mrs) = shr_m mrs / 2 ^ Zpos p.
Proof.
  induction p as [p IH | p IH |]; intros mrs Hm; cbn [iter_pos].
  - assert (H1 : 0 <= shr_m (shr_1 mrs)).
    { rewrite shr_1_m by assumption. apply Z.div_pos; lia. }
    assert (H2 : 0 <= shr_m (iter_pos shr_1 p (shr_1 mrs))).
    { rewrite IH by assumption. apply Z.div_pos; lia. }
    rewrite IH by assumption. rewrite IH by assumption.
    rewrite shr_1_m by assumption.
    rewrite !Z.div_div by lia. f_equal.
    rewrite (Pos2Z.inj_xI p).
    replace (2 * Zpos p + 1) with (1 + Zpos p + Zpos p) by lia.
    rewrite !Z.pow_add_r by lia. lia.
  - assert (H2 : 0 <= shr_m (iter_pos shr_1 p mrs)).
    { rewrite IH by assumption. apply Z.div_pos; lia. }
    rewrite IH by assumption. rewrite IH by assumption.
    rewrite !Z.div_div by lia. f_equal.
    rewrite (Pos2Z.inj_xO p).
    replace (2 * Zpos p) with (Zpos p + Zpos p) by lia.
    rewrite !Z.pow_add_r by lia. lia.
  - rewrite shr_1_m by assumption. reflexivity.
Qed.

Lemma shr_record_of_loc_m (m : Z) (l : location) :
  shr_m (shr_record_of_loc m l) = m.
Proof. destruct l as [|[| |]]; reflexivity. Qed.

Lemma loc_of_shr_record_of_loc (m : Z) (l : location) :
  loc_of_shr_record (shr_record_of_loc m l) = l.
Proof. destruct l as [|[| |]]; reflexivity. Qed.

Lemma shr_spec (mrs : shr_record) (e n : Z) :
  0 <= shr_m mrs ->
  shr_m (fst (shr mrs e n)) = shr_m mrs / 2 ^ Z.max 0 n /\
  snd (shr mrs e n) = e + Z.max 0 n.
Proof.
  intros Hm. destruct n as [|p|p]; cbn [shr fst snd].
  - rewrite Z.max_l by lia. rewrite Z.div_1_r. lia.
  - rewrite Z.max_r by lia. split; [now apply iter_shr_m | reflexivity].
  - rewrite Z.max_l by lia. rewrite Z.div_1_r. lia.
Qed.

Lemma shr_nonpos (mrs : shr_record) (e n : Z) :
  n <= 0 -> shr mrs e n = (mrs, e).
Proof. destruct n; try reflexivity. lia. Qed.

Lemma shr_fexp_spec (m e : Z) (l : location) :
  0 <= m ->
  let n := Z.max 0 (fexp prec emax (digits m + e) - e) in
  shr_m (fst (shr_fexp prec emax m e l)) = m / 2 ^ n /\
  snd (shr_fexp prec emax m e l) = e + n.
Proof.
  intros Hm n. unfold shr_fexp.
  pose proof (shr_spec (shr_record_of_loc m l) e
                (fexp prec emax (Zdigits2 m + e) - e)) as H.
  rewrite shr_record_of_loc_m in H. apply H. exact Hm.
Qed.

Lemma shr_fexp_id (m e : Z) (l : location) :
  fexp prec emax (digits m + e) <= e ->
  shr_fexp prec emax m e l = (shr_record_of_loc m l, e).
Proof. intros H. unfold shr_fexp. apply shr_nonpos. unfold digits in H. lia. Qed.

(** ** Rounding to binary64 *)

Lemma round_nearest_even_bounds (m : Z) (l : location) :
  m <= round_nearest_even m l <= m + 1.
Proof.
  destruct l as [|[| |]]; cbn [round_nearest_even]; try lia.
  destruct (Z.even m); lia.
Qed.

Lemma div_pow2_bounds (P d n : Z) :
  0 <= n -> n < d -> 2 ^ (d - 1) <= P < 2 ^ d ->
  2 ^ (d - 1 - n) <= P / 2 ^ n < 2 ^ (d - n) /\
  (P / 2 ^ n) * 2 ^ n <= P < (P / 2 ^ n + 1) * 2 ^ n.
Proof.
  intros Hn Hd [Hlo Hhi].
  assert (Hpos : 0 < 2 ^ n) by (apply Z.pow_pos_nonneg; lia).
  assert (E1 : 2 ^ (d - 1) = 2 ^ (d - 1 - n) * 2 ^ n).
  { rewrite <- Z.pow_add_r by lia. f_equal. lia. }
  assert (E2 : 2 ^ d = 2 ^ (d - n) * 2 ^ n).
  { rewrite <- Z.pow_add_r by lia. f_equal. lia. }
  pose proof (Z.div_mod P (2 ^ n) ltac:(lia)) as Hdm.
  pose proof (Z.mod_pos_bound P (2 ^ n) Hpos) as Hmod.
  repeat split.
  - apply Z.div_le_lower_bound; [exact Hpos|]. lia.
  - apply Z.div_lt_upper_bound; [exact Hpos|]. lia.
  - lia.
  - lia.
Qed.

Lemma binary_round_aux_normal (s : bool) (p : positive) (ex : Z)
  (lx : location) :
  let d := digits (Zpos p) in
  53 <= d -> -1021 <= d + ex <= 1023 ->
  exists m e,
    binary_round_aux prec emax s (Zpos p) ex lx = S754_finite s m e /\
    ex <= e /\
    bounded prec emax m e = true /\
    (2 ^ 52 - 1) * Zpos p <= 2 ^ 52 * (Zpos m * 2 ^ (e - ex))
      <= (2 ^ 52 + 1) * Zpos p.
Proof.
  intros d Hd Hr.
  pose proof (digits_bounds p) as HP. fold d in HP.
  set (n := d - 53).
  assert (Hn : 0 <= n) by (unfold n; lia).
  assert (Hfexp : fexp prec emax (d + ex) - ex = n).
  { rewrite fexp_eq. unfold n. lia. }
  destruct (div_pow2_bounds (Zpos p) d n Hn ltac:(unfold n; lia) HP)
    as [[Hm1lo Hm1hi] [Hq1 Hq2]].
  replace (d - 1 - n) with 52 in Hm1lo by (unfold n; lia).
  replace (d - n) with 53 in Hm1hi by (unfold n; lia).
  set (m1 := Zpos p / 2 ^ n) in *.
  unfold binary_round_aux.
  pose proof (shr_fexp_spec (Zpos p) ex lx ltac:(lia)) as Hs1.
  cbv zeta in Hs1. fold d in Hs1. rewrite Hfexp in Hs1.
  rewrite Z.max_r in Hs1 by lia. fold m1 in Hs1.
  destruct (shr_fexp prec emax (Zpos p) ex lx) as [mrs' e'].
  cbn [fst snd] in Hs1. destruct Hs1 as [Hs1m Hs1e].
  rewrite Hs1m.
  pose proof (round_nearest_even_bounds m1 (loc_of_shr_record mrs')) as Hm2.
  set (m2 := round_nearest_even m1 (loc_of_shr_record mrs')) in *.
  assert (Hm2pos : 0 < m2) by lia.
  pose proof (shr_fexp_spec m2 e' loc_Exact ltac:(lia)) as Hs2.
  cbv zeta in Hs2.
  assert (Hp2 : 0 < 2 ^ n) by (apply Z.pow_pos_nonneg; lia).
  assert (E52 : 2 ^ 53 = 2 * 2 ^ 52) by reflexivity.
  assert (Hbig : 2 ^ 52 * 2 ^ n <= Zpos p) by nia.
  destruct (Z.eq_dec m2 (2 ^ 53)) as [Heq | Hne].
  - (* the rounded mantissa carries into the next binade *)
    assert (Hd2 : digits m2 = 54).
    { apply digits_unique; [lia | | lia]. rewrite Heq.
      change (54 - 1) with 53. split; [lia|]. 
      change (2 ^ 54) with (2 * 2 ^ 53). lia. }
    rewrite Hd2 in Hs2.
    assert (Hk : fexp prec emax (54 + e') - e' = 1).
    { rewrite fexp_eq. lia. }
    rewrite Hk in Hs2. change (Z.max 0 1) with 1 in Hs2.
    destruct (shr_fexp prec emax m2 e' loc_Exact) as [mrs'' e''].
    cbn [fst snd] in Hs2. destruct Hs2 as [Hs2m Hs2e].
    rewrite Hs2m, Heq. change (2 ^ 53 / 2 ^ 1) with (Zpos (2 ^ 52)).
    assert (Hle : (e'' <=? emax - prec) = true).
    { apply Z.leb_le. change (emax - prec) with 971. lia. }
    rewrite Hle. exists (2 ^ 52)%positive, e''.
    split; [reflexivity|]. split; [lia|]. split.
    + unfold bounded, canonical_mantissa. rewrite Hle.
      change (Zpos (digits2_pos (2 ^ 52))) with 53.
      rewrite fexp_eq. rewrite Z.max_l by lia.
      rewrite andb_true_r. apply Z.eqb_eq. lia.
    + replace (e'' - ex) with (n + 1) by lia.
      rewrite Z.pow_add_r by lia.
      change (Zpos (2 ^ 52)) with (2 ^ 52). change (2 ^ 1) with 2.
      assert (Hm1 : m1 = 2 ^ 53 - 1) by lia.
      nia.
  - assert (Hd2 : digits m2 = 53).
    { apply digits_unique; [lia | | lia]. change (53 - 1) with 52. lia. }
    rewrite Hd2 in Hs2.
    assert (Hk : fexp prec emax (53 + e') - e' = 0).
    { rewrite fexp_eq. lia. }
    rewrite Hk in Hs2. change (Z.max 0 0) with 0 in Hs2.
    destruct (shr_fexp prec emax m2 e' loc_Exact) as [mrs'' e''].
    cbn [fst snd] in Hs2. destruct Hs2 as [Hs2m Hs2e].
    rewrite Hs2m. change (2 ^ 0) with 1. rewrite Z.div_1_r.
    destruct m2 as [|q|q] eqn:Em2; try lia.
    assert (Hle : (e'' <=? emax - prec) = true).
    { apply Z.leb_le. change (emax - prec) with 971. lia. }
    rewrite Hle. exists q, e''.
    split; [reflexivity|]. split; [lia|]. split.
    + unfold bounded, canonical_mantissa. rewrite Hle.
      change (Zpos (digits2_pos q)) with (digits (Zpos q)). rewrite Hd2.
      rewrite fexp_eq. rewrite andb_true_r. apply Z.eqb_eq. lia.
    + replace (e'' - ex) with n by lia. nia.
Qed.

Lemma binary_round_aux_exact (s : bool) (p : positive) (ex : Z) :
  fexp prec emax (digits (Zpos p) + ex) <= ex -> ex <= 971 ->
  binary_round_aux prec emax s (Zpos p) ex loc_Exact = S754_finite s p ex.
Proof.
  intros Hf He. unfold binary_round_aux.
  rewrite (shr_fexp_id (Zpos p) ex loc_Exact Hf).
  cbn [shr_record_of_loc shr_m loc_of_shr_record round_nearest_even].
  rewrite (shr_fexp_id (Zpos p) ex loc_Exact Hf).
  cbn [shr_record_of_loc shr_m].
  assert (Hle : (ex <=? emax - prec) = true).
  { apply Z.leb_le. change (emax - prec) with 971. lia. }
  rewrite Hle. reflexivity.
Qed.

Lemma iter_xO (p d : positive) :
  Zpos (Pos.iter xO p d) = Zpos p * 2 ^ Zpos d.
Proof.
  induction d as [|d IH] using Pos.peano_ind.
  - cbn [Pos.iter]. rewrite (Pos2Z.inj_xO p). change (2 ^ 1) with 2. lia.
  - rewrite Pos.iter_succ. rewrite (Pos2Z.inj_xO (Pos.iter xO p d)), IH.
    rewrite Pos2Z.inj_succ, Z.pow_succ_r by lia. lia.
Qed.

Lemma shl_align_spec (mx : positive) (ex ex' : Z) :
  let '(m, e) := shl_align mx ex ex' in
  e = Z.min ex ex' /\ Zpos m = Zpos mx * 2 ^ (ex - e).
Proof.
  unfold shl_align. destruct (ex' - ex) as [|d|d] eqn:E.
  - split; [lia|]. rewrite Z.sub_diag. change (2 ^ 0) with 1. lia.
  - split; [lia|]. rewrite Z.sub_diag. change (2 ^ 0) with 1. lia.
  - split; [lia|]. rewrite iter_xO. f_equal. f_equal. lia.
Qed.

Lemma digits_shift (p : positive) (k : Z) (q : positive) :
  0 <= k -> Zpos q = Zpos p * 2 ^ k ->
  digits (Zpos q) = digits (Zpos p) + k.
Proof.
  intros Hk E. pose proof (digits_bounds p) as [Hlo Hhi].
  pose proof (digits_pos p) as Hd.
  assert (Hp : 0 < 2 ^ k) by (apply Z.pow_pos_nonneg; lia).
  apply digits_unique; [lia | | lia].
  rewrite E.
  replace (digits (Zpos p) + k - 1) with (digits (Zpos p) - 1 + k) by lia.
  rewrite !Z.pow_add_r by lia. nia.
Qed.

(** ** Values as rationals *)

Local Open Scope Q_scope.

Lemma bpow_pos (e : Z) : 0 < bpow e.
Proof. unfold bpow. apply Qpower_0_lt. reflexivity. Qed.

Lemma bpow_add (a b : Z) : bpow (a + b) == bpow a * bpow b.
Proof. unfold bpow. apply Qpower_plus. discriminate. Qed.

Lemma bpow_Z (e : Z) : (0 <= e)%Z -> bpow e == inject_Z (2 ^ e).
Proof. intros H. unfold bpow. symmetry. now apply Zpower_Qpower. Qed.

Lemma bpow_le (a b : Z) : (a <= b)%Z -> bpow a <= bpow b.
Proof.
  intros H. unfold bpow. apply Qpower_le_compat_l; [exact H|]. discriminate.
Qed.

Definition B2Q (m : positive) (e : Z) : Q := inject_Z (Zpos m) * bpow e.

(** The relative error of one rounding, with room to spare. *)
Definition u52 : Q := 1 # 4503599627370496.

Lemma B2Q_pos (m : positive) (e : Z) : 0 < B2Q m e.
Proof.
  unfold B2Q. apply Qmult_lt_0_compat; [|apply bpow_pos].
  change 0 with (inject_Z 0). rewrite <- Zlt_Qlt. reflexivity.
Qed.

Lemma B2Q_shift (m q : positive) (e e' : Z) :
  (e' <= e)%Z -> Zpos q = (Zpos m * 2 ^ (e - e'))%Z -> B2Q q e' == B2Q m e.
Proof.
  intros He E. unfold B2Q. rewrite E, inject_Z_mult.
  rewrite <- bpow_Z by lia.
  replace e with ((e - e') + e')%Z at 2 by lia.
  rewrite (bpow_add (e - e') e'). ring.
Qed.

Lemma B2Q_scale (m : positive) (e e' : Z) :
  (e <= e')%Z ->
  B2Q m e' == inject_Z (Zpos m * 2 ^ (e' - e)) * bpow e.
Proof.
  intros He. unfold B2Q. rewrite inject_Z_mult.
  rewrite <- bpow_Z by lia.
  replace e' with ((e' - e) + e)%Z at 1 by lia.
  rewrite (bpow_add (e' - e) e). ring.
Qed.

Lemma rel_bounds_of_Z (P K : Z) (x : Q) :
  0 < x ->
  ((2 ^ 52 - 1) * P <= 2 ^ 52 * K <= (2 ^ 52 + 1) * P)%Z ->
  (1 - u52) * (inject_Z P * x) <= inject_Z K * x <=
    (1 + u52) * (inject_Z P * x).
Proof.
  intros Hx [H1 H2].
  rewrite Zle_Qle in H1, H2.
  rewrite !inject_Z_mult in H1, H2.
  change (inject_Z (2 ^ 52 - 1)) with (4503599627370495 # 1) in H1.
  change (inject_Z (2 ^ 52 + 1)) with (4503599627370497 # 1) in H2.
  change (inject_Z (2 ^ 52)) with (4503599627370496 # 1) in H1, H2.
  unfold u52. change (2 ^ 52)%positive with 4503599627370496%positive.
  set (p := inject_Z P) in *. set (k := inject_Z K) in *.
  assert (A : (1 - (1 # 4503599627370496)) * p <= k) by lra.
  assert (B : k <= (1 + (1 # 4503599627370496)) * p) by lra.
  split.
  - rewrite Qmult_assoc. apply Qmult_le_compat_r; [exact A | lra].
  - rewrite Qmult_assoc. apply Qmult_le_compat_r; [exact B | lra].
Qed.

Lemma binary_round_spec (s : bool) (p : positive) (e : Z) :
  (-1074 <= e)%Z -> (digits (Zpos p) + e <= 1023)%Z ->
  exists m e',
    binary_round prec emax s p e = S754_finite s m e' /\
    bounded prec emax m e' = true /\
    (1 - u52) * B2Q p e <= B2Q m e' <= (1 + u52) * B2Q p e.
Proof.
  intros He Hd. unfold binary_round.
  change (Zpos (digits2_pos p)) with (digits (Zpos p)).
  set (d := digits (Zpos p)) in *.
  set (t := fexp prec emax (d + e)).
  assert (Ht : t = Z.max (d + e - 53) (-1074)) by (unfold t; apply fexp_eq).
  pose proof (shl_align_spec p e t) as Hal.
  destruct (shl_align p e t) as [mz ez]. destruct Hal as [Hez Hmz].
  pose proof (B2Q_pos p e) as Hpos.
  assert (Hu : 0 <= u52 * B2Q p e).
  { apply Qmult_le_0_compat; [unfold u52; discriminate | lra]. }
  assert (Hdz : (digits (Zpos mz) + ez = d + e)%Z).
  { rewrite (digits_shift p (e - ez) mz) by lia. fold d. lia. }
  destruct (Z_lt_le_dec t e) as [Hlt | Hge].
  - (* the mantissa is short: aligned to the target exponent, no rounding *)
    assert (Eez : ez = t) by lia.
    rewrite binary_round_aux_exact; [| rewrite Hdz; fold t; lia | lia].
    exists mz, ez. split; [reflexivity|]. split.
    + unfold bounded, canonical_mantissa.
      change (Zpos (digits2_pos mz)) with (digits (Zpos mz)).
      rewrite Hdz. fold t.
      apply andb_true_intro. split; [apply Z.eqb_eq; lia|].
      apply Z.leb_le. change (emax - prec)%Z with 971%Z. lia.
    + rewrite (B2Q_shift p mz e ez) by lia. lra.
  - assert (Eez : ez = e) by lia. clear Hez. subst ez.
    rewrite Z.sub_diag in Hmz. change (2 ^ 0)%Z with 1%Z in Hmz.
    assert (mz = p) by lia. subst mz.
    destruct (Z_le_gt_dec (-1074) (d + e - 53)) as [Hn | Hs].
    + destruct (binary_round_aux_normal s p e loc_Exact)
        as [m [e' [Hr [Hee [Hb Hv]]]]]; [fold d; lia | fold d; lia |].
      exists m, e'. split; [exact Hr|]. split; [exact Hb|].
      rewrite (B2Q_scale m e e' Hee). unfold B2Q.
      apply rel_bounds_of_Z; [apply bpow_pos | exact Hv].
    + rewrite binary_round_aux_exact; [| fold d; fold t; lia | lia].
      exists p, e. split; [reflexivity|]. split.
      * unfold bounded, canonical_mantissa.
        change (Zpos (digits2_pos p)) with (digits (Zpos p)). fold d. fold t.
        apply andb_true_intro. split; [apply Z.eqb_eq; lia|].
        apply Z.leb_le. change (emax - prec)%Z with 971%Z. lia.
      * lra.
Qed.

(** ** Finite floats and their values *)

Definition SFfin (x : spec_float) : Prop :=
  match x with
  | S754_zero _ | S754_finite _ _ _ => True
  | _ => False
  end.

Definition SFpos (x : spec_float) : Prop :=
  match x with
  | S754_finite false _ _ => True
  | _ => False
  end.

(** [v] is [s] up to one rounding. *)
Definition near (s v : Q) : Prop :=
  (0 <= s -> (1 - u52) * s <= v <= (1 + u52) * s) /\
  (s <= 0 -> (1 + u52) * s <= v <= (1 - u52) * s).

Lemma u52_pos : 0 < u52.
Proof. reflexivity. Qed.

Lemma near_refl (s v : Q) : v == s -> near s v.
Proof.
  intros E. pose proof u52_pos. unfold near. split; intros Hs; nra.
Qed.

Lemma bounded_spec (m : positive) (e : Z) :
  bounded prec emax m e = true ->
  fexp prec emax (digits (Zpos m) + e) = e /\ (e <= 971)%Z.
Proof.
  unfold bounded, canonical_mantissa. intros H.
  apply andb_prop in H as [H1 H2].
  apply Z.eqb_eq in H1. apply Z.leb_le in H2. split; [exact H1 | exact H2].
Qed.

Lemma bounded_range (m : positive) (e : Z) :
  bounded prec emax m e = true ->
  (-1074 <= e <= 971)%Z /\ (digits (Zpos m) <= 53)%Z /\
  ((-1074 < e)%Z -> digits (Zpos m) = 53%Z).
Proof.
  intros H. apply bounded_spec in H as [H1 H2]. rewrite fexp_eq in H1. lia.
Qed.

Lemma B2Q_bounds (m : positive) (e : Z) :
  bpow (digits (Zpos m) + e - 1) <= B2Q m e < bpow (digits (Zpos m) + e).
Proof.
  pose proof (digits_bounds m) as [Hlo Hhi].
  pose proof (digits_pos m) as Hd.
  unfold B2Q. pose proof (bpow_pos e) as He.
  replace (digits (Zpos m) + e - 1)%Z with ((digits (Zpos m) - 1) + e)%Z by lia.
  rewrite !bpow_add.
  rewrite (bpow_Z (digits (Zpos m) - 1)), (bpow_Z (digits (Zpos m))) by lia.
  rewrite Zle_Qle in Hlo. rewrite Zlt_Qlt in Hhi.
  split.
  - apply Qmult_le_compat_r; [exact Hlo | lra].
  - apply Qmult_lt_compat_r; [exact He | exact Hhi].
Qed.

Lemma bpow_lt_inv (a b : Z) : bpow a < bpow b -> (a < b)%Z.
Proof.
  intros H. destruct (Z_lt_le_dec a b) as [|Hle]; [assumption|].
  apply bpow_le in Hle. lra.
Qed.

Lemma digits_le_of_bound (m : positive) (e b : Z) :
  B2Q m e < bpow b -> (digits (Zpos m) + e <= b)%Z.
Proof.
  intros H. pose proof (B2Q_bounds m e) as [Hlo _].
  assert (Hlt : bpow (digits (Zpos m) + e - 1) < bpow b) by lra.
  apply bpow_lt_inv in Hlt. lia.
Qed.

Lemma digits_ge_of_bound (m : positive) (e a : Z) :
  bpow a <= B2Q m e -> (a < digits (Zpos m) + e)%Z.
Proof.
  intros H. pose proof (B2Q_bounds m e) as [_ Hhi].
  apply bpow_lt_inv. lra.
Qed.

Definition signQ (s : bool) : Q := if s then - (1) else 1.

Lemma SFval_finite (s : bool) (m : positive) (e : Z) :
  SFval (S754_finite s m e) == signQ s * B2Q m e.
Proof. unfold SFval, signQ, B2Q. destruct s; ring. Qed.

Lemma cond_Zopp_inject (s : bool) (z : Z) :
  inject_Z (cond_Zopp s z) == signQ s * inject_Z z.
Proof.
  unfold cond_Zopp, signQ. destruct s; [rewrite inject_Z_opp|]; ring.
Qed.

(** The magnitudes the engine works with stay far below [2^30]. *)
Definition big : Q := 1073741824 # 1.

Lemma big_bpow : big == bpow 30.
Proof. rewrite bpow_Z by lia. reflexivity. Qed.

Lemma binary_round_near (s : bool) (p : positive) (e : Z) :
  (-1074 <= e)%Z -> B2Q p e <= big ->
  exists m e',
    binary_round prec emax s p e = S754_finite s m e' /\
    bounded prec emax m e' = true /\
    (1 - u52) * B2Q p e <= B2Q m e' <= (1 + u52) * B2Q p e.
Proof.
  intros He Hb. apply binary_round_spec; [exact He|].
  assert (Hlt : B2Q p e < bpow 31).
  { rewrite big_bpow in Hb. pose proof (bpow_le 30 31 ltac:(lia)) as H.
    assert (bpow 30 < bpow 31).
    { rewrite !bpow_Z by lia. reflexivity. }
    lra. }
  apply digits_le_of_bound in Hlt. lia.
Qed.

Lemma SFadd_finite (sx : bool) (mx : positive) (ex : Z)
  (sy : bool) (my : positive) (ey : Z) :
  bounded prec emax mx ex = true -> bounded prec emax my ey = true ->
  let s := SFval (S754_finite sx mx ex) + SFval (S754_finite sy my ey) in
  - big <= s <= big ->
  let r := SFadd prec emax (S754_finite sx mx ex) (S754_finite sy my ey) in
  valid_binary r = true /\ SFfin r /\ near s (SFval r) /\
  (0 < s -> SFpos r).
Proof.
  intros Hbx Hby s Hs r.
  apply bounded_range in Hbx as [Hex _]. apply bounded_range in Hby as [Hey _].
  unfold r, SFadd. set (ez := Z.min ex ey).
  pose proof (shl_align_spec mx ex ez) as Hax.
  pose proof (shl_align_spec my ey ez) as Hay.
  destruct (shl_align mx ex ez) as [mx' ex'].
  destruct (shl_align my ey ez) as [my' ey'].
  cbn [fst]. destruct Hax as [Hex' Hmx']. destruct Hay as [Hey' Hmy'].
  assert (Eex : ex' = ez) by (unfold ez in *; lia).
  assert (Eey : ey' = ez) by (unfold ez in *; lia).
  clear Hex' Hey'. subst ex' ey'.
  assert (Ex : B2Q mx' ez == B2Q mx ex)
    by (apply B2Q_shift; [unfold ez; lia | exact Hmx']).
  assert (Ey : B2Q my' ez == B2Q my ey)
    by (apply B2Q_shift; [unfold ez; lia | exact Hmy']).
  set (M := (cond_Zopp sx (Zpos mx') + cond_Zopp sy (Zpos my'))%Z).
  assert (EM : inject_Z M * bpow ez == s).
  { unfold M, s. rewrite inject_Z_plus, !cond_Zopp_inject.
    rewrite !SFval_finite, <- Ex, <- Ey. unfold B2Q. ring. }
  pose proof u52_pos as Hu.
  destruct M as [|p|p] eqn:EMv; cbn [binary_normalize].
  - split; [reflexivity|]. split; [exact I|]. split.
    + apply near_refl. cbn [SFval]. rewrite <- EM. ring.
    + intros Hpos. rewrite <- EM in Hpos.
      change (inject_Z 0) with 0 in Hpos. lra.
  - assert (EB : B2Q p ez == s) by (rewrite <- EM; reflexivity).
    destruct (binary_round_near false p ez) as [m [e' [Hr [Hb Hv]]]];
      [unfold ez; lia | rewrite EB; lra |].
    rewrite Hr. split; [exact Hb|]. split; [exact I|]. split; [|intros _; exact I].
    pose proof (B2Q_pos p ez) as Hp.
    pose proof (SFval_finite false m e') as Ev. unfold signQ in Ev.
    rewrite EB in Hv, Hp.
    split; intros Hs'; lra.
  - assert (EB : B2Q p ez == - s).
    { rewrite <- EM. unfold B2Q.
      change (inject_Z (Zneg p)) with (- inject_Z (Zpos p)). ring. }
    destruct (binary_round_near true p ez) as [m [e' [Hr [Hb Hv]]]];
      [unfold ez; lia | rewrite EB; lra |].
    rewrite Hr. split; [exact Hb|]. split; [exact I|].
    pose proof (B2Q_pos p ez) as Hp.
    pose proof (SFval_finite true m e') as Ev. unfold signQ in Ev.
    rewrite EB in Hv, Hp. split.
    + split; intros Hs'; lra.
    + intros Hpos. lra.
Qed.

Definition small : Q := 1 # 1073741824.

Lemma small_bpow : small == bpow (-30).
Proof. vm_compute. reflexivity. Qed.

(** A float between [2^-30] and [2^30] is normal. *)
Lemma normal_of_bounds (m : positive) (e : Z) :
  bounded prec emax m e = true -> small <= B2Q m e <= big ->
  digits (Zpos m) = 53%Z /\ (-83 < e <= -22)%Z.
Proof.
  intros Hb [Hlo Hhi]. apply bounded_spec in Hb as [Hf _].
  rewrite fexp_eq in Hf. rewrite small_bpow in Hlo. rewrite big_bpow in Hhi.
  apply digits_ge_of_bound in Hlo.
  assert (Hlt : B2Q m e < bpow 31).
  { assert (bpow 30 < bpow 31) by (rewrite !bpow_Z by lia; reflexivity). lra. }
  apply digits_le_of_bound in Hlt. lia.
Qed.

Lemma binary_round_aux_near (s : bool) (p : positive) (ex : Z)
  (lx : location) :
  (53 <= digits (Zpos p))%Z -> (-1021 <= digits (Zpos p) + ex <= 1023)%Z ->
  exists m e,
    binary_round_aux prec emax s (Zpos p) ex lx = S754_finite s m e /\
    bounded prec emax m e = true /\
    (1 - u52) * B2Q p ex <= B2Q m e <= (1 + u52) * B2Q p ex.
Proof.
  intros Hd Hr.
  destruct (binary_round_aux_normal s p ex lx Hd Hr)
    as [m [e [Hres [Hee [Hb Hv]]]]].
  exists m, e. split; [exact Hres|]. split; [exact Hb|].
  rewrite (B2Q_scale m ex e Hee). unfold B2Q.
  apply rel_bounds_of_Z; [apply bpow_pos | exact Hv].
Qed.

Lemma B2Q_mul (mx my : positive) (ex ey : Z) :
  B2Q (mx * my) (ex + ey) == B2Q mx ex * B2Q my ey.
Proof.
  unfold B2Q. rewrite Pos2Z.inj_mul, inject_Z_mult, bpow_add. ring.
Qed.

Lemma SFmul_pos (mx : positive) (ex : Z) (my : positive) (ey : Z) :
  bounded prec emax mx ex = true -> bounded prec emax my ey = true ->
  small <= B2Q mx ex <= big -> small <= B2Q my ey <= big ->
  exists m e,
    SFmul prec emax (S754_finite false mx ex) (S754_finite false my ey)
      = S754_finite false m e /\
    (1 - u52) * (B2Q mx ex * B2Q my ey) <= B2Q m e
      <= (1 + u52) * (B2Q mx ex * B2Q my ey).
Proof.
  intros Hbx Hby Hx Hy.
  destruct (normal_of_bounds mx ex Hbx Hx) as [Hdx Hex].
  destruct (normal_of_bounds my ey Hby Hy) as [Hdy Hey].
  cbn [SFmul xorb].
  pose proof (digits_bounds mx) as Bx. pose proof (digits_bounds my) as By.
  rewrite Hdx in Bx. rewrite Hdy in By.
  assert (Hd : digits (Zpos (mx * my)) = 105%Z \/
               digits (Zpos (mx * my)) = 106%Z).
  { rewrite Pos2Z.inj_mul.
    change (53 - 1)%Z with 52%Z in Bx, By.
    assert (E104 : (2 ^ 104 = 2 ^ 52 * 2 ^ 52)%Z) by reflexivity.
    assert (E106 : (2 ^ 106 = 2 ^ 53 * 2 ^ 53)%Z) by reflexivity.
    assert (E105 : (2 ^ 105 = 2 * 2 ^ 104)%Z) by reflexivity.
    destruct (Z_lt_le_dec (Zpos mx * Zpos my) (2 ^ 105)) as [Hlt | Hge].
    - left. apply digits_unique; [nia | | lia].
      change (105 - 1)%Z with 104%Z. nia.
    - right. apply digits_unique; [nia | | lia].
      change (106 - 1)%Z with 105%Z. nia. }
  destruct (binary_round_aux_near false (mx * my) (ex + ey) loc_Exact)
    as [m [e [Hres [_ Hv]]]]; [lia | lia |].
  exists m, e. split; [exact Hres|].
  rewrite B2Q_mul in Hv. exact Hv.
Qed.

Lemma SFdiv_pos (mx : positive) (ex : Z) (my : positive) (ey : Z) :
  bounded prec emax mx ex = true -> bounded prec emax my ey = true ->
  small <= B2Q mx ex <= big -> small <= B2Q my ey <= big ->
  exists m e,
    SFdiv prec emax (S754_finite false mx ex) (S754_finite false my ey)
      = S754_finite false m e /\
    (1 - 2 * u52) * B2Q mx ex <= B2Q m e * B2Q my ey
      <= (1 + u52) * B2Q mx ex.
Proof.
  intros Hbx Hby Hx Hy.
  destruct (normal_of_bounds mx ex Hbx Hx) as [Hdx Hex].
  destruct (normal_of_bounds my ey Hby Hy) as [Hdy Hey].
  pose proof (digits_bounds mx) as Bx. pose proof (digits_bounds my) as By.
  rewrite Hdx in Bx. rewrite Hdy in By.
  change (53 - 1)%Z with 52%Z in Bx, By.
  cbn [SFdiv xorb]. unfold SFdiv_core_binary.
  change (Zdigits2 (Zpos mx)) with (digits (Zpos mx)).
  change (Zdigits2 (Zpos my)) with (digits (Zpos my)).
  rewrite Hdx, Hdy.
  set (e' := Z.min (fexp prec emax (53 + ex - (53 + ey))) (ex - ey)).
  assert (Ee' : e' = (ex - ey - 53)%Z).
  { unfold e'. rewrite fexp_eq. lia. }
  replace (ex - ey - e')%Z with 53%Z by lia.
  rewrite Z.shiftl_mul_pow2 by lia.
  set (m' := (Zpos mx * 2 ^ 53)%Z).
  pose proof (Z.div_eucl_eq m' (Zpos my) ltac:(lia)) as Hdiv.
  pose proof (Z.mod_pos_bound m' (Zpos my) ltac:(lia)) as Hmod.
  unfold Z.modulo in Hmod.
  destruct (Z.div_eucl m' (Zpos my)) as [q r].
  assert (E105 : (2 ^ 105 = 2 ^ 52 * 2 ^ 53)%Z) by reflexivity.
  assert (E107 : (2 ^ 107 = 2 ^ 54 * 2 ^ 53)%Z) by reflexivity.
  assert (E53 : (2 ^ 53 = 2 * 2 ^ 52)%Z) by reflexivity.
  assert (E54 : (2 ^ 54 = 2 * 2 ^ 53)%Z) by reflexivity.
  assert (Hm'lo : (2 ^ 52 * 2 ^ 53 <= m')%Z) by (unfold m'; nia).
  assert (Hm'hi : (m' < 2 ^ 53 * 2 ^ 53)%Z) by (unfold m'; nia).
  assert (Hqlo : (2 ^ 52 <= q)%Z) by nia.
  assert (Hqhi : (q < 2 ^ 54)%Z) by nia.
  destruct q as [|q|q]; try lia.
  assert (Hdq : digits (Zpos q) = 53%Z \/ digits (Zpos q) = 54%Z).
  { destruct (Z_lt_le_dec (Zpos q) (2 ^ 53)) as [Hlt | Hge].
    - left. apply digits_unique; [lia | | lia]. change (53 - 1)%Z with 52%Z. lia.
    - right. apply digits_unique; [lia | | lia]. change (54 - 1)%Z with 53%Z. lia. }
  destruct (binary_round_aux_near false q e' (new_location (Zpos my) r))
    as [m [e [Hres [_ Hv]]]]; [lia | lia |].
  exists m, e. split; [exact Hres|].
  (* the exact quotient lies between q and q+1 units of 2^e' *)
  assert (Ex : B2Q mx ex == inject_Z m' * bpow (e' + ey)).
  { unfold B2Q, m'. rewrite inject_Z_mult.
    rewrite <- (bpow_Z 53) by lia.
    replace ex with (53 + (e' + ey))%Z at 1 by lia.
    rewrite (bpow_add 53 (e' + ey)). ring. }
  assert (Ey : B2Q q e' * B2Q my ey == inject_Z (Zpos q * Zpos my) * bpow (e' + ey)).
  { unfold B2Q. rewrite inject_Z_mult, bpow_add. ring. }
  assert (Hb : 0 < bpow (e' + ey)) by apply bpow_pos.
  assert (H1 : inject_Z (Zpos q * Zpos my) <= inject_Z m').
  { rewrite <- Zle_Qle. lia. }
  assert (H2 : inject_Z m' <= (1 + u52) * inject_Z (Zpos q * Zpos my)).
  { assert (Hz : (2 ^ 52 * m' <= (2 ^ 52 + 1) * (Zpos q * Zpos my))%Z) by nia.
    rewrite Zle_Qle in Hz. rewrite !inject_Z_mult in Hz.
    rewrite inject_Z_mult.
    change (inject_Z (2 ^ 52)) with (4503599627370496 # 1) in Hz.
    change (inject_Z (2 ^ 52 + 1)) with (4503599627370497 # 1) in Hz.
    unfold u52. change (2 ^ 52)%positive with 4503599627370496%positive.
    lra. }
  pose proof (B2Q_pos my ey) as Hypos. pose proof (B2Q_pos q e') as Hqpos.
  pose proof (B2Q_pos mx ex) as Hxpos. pose proof u52_pos as Hu.
  assert (A : B2Q q e' * B2Q my ey <= B2Q mx ex).
  { rewrite Ex, Ey. apply Qmult_le_compat_r; [exact H1 | lra]. }
  assert (B : B2Q mx ex <= (1 + u52) * (B2Q q e' * B2Q my ey)).
  { rewrite Ex, Ey. rewrite Qmult_assoc.
    apply Qmult_le_compat_r; [exact H2 | lra]. }
  destruct Hv as [Hv1 Hv2].
  assert (C1 : (1 - u52) * B2Q q e' * B2Q my ey <= B2Q m e * B2Q my ey).
  { apply Qmult_le_compat_r; [exact Hv1 | lra]. }
  assert (C2 : B2Q m e * B2Q my ey <= (1 + u52) * B2Q q e' * B2Q my ey).
  { apply Qmult_le_compat_r; [exact Hv2 | lra]. }
  set (X := B2Q mx ex) in *. set (QY := B2Q q e' * B2Q my ey) in *.
  assert (C1' : (1 - u52) * QY <= B2Q m e * B2Q my ey).
  { unfold QY. rewrite Qmult_assoc. exact C1. }
  assert (C2' : B2Q m e * B2Q my ey <= (1 + u52) * QY).
  { unfold QY. rewrite Qmult_assoc. exact C2. }
  assert (Hu1 : u52 < 1) by reflexivity.
  split.
  - assert (D : (1 - 2 * u52) * X <= (1 - u52) * QY) by nra.
    lra.
  - assert (D : (1 + u52) * QY <= (1 + u52) * X) by nra.
    lra.
Qed.

(** ** Comparisons *)

Ltac qcompare :=
  match goal with
  | |- (?a ?= ?b) = Lt => apply (proj1 (Qlt_alt a b))
  | |- (?a ?= ?b) = Gt => apply (proj1 (Qgt_alt a b))
  | |- (?a ?= ?b) = Eq => apply (proj1 (Qeq_alt a b))
  end.

Lemma canonical_lt (m1 : positive) (e1 : Z) (m2 : positive) (e2 : Z) :
  bounded prec emax m1 e1 = true -> bounded prec emax m2 e2 = true ->
  (e1 < e2)%Z -> B2Q m1 e1 < B2Q m2 e2.
Proof.
  intros H1 H2 He.
  apply bounded_range in H1 as [R1 [D1 _]].
  apply bounded_range in H2 as [R2 [_ D2]].
  specialize (D2 ltac:(lia)).
  pose proof (B2Q_bounds m1 e1) as [_ U1].
  pose proof (B2Q_bounds m2 e2) as [L2 _].
  rewrite D2 in L2.
  assert (Hle : bpow (digits (Zpos m1) + e1) <= bpow (53 + e2 - 1))
    by (apply bpow_le; lia).
  lra.
Qed.

Lemma B2Q_same_exp (m1 m2 : positive) (e : Z) (c : comparison) :
  Pos.compare m1 m2 = c -> (B2Q m1 e ?= B2Q m2 e) = c.
Proof.
  intros Hc. pose proof (bpow_pos e) as He. unfold B2Q.
  destruct c.
  - apply Pos.compare_eq in Hc. subst. qcompare. reflexivity.
  - apply Pos.compare_lt_iff in Hc. qcompare.
    apply Qmult_lt_compat_r; [exact He|]. rewrite <- Zlt_Qlt.
    apply Pos2Z.pos_lt_pos. exact Hc.
  - apply Pos.compare_gt_iff in Hc. qcompare.
    apply Qmult_lt_compat_r; [exact He|]. rewrite <- Zlt_Qlt.
    apply Pos2Z.pos_lt_pos. exact Hc.
Qed.

Lemma B2Q_compare (m1 : positive) (e1 : Z) (m2 : positive) (e2 : Z) :
  bounded prec emax m1 e1 = true -> bounded prec emax m2 e2 = true ->
  match Z.compare e1 e2 with
  | Lt => Lt
  | Gt => Gt
  | Eq => Pos.compare_cont Eq m1 m2
  end = (B2Q m1 e1 ?= B2Q m2 e2).
Proof.
  intros H1 H2. symmetry. destruct (Z.compare_spec e1 e2) as [E | L | G].
  - subst e2. apply B2Q_same_exp. reflexivity.
  - qcompare. now apply canonical_lt.
  - qcompare. now apply canonical_lt.
Qed.

Lemma Qcompare_opp (a b : Q) : (- a ?= - b) = CompOpp (a ?= b).
Proof.
  destruct (a ?= b) eqn:E; cbn [CompOpp].
  - apply Qeq_alt in E. qcompare. lra.
  - apply Qlt_alt in E. qcompare. lra.
  - apply Qgt_alt in E. qcompare. lra.
Qed.

Lemma SFcompare_val (a b : spec_float) :
  valid_binary a = true -> valid_binary b = true -> SFfin a -> SFfin b ->
  SFcompare a b = Some (SFval a ?= SFval b).
Proof.
  intros Va Vb Fa Fb.
  destruct a as [sa | sa | | sa ma ea]; try contradiction;
  destruct b as [sb | sb | | sb mb eb]; try contradiction;
  cbn [SFcompare].
  - reflexivity.
  - f_equal. symmetry. pose proof (B2Q_pos mb eb) as Hb.
    pose proof (SFval_finite sb mb eb) as Ev. unfold signQ in Ev.
    destruct sb; qcompare;
      change (SFval (S754_zero sa)) with 0; lra.
  - f_equal. symmetry. pose proof (B2Q_pos ma ea) as Ha.
    pose proof (SFval_finite sa ma ea) as Ev. unfold signQ in Ev.
    destruct sa; qcompare;
      change (SFval (S754_zero sb)) with 0; lra.
  - cbn [valid_binary] in Va, Vb. f_equal.
    pose proof (B2Q_pos ma ea) as Ha. pose proof (B2Q_pos mb eb) as Hb.
    pose proof (SFval_finite sa ma ea) as Eva. unfold signQ in Eva.
    pose proof (SFval_finite sb mb eb) as Evb. unfold signQ in Evb.
    destruct sa, sb.
    + rewrite (Qcompare_comp _ _ Eva _ _ Evb).
      replace (- (1) * B2Q ma ea ?= - (1) * B2Q mb eb)
        with (- B2Q ma ea ?= - B2Q mb eb).
      2:{ apply Qcompare_comp; ring. }
      rewrite Qcompare_opp, <- (B2Q_compare ma ea mb eb Va Vb).
      destruct (Z.compare ea eb); reflexivity.
    + symmetry. qcompare. lra.
    + symmetry. qcompare. lra.
    + rewrite (Qcompare_comp _ _ Eva _ _ Evb).
      replace (1 * B2Q ma ea ?= 1 * B2Q mb eb)
        with (B2Q ma ea ?= B2Q mb eb).
      2:{ apply Qcompare_comp; ring. }
      apply B2Q_compare; assumption.
Qed.

(** ** Primitive floats *)

Definition Ffin (x : float) : Prop := SFfin (Prim2SF x).
Definition Fpos (x : float) : Prop := SFpos (Prim2SF x).

Lemma Fpos_inv (x : float) :
  Fpos x ->
  exists m e, Prim2SF x = S754_finite false m e /\
              bounded prec emax m e = true /\ Fval x == B2Q m e.
Proof.
  unfold Fpos, Fval. pose proof (Prim2SF_valid x) as Hv.
  destruct (Prim2SF x) as [| | |[] m e]; try contradiction.
  intros _. exists m, e. split; [reflexivity|]. split; [exact Hv|].
  rewrite SFval_finite. unfold signQ. ring.
Qed.

Lemma Fpos_fin (x : float) : Fpos x -> Ffin x.
Proof.
  unfold Fpos, Ffin. destruct (Prim2SF x) as [| | |[] m e]; cbn; tauto.
Qed.

Lemma Fpos_val (x : float) : Fpos x -> 0 < Fval x.
Proof.
  intros H. destruct (Fpos_inv x H) as [m [e [_ [_ Ev]]]].
  rewrite Ev. apply B2Q_pos.
Qed.

Lemma SFval_pos_finite (x : spec_float) : 0 < SFval x -> SFpos x.
Proof.
  destruct x as [| | |s m e]; cbn [SFval SFpos]; try lra.
  intros H. pose proof (SFval_finite s m e) as Ev. unfold signQ in Ev.
  cbn [SFval] in Ev. pose proof (B2Q_pos m e). destruct s; [lra | exact I].
Qed.

Lemma add_near (x y : float) :
  Ffin x -> Ffin y -> - big <= Fval x + Fval y <= big ->
  Ffin (x + y) /\ near (Fval x + Fval y) (Fval (x + y)) /\
  (0 < Fval x + Fval y -> Fpos (x + y)).
Proof.
  unfold Ffin, Fpos, Fval. rewrite add_spec. unfold SF64add.
  pose proof (Prim2SF_valid x) as Vx. pose proof (Prim2SF_valid y) as Vy.
  destruct (Prim2SF x) as [sx | | |sx mx ex]; try contradiction;
  destruct (Prim2SF y) as [sy | | |sy my ey]; try contradiction;
  intros _ _ Hs.
  - assert (E : SFval (SFadd prec emax (S754_zero sx) (S754_zero sy)) == 0).
    { destruct sx, sy; reflexivity. }
    split; [destruct sx, sy; exact I|]. split.
    + apply near_refl. rewrite E. cbn [SFval]. ring.
    + cbn [SFval]. lra.
  - cbn [SFadd]. split; [exact I|]. split.
    + apply near_refl. cbn [SFval]. ring.
    + intros H. apply SFval_pos_finite.
      change (SFval (S754_zero sx)) with 0 in H. lra.
  - cbn [SFadd]. split; [exact I|]. split.
    + apply near_refl. cbn [SFval]. ring.
    + intros H. apply SFval_pos_finite.
      change (SFval (S754_zero sy)) with 0 in H. lra.
  - destruct (SFadd_finite sx mx ex sy my ey Vx Vy Hs) as [_ [Hf [Hn Hp]]].
    split; [exact Hf|]. split; [exact Hn | exact Hp].
Qed.

Lemma mul_pos (x y : float) :
  Fpos x -> Fpos y ->
  small <= Fval x <= big -> small <= Fval y <= big ->
  Fpos (x * y) /\
  (1 - u52) * (Fval x * Fval y) <= Fval (x * y)
    <= (1 + u52) * (Fval x * Fval y).
Proof.
  intros Hx Hy Bx By.
  destruct (Fpos_inv x Hx) as [mx [ex [Ex [Vx Evx]]]].
  destruct (Fpos_inv y Hy) as [my [ey [Ey [Vy Evy]]]].
  rewrite Evx in Bx. rewrite Evy in By.
  destruct (SFmul_pos mx ex my ey Vx Vy Bx By) as [m [e [Hr Hv]]].
  unfold Fpos, Fval in *. rewrite mul_spec. unfold SF64mul.
  rewrite Ex, Ey, Hr in *. split; [exact I|].
  rewrite (SFval_finite false m e). unfold signQ.
  rewrite Evx, Evy. lra.
Qed.

Lemma div_pos (x y : float) :
  Fpos x -> Fpos y ->
  small <= Fval x <= big -> small <= Fval y <= big ->
  Fpos (x / y) /\
  (1 - 2 * u52) * Fval x <= Fval (x / y) * Fval y <= (1 + u52) * Fval x.
Proof.
  intros Hx Hy Bx By.
  destruct (Fpos_inv x Hx) as [mx [ex [Ex [Vx Evx]]]].
  destruct (Fpos_inv y Hy) as [my [ey [Ey [Vy Evy]]]].
  rewrite Evx in Bx. rewrite Evy in By.
  destruct (SFdiv_pos mx ex my ey Vx Vy Bx By) as [m [e [Hr Hv]]].
  unfold Fpos, Fval in *. rewrite div_spec. unfold SF64div.
  rewrite Ex, Ey, Hr in *. split; [exact I|].
  rewrite (SFval_finite false m e). unfold signQ.
  rewrite Evx, Evy. lra.
Qed.

Lemma compare_val (x y : float) :
  Ffin x -> Ffin y ->
  SFcompare (Prim2SF x) (Prim2SF y) = Some (Fval x ?= Fval y).
Proof.
  intros Hx Hy. apply SFcompare_val; auto using Prim2SF_valid.
Qed.

Lemma ltb_val (x y : float) :
  Ffin x -> Ffin y -> (PrimFloat.ltb x y = true <-> Fval x < Fval y).
Proof.
  intros Hx Hy. rewrite ltb_spec. unfold SFltb.
  rewrite (compare_val x y Hx Hy). rewrite Qlt_alt.
  destruct (Fval x ?= Fval y); split; congruence.
Qed.

Lemma leb_val (x y : float) :
  Ffin x -> Ffin y -> (PrimFloat.leb x y = true <-> Fval x <= Fval y).
Proof.
  intros Hx Hy. rewrite leb_spec. unfold SFleb.
  rewrite (compare_val x y Hx Hy). rewrite Qle_alt.
  destruct (Fval x ?= Fval y); split; congruence.
Qed.

Lemma near_abs (s v B : Q) :
  near s v -> - B <= s <= B -> s - u52 * B <= v <= s + u52 * B.
Proof.
  intros [Hp Hn] [H1 H2]. pose proof u52_pos as Hu.
  destruct (Qlt_le_dec s 0) as [Hs | Hs].
  - specialize (Hn ltac:(lra)). nra.
  - specialize (Hp Hs). nra.
Qed.

(** * The policy loop, lever by lever *)

Local Open Scope Z_scope.

(** What one round of the loop does to the total cost and to the treemap,
    for a lever whose record is [pd]. *)
Definition add_cost (t : float) (pd : PolicyData) (l : Z) : float :=
  if l =? 0 then t else (t + lever_cost pd l)%float.

Definition treemap_entry (pd : PolicyData) (l : Z) : TreemapEntry.t :=
  {| TreemapEntry.name := label pd;
     TreemapEntry.value := round_to_precision (lever_cost pd l) 2;
     TreemapEntry.formatted := format_currency (lever_cost pd l);
     TreemapEntry.percentage := 0 |}.

Definition lever_entries (pd : PolicyData) (l : Z) : list TreemapEntry.t :=
  if l =? 0 then []
  else if PrimFloat.ltb 0 (lever_cost pd l) then [treemap_entry pd l]
  else [].

(** The levers of the table with their levels. *)
Definition levers (ls : list Z) : list (string * PolicyData * Z) :=
  combine POLICY_COSTS ls.

Definition lever_item (x : string * PolicyData * Z) : string * Z :=
  let '(key, _, l) := x in (key, l).

Lemma policy_step_spec (self : PolicyEngine) (st : Totals) (key : string)
  (pd : PolicyData) (l : Z) :
  dict_find (policy_costs self) key = Some pd ->
  exists st',
    policy_step self st (key, l) = Ok st' /\
    total_cost st' = add_cost (total_cost st) pd l /\
    fiscal_treemap st' = (fiscal_treemap st ++ lever_entries pd l)%list.
Proof.
  intros Hf. unfold policy_step, dict_item, add_cost, lever_entries.
  rewrite Hf. destruct (l =? 0).
  - exists st. split; [reflexivity|]. split; [reflexivity|].
    now rewrite app_nil_r.
  - cbn [bind]. eexists. split; [reflexivity|]. cbn [total_cost fiscal_treemap].
    split; [reflexivity|].
    destruct (PrimFloat.ltb 0 (lever_cost pd l));
      [reflexivity | now rewrite app_nil_r].
Qed.

Lemma policy_loop_levers (self : PolicyEngine)
  (items : list (string * PolicyData * Z)) :
  Forall (fun x => dict_find (policy_costs self) (fst (fst x))
                   = Some (snd (fst x))) items ->
  forall st, exists st',
    for_each (policy_step self) (map lever_item items) st = Ok st' /\
    total_cost st' =
      fold_left (fun t x => add_cost t (snd (fst x)) (snd x)) items
        (total_cost st) /\
    fiscal_treemap st' =
      (fiscal_treemap st ++
       flat_map (fun x => lever_entries (snd (fst x)) (snd x)) items)%list.
Proof.
  induction 1 as [| [[key pd] l] items Hx _ IH]; intros st.
  - exists st. cbn. split; [reflexivity|]. split; [reflexivity|].
    now rewrite app_nil_r.
  - cbn [fst snd] in Hx.
    destruct (policy_step_spec self st key pd l Hx) as [st1 [H1 [H2 H3]]].
    destruct (IH st1) as [st' [H4 [H5 H6]]].
    exists st'. cbn [map lever_item for_each fold_left flat_map fst snd].
    rewrite H1. cbn [bind]. split; [exact H4|].
    split; [rewrite H5, H2; reflexivity|].
    rewrite H6, H3, app_assoc. reflexivity.
Qed.

Lemma levers_found (ls : list Z) :
  Forall (fun x => dict_find (policy_costs new_PolicyEngine) (fst (fst x))
                   = Some (snd (fst x))) (levers ls).
Proof.
  unfold levers.
  assert (H : Forall (fun kp => dict_find POLICY_COSTS (fst kp) = Some (snd kp))
                POLICY_COSTS).
  { repeat (apply Forall_cons; [reflexivity|]). apply Forall_nil. }
  revert ls. induction H as [| kp rest Hk _ IH]; intros ls.
  - apply Forall_nil.
  - destruct ls as [| l ls]; [apply Forall_nil|].
    cbn [combine]. apply Forall_cons; [exact Hk | apply IH].
Qed.

Lemma valid_levels_levers (policies : dict Z) :
  valid_levels policies ->
  exists ls, List.length ls = 8%nat /\ Forall (fun l => 0 <= l <= 100) ls /\
             policies = map lever_item (levers ls).
Proof.
  intros [l1 [l2 [l3 [l4 [l5 [l6 [l7 [l8 [-> H]]]]]]]]].
  exists [l1; l2; l3; l4; l5; l6; l7; l8].
  split; [reflexivity|]. split; [exact H | reflexivity].
Qed.

(** * Bounds on the total cost *)

Local Open Scope Q_scope.

(** A float checked to be finite with its value in a closed range. *)
Definition Fval_in (x : float) (lo hi : Q) : bool :=
  match Prim2SF x with
  | S754_zero _ | S754_finite _ _ _ =>
      Qle_bool lo (Fval x) && Qle_bool (Fval x) hi
  | _ => false
  end.

Lemma Fval_in_sound (x : float) (lo hi : Q) :
  Fval_in x lo hi = true -> Ffin x /\ lo <= Fval x <= hi.
Proof.
  unfold Fval_in, Ffin. intros H.
  destruct (Prim2SF x) eqn:E; try discriminate;
    apply andb_prop in H as [H1 H2];
    apply Qle_bool_iff in H1, H2; (split; [exact I | split; assumption]).
Qed.

(** The range of each lever's cost over the levels 1..100, in the order of
    the table. *)
Definition cost_ranges : list (Q * Q) :=
  [ (0, 120); (0, 250); (- (80), 0); (0, 60);
    (0, 180); (0, 150); (0, 100); (0, 80) ].

Definition cost_in_range (pd : PolicyData) (r : Q * Q) (l : Z) : bool :=
  Fval_in (lever_cost pd l) (fst r) (snd r).

Lemma Z_range_1_100 (P : Z -> bool) :
  forallb P (Z_range 1 100) = true ->
  forall l, (0 <= l <= 100)%Z -> l <> 0%Z -> P l = true.
Proof.
  intros H l Hl Hnz. apply (Z_range_forallb P 1 100 H). lia.
Qed.

Lemma lever_cost_ranges :
  Forall2 (fun kp r =>
             fst r <= 0 <= snd r /\
             forall l, (0 <= l <= 100)%Z -> l <> 0%Z ->
               Ffin (lever_cost (snd kp) l) /\
               fst r <= Fval (lever_cost (snd kp) l) <= snd r)
          POLICY_COSTS cost_ranges.
Proof.
  unfold POLICY_COSTS, cost_ranges.
  repeat (apply Forall2_cons;
          [ split;
            [ cbn [fst snd]; lra
            | intros l Hl Hnz; apply Fval_in_sound;
              match goal with
              | |- Fval_in (lever_cost ?pd l) ?lo ?hi = true =>
                  apply (Z_range_1_100
                           (fun l => Fval_in (lever_cost pd l) lo hi));
                  [vm_compute; reflexivity | exact Hl | exact Hnz]
              end ] |]).
  apply Forall2_nil.
Qed.

Definition sum_lo (ranges : list (Q * Q)) : Q :=
  fold_right (fun r acc => fst r + acc) 0 ranges.

Definition sum_hi (ranges : list (Q * Q)) : Q :=
  fold_right (fun r acc => snd r + acc) 0 ranges.

Definition count (ranges : list (Q * Q)) : Q :=
  inject_Z (Z.of_nat (List.length ranges)).

(** The error one addition can add to a sum below 1000 in magnitude. *)
Definition delta : Q := u52 * 1000.

(** What is known of a lever at level [snd x] whose cost lies in [r]. *)
Definition lever_in_range (x : string * PolicyData * Z) (r : Q * Q) : Prop :=
  fst r <= 0 <= snd r /\
  (snd x <> 0%Z ->
   Ffin (lever_cost (snd (fst x)) (snd x)) /\
   fst r <= Fval (lever_cost (snd (fst x)) (snd x)) <= snd r).

Lemma count_cons (r : Q * Q) (ranges : list (Q * Q)) :
  count (r :: ranges) == 1 + count ranges.
Proof.
  unfold count. cbn [List.length]. rewrite Nat2Z.inj_succ.
  unfold Z.succ. rewrite inject_Z_plus. ring.
Qed.

Lemma count_nonneg (ranges : list (Q * Q)) : 0 <= count ranges.
Proof.
  unfold count. change 0 with (inject_Z 0). rewrite <- Zle_Qle. lia.
Qed.

Lemma ranges_sign (items : list (string * PolicyData * Z))
  (ranges : list (Q * Q)) :
  Forall2 lever_in_range items ranges ->
  sum_lo ranges <= 0 <= sum_hi ranges.
Proof.
  induction 1 as [| x r items ranges [Hr _] _ IH]; cbn [sum_lo sum_hi fold_right].
  - lra.
  - fold (sum_lo ranges). fold (sum_hi ranges). lra.
Qed.

Lemma add_cost_bounds (items : list (string * PolicyData * Z))
  (ranges : list (Q * Q)) :
  Forall2 lever_in_range items ranges ->
  forall (t : float) (L U : Q),
    Ffin t -> L <= Fval t <= U ->
    - (999) <= L + sum_lo ranges - count ranges * delta ->
    U + sum_hi ranges + count ranges * delta <= 999 ->
    let t' := fold_left (fun t x => add_cost t (snd (fst x)) (snd x)) items t in
    Ffin t' /\
    L + sum_lo ranges - count ranges * delta <= Fval t'
      <= U + sum_hi ranges + count ranges * delta.
Proof.
  assert (Hd : 0 < delta) by reflexivity.
  induction 1 as [| x r items ranges Hx Hrest IH]; intros t L U Ht Hb HL HU.
  - cbn [fold_left sum_lo sum_hi fold_right] in *. unfold count in *.
    cbn [List.length Z.of_nat] in *. change (inject_Z 0) with 0 in *.
    split; [exact Ht|]. lra.
  - pose proof (ranges_sign items ranges Hrest) as Hsign.
    pose proof (count_nonneg ranges) as Hc.
    pose proof (count_cons r ranges) as Ec.
    cbn [sum_lo sum_hi fold_right] in *.
    fold (sum_lo ranges) in *. fold (sum_hi ranges) in *.
    destruct Hx as [Hr Hx]. cbn [fold_left].
    set (t1 := add_cost t (snd (fst x)) (snd x)).
    assert (H1 : Ffin t1 /\ L + fst r - delta <= Fval t1 <= U + snd r + delta).
    { unfold t1, add_cost. destruct (Z.eqb_spec (snd x) 0) as [E | N].
      - split; [exact Ht | lra].
      - destruct (Hx N) as [Hfc Hbc].
        assert (Hs : - (1000) <= Fval t + Fval (lever_cost (snd (fst x)) (snd x))
                     <= 1000) by nra.
        destruct (add_near t (lever_cost (snd (fst x)) (snd x)) Ht Hfc)
          as [Hf [Hn _]]; [unfold big; lra|].
        split; [exact Hf|].
        apply near_abs with (B := 1000) in Hn; [|exact Hs].
        fold delta in Hn. lra. }
    destruct H1 as [Hf1 Hb1].
    destruct (IH t1 (L + fst r - delta) (U + snd r + delta) Hf1 Hb1)
      as [Hf' Hb']; [nra | nra |].
    split; [exact Hf'|]. nra.
Qed.

Lemma Forall2_combine {A B C : Type} (P : A -> C -> Prop)
  (R : B -> Prop) (S : A * B -> C -> Prop) :
  (forall a b c, P a c -> R b -> S (a, b) c) ->
  forall la lc, Forall2 P la lc ->
  forall lb, Forall R lb -> List.length lb = List.length la ->
  Forall2 S (combine la lb) lc.
Proof.
  intros HS la lc H. induction H as [| a c la lc Hac _ IH]; intros lb Hlb Hlen.
  - destruct lb; [apply Forall2_nil | discriminate].
  - destruct lb as [| b lb]; [discriminate|].
    inversion_clear Hlb as [| ? ? Hb Hlb'].
    cbn [combine]. apply Forall2_cons; [now apply HS|].
    apply IH; [exact Hlb' | now injection Hlen].
Qed.

Lemma levers_in_range (ls : list Z) :
  Forall (fun l => 0 <= l <= 100)%Z ls -> List.length ls = 8%nat ->
  Forall2 lever_in_range (levers ls) cost_ranges.
Proof.
  intros Hls Hlen. unfold levers.
  eapply Forall2_combine;
    [ | exact lever_cost_ranges | exact Hls | exact Hlen].
  intros kp l r [Hr Hk] Hl. split; [exact Hr|].
  cbn [fst snd]. intros Hnz. now apply Hk.
Qed.

(** * Decimal rounding *)

Lemma round_half_even_spec (num den : Z) :
  (0 < den)%Z ->
  (- den <= 2 * (PyFloat.round_half_even num den * den - num) <= den)%Z.
Proof.
  intros Hd. unfold PyFloat.round_half_even.
  pose proof (Z.div_mod num den ltac:(lia)) as Hdm.
  pose proof (Z.mod_pos_bound num den Hd) as Hmod.
  destruct (Z.compare_spec (2 * (num mod den)) den) as [E | L | G].
  - destruct (Z.even (num / den)); nia.
  - nia.
  - nia.
Qed.

Lemma bpow_opp_Z (e : Z) : (e <= 0)%Z -> bpow e * inject_Z (2 ^ (- e)) == 1.
Proof.
  intros He. rewrite <- bpow_Z by lia. rewrite <- bpow_add.
  replace (e + - e)%Z with 0%Z by lia. reflexivity.
Qed.

(** The scaled digits are within half a unit of the scaled value. *)
Lemma scaled_digits_near (m : positive) (e nd : Z) :
  (0 <= nd)%Z ->
  let x := inject_Z (10 ^ nd) * B2Q m e in
  x - (1 # 2) <= inject_Z (PyFloat.scaled_digits m e nd) <= x + (1 # 2).
Proof.
  intros Hnd x. unfold PyFloat.scaled_digits.
  destruct (Z.leb_spec 0 e) as [He | He].
  - assert (E : inject_Z (Zpos m * 2 ^ e * 10 ^ nd) == x).
    { unfold x, B2Q. rewrite !inject_Z_mult, bpow_Z by lia. ring. }
    rewrite E. lra.
  - set (den := (2 ^ (- e))%Z).
    assert (Hden : (0 < den)%Z) by (apply Z.pow_pos_nonneg; lia).
    pose proof (round_half_even_spec (Zpos m * 10 ^ nd) den Hden) as Hk.
    set (k := PyFloat.round_half_even (Zpos m * 10 ^ nd) den) in *.
    assert (H1 : (2 * (Zpos m * 10 ^ nd) <= 2 * (k * den) + den)%Z) by lia.
    assert (H2 : (2 * (k * den) <= 2 * (Zpos m * 10 ^ nd) + den)%Z) by lia.
    rewrite Zle_Qle in H1, H2.
    rewrite !inject_Z_plus, !inject_Z_mult in H1, H2.
    pose proof (bpow_opp_Z e ltac:(lia)) as Eb. fold den in Eb.
    assert (HD : 0 < inject_Z den).
    { change 0 with (inject_Z 0). rewrite <- Zlt_Qlt. exact Hden. }
    assert (EX : x * inject_Z den == inject_Z (Zpos m) * inject_Z (10 ^ nd)).
    { unfold x, B2Q.
      transitivity (inject_Z (10 ^ nd) * inject_Z (Zpos m) *
                    (bpow e * inject_Z den)); [ring|].
      rewrite Eb. ring. }
    change (inject_Z 2) with 2 in H1, H2.
    set (D := inject_Z den) in *. set (K := inject_Z k) in *.
    set (N := inject_Z (Zpos m) * inject_Z (10 ^ nd)) in *.
    assert (A : (K - x) * D <= (1 # 2) * D) by nra.
    assert (B : - ((1 # 2) * D) <= (K - x) * D) by nra.
    split; nra.
Qed.

(** * The nearest float to a ratio *)

Lemma of_ratio_quotient (num den k : Z) :
  (0 < num)%Z -> (0 < den)%Z -> (0 <= k)%Z ->
  (2 ^ 63 * den <= num * 2 ^ k)%Z ->
  let n := (num * 2 ^ k)%Z in
  let p := (2 * (n / den) + (if n mod den =? 0 then 0 else 1))%Z in
  (0 < p)%Z /\
  ((2 ^ 52 - 1) * (2 * n) <= 2 ^ 52 * (p * den) <= (2 ^ 52 + 1) * (2 * n))%Z.
Proof.
  intros Hn Hd Hk Hbig n p.
  pose proof (Z.div_mod n den ltac:(lia)) as Hdm.
  pose proof (Z.mod_pos_bound n den Hd) as Hmod.
  assert (Hq : (2 ^ 63 <= n / den)%Z).
  { apply Z.div_le_lower_bound; [exact Hd | fold n in Hbig; lia]. }
  assert (E63 : (2 ^ 63 = 2 ^ 11 * 2 ^ 52)%Z) by reflexivity.
  assert (P52 : (0 < 2 ^ 52)%Z) by reflexivity.
  unfold p. destruct (Z.eqb_spec (n mod den) 0) as [E | N]; split; nia.
Qed.

Lemma of_ratio_shift (num den : Z) :
  (0 < num)%Z -> (0 < den)%Z ->
  let k := Z.max 0 (Z.log2 den - Z.log2 num + 64) in
  (2 ^ 63 * den <= num * 2 ^ k)%Z.
Proof.
  intros Hn Hd k.
  pose proof (Z.log2_spec num Hn) as [Hnlo _].
  pose proof (Z.log2_spec den Hd) as [_ Hdhi].
  pose proof (Z.log2_nonneg num) as Ln. pose proof (Z.log2_nonneg den) as Ld.
  assert (Hk : (Z.log2 den + 64 <= Z.log2 num + k)%Z) by (unfold k; lia).
  assert (H1 : (2 ^ (Z.log2 den + 64) <= 2 ^ (Z.log2 num + k))%Z)
    by (apply Z.pow_le_mono_r; lia).
  rewrite !Z.pow_add_r in H1 by (unfold k; lia).
  unfold Z.succ in Hdhi. rewrite Z.pow_add_r in Hdhi by lia.
  change (2 ^ 1)%Z with 2%Z in Hdhi.
  change (2 ^ 64)%Z with (2 * 2 ^ 63)%Z in H1.
  assert (P63 : (0 < 2 ^ 63)%Z) by reflexivity.
  assert (Pk : (0 < 2 ^ k)%Z) by (apply Z.pow_pos_nonneg; unfold k; lia).
  nia.
Qed.

(** [of_ratio num den] is a positive float within two roundings of
    [num / den]. *)
Lemma of_ratio_near (num den : Z) :
  (0 < num)%Z -> (0 < den <= 2 ^ 29)%Z -> (num <= 2 ^ 29 * den)%Z ->
  Fpos (PyFloat.of_ratio num den) /\
  (1 - 3 * u52) * inject_Z num
    <= Fval (PyFloat.of_ratio num den) * inject_Z den
    <= (1 + 3 * u52) * inject_Z num.
Proof.
  intros Hn [Hd Hdb] Hb. unfold PyFloat.of_ratio.
  destruct (Z.eqb_spec num 0) as [E | _]; [lia|].
  set (k := Z.max 0 (Z.log2 den - Z.log2 num + 64)).
  pose proof (of_ratio_shift num den Hn Hd) as Hshift. fold k in Hshift.
  assert (Hk0 : (0 <= k)%Z) by (unfold k; lia).
  assert (Hk : (k <= 94)%Z).
  { pose proof (Z.log2_nonneg num).
    assert (Z.log2 den <= 29)%Z.
    { change 29%Z with (Z.log2 (2 ^ 29)). now apply Z.log2_le_mono. }
    unfold k. lia. }
  destruct (of_ratio_quotient num den k Hn Hd Hk0 Hshift) as [Hp Hv].
  set (n := (num * 2 ^ k)%Z) in *.
  remember (2 * (n / den) + (if n mod den =? 0 then 0 else 1))%Z as P eqn:EP0.
  destruct P as [|p|p]; try lia.
  cbn [binary_normalize].
  (* the value of the quotient with its sticky bit *)
  assert (EN : inject_Z (2 * n) * bpow (- k - 1) == inject_Z num).
  { unfold n. rewrite !inject_Z_mult.
    rewrite <- (bpow_Z k) by lia. change (inject_Z 2) with (bpow 1).
    transitivity (inject_Z num * (bpow 1 * bpow k * bpow (- k - 1))); [ring|].
    rewrite <- !bpow_add. replace (1 + k + (- k - 1))%Z with 0%Z by lia.
    change (bpow 0) with 1. ring. }
  assert (EP : B2Q p (- k - 1) * inject_Z den
               == inject_Z (Zpos p * den) * bpow (- k - 1)).
  { unfold B2Q. rewrite inject_Z_mult. ring. }
  pose proof (rel_bounds_of_Z (2 * n) (Zpos p * den) (bpow (- k - 1))
                (bpow_pos _) Hv) as Hrel.
  rewrite EN, <- EP in Hrel.
  pose proof u52_pos as Hu.
  assert (Hnum : 0 < inject_Z num).
  { change 0 with (inject_Z 0). rewrite <- Zlt_Qlt. exact Hn. }
  assert (Hden : 1 <= inject_Z den).
  { change 1 with (inject_Z 1). rewrite <- Zle_Qle. lia. }
  assert (Hratio : inject_Z num <= 536870912 * inject_Z den).
  { change 536870912 with (inject_Z (2 ^ 29)).
    rewrite <- inject_Z_mult, <- Zle_Qle. exact Hb. }
  pose proof (B2Q_pos p (- k - 1)) as HB.
  assert (Hu1 : u52 <= 1 # 1000) by (unfold u52; discriminate).
  destruct (binary_round_near false p (- k - 1)) as [m [e' [Hr [Hbd Hm]]]];
    [lia | unfold big; nra |].
  rewrite Hr. unfold Fpos, Fval.
  rewrite Prim2SF_SF2Prim by exact Hbd.
  split; [exact I|].
  pose proof (SFval_finite false m e') as Ev. unfold signQ in Ev.
  rewrite Ev. destruct Hrel as [R1 R2]. destruct Hm as [M1 M2].
  set (X := B2Q p (- k - 1)) in *. set (V := B2Q m e') in *.
  set (D := inject_Z den) in *. set (N := inject_Z num) in *.
  assert (A1 : (1 - u52) * X * D <= V * D)
    by (apply Qmult_le_compat_r; [exact M1 | lra]).
  assert (A2 : V * D <= (1 + u52) * X * D)
    by (apply Qmult_le_compat_r; [exact M2 | lra]).
  unfold u52 in *. split; lra.
Qed.

(** * The total cost of the shipped table *)

Lemma Ffin_Fval_of_check (x : float) (v : Q) :
  Fval_in x v v = true -> Ffin x /\ Fval x == v.
Proof.
  intros H. apply Fval_in_sound in H as [Hf [H1 H2]].
  split; [exact Hf | lra].
Qed.

Lemma opp_val (x : float) :
  Ffin x -> Ffin (- x) /\ Fval (- x) == - Fval x.
Proof.
  unfold Ffin, Fval. rewrite opp_spec.
  destruct (Prim2SF x) as [s | s | | s m e]; try contradiction; intros _;
    cbn [SFopp SFfin]; (split; [exact I|]).
  - reflexivity.
  - rewrite !SFval_finite. unfold signQ. destruct s; cbn [negb]; ring.
Qed.

(** The policy loop never raises on sanitized levels, and its total cost
    stays between -80 and 940, up to eight rounding errors. *)
Lemma policy_loop_total_cost (policies : dict Z) :
  valid_levels policies ->
  exists st,
    policy_loop new_PolicyEngine policies = Ok st /\
    Ffin (total_cost st) /\
    - (80) - 8 * delta <= Fval (total_cost st) <= 940 + 8 * delta.
Proof.
  intros Hv. destruct (valid_levels_levers policies Hv) as [ls [Hlen [Hls ->]]].
  destruct (policy_loop_levers new_PolicyEngine (levers ls) (levers_found ls)
              initial_totals) as [st [Hloop [Htot _]]].
  exists st. split; [exact Hloop|].
  rewrite Htot.
  pose proof (add_cost_bounds (levers ls) cost_ranges
                (levers_in_range ls Hls Hlen)
                (total_cost initial_totals) 0 0) as H.
  assert (Hd : delta == 1000 # 4503599627370496) by reflexivity.
  assert (Elo : sum_lo cost_ranges == - (80)) by reflexivity.
  assert (Ehi : sum_hi cost_ranges == 940) by reflexivity.
  assert (Ec : count cost_ranges == 8) by reflexivity.
  destruct H as [Hf Hb].
  - exact I.
  - change (Fval (total_cost initial_totals)) with (Fval 0). 
    assert (E0 : Fval 0 == 0) by reflexivity. lra.
  - rewrite Elo, Ec, Hd. lra.
  - rewrite Ehi, Ec, Hd. lra.
  - split; [exact Hf|]. rewrite Elo, Ehi, Ec in Hb. lra.
Qed.

Lemma below_threshold (t : float) :
  Ffin t -> Fval t <= 940 + 8 * delta ->
  PrimFloat.ltb BANKRUPTCY_THRESHOLD t = false.
Proof.
  intros Hf Hb.
  destruct (Ffin_Fval_of_check BANKRUPTCY_THRESHOLD 1000 eq_refl) as [Hf0 E0].
  destruct (PrimFloat.ltb BANKRUPTCY_THRESHOLD t) eqn:E; [|reflexivity].
  apply (ltb_val _ _ Hf0 Hf) in E.
  assert (Hd : delta == 1000 # 4503599627370496) by reflexivity.
  rewrite E0, Hd in *. lra.
Qed.

Lemma leb_of_val (x y : float) :
  Ffin x -> Ffin y -> Fval x <= Fval y -> PrimFloat.leb x y = true.
Proof. intros Hx Hy H. now apply leb_val. Qed.

(** The reported total, rounded to two decimals, is at most 940. *)
Lemma rounded_total_le (t : float) :
  Ffin t -> - (80) - 8 * delta <= Fval t <= 940 + 8 * delta ->
  PrimFloat.leb (round_to_precision t 2) 940 = true.
Proof.
  intros Hf Hb. unfold round_to_precision, PyFloat.py_round.
  destruct (Ffin_Fval_of_check 940 940 eq_refl) as [Hf9 E9].
  assert (Hd : delta == 1000 # 4503599627370496) by reflexivity.
  pose proof u52_pos as Hu.
  unfold Ffin, Fval in Hf, Hb.
  destruct (Prim2SF t) as [s | s | | s m e] eqn:Et; try contradiction.
  - apply leb_of_val; [unfold Ffin; rewrite Et; exact I | exact Hf9 |].
    unfold Fval. rewrite Et, E9. cbn [SFval]. lra.
  - pose proof (scaled_digits_near m e 2 ltac:(lia)) as Hk. cbv zeta in Hk.
    set (h := PyFloat.scaled_digits m e 2) in *.
    change (inject_Z (10 ^ 2)) with 100 in Hk.
    pose proof (B2Q_pos m e) as HB.
    rewrite SFval_finite in Hb.
    assert (Hh0 : (0 <= h)%Z).
    { assert (H : inject_Z (-1) < inject_Z h)
        by (change (inject_Z (-1)) with (- (1)); lra).
      rewrite <- Zlt_Qlt in H. lia. }
    destruct (Z.eq_dec h 0) as [Eh | Nh].
    { rewrite Eh. destruct s; vm_compute; reflexivity. }
    assert (Hhb : (h <= 94000)%Z).
    { assert (H : inject_Z h < inject_Z 94001).
      { change (inject_Z 94001) with 94001.
        destruct s; unfold signQ in Hb; rewrite Hd in Hb; lra. }
      rewrite <- Zlt_Qlt in H. lia. }
    cbv zeta. change (10 ^ 2)%Z with 100%Z.
    destruct (of_ratio_near h 100) as [Hp Hv];
      [lia | split; [lia | discriminate] | lia |].
    change (inject_Z 100) with 100 in Hv.
    destruct s.
    + destruct (opp_val _ (Fpos_fin _ Hp)) as [Hfo Evo].
      apply leb_of_val; [exact Hfo | exact Hf9 |].
      rewrite Evo, E9. pose proof (Fpos_val _ Hp). lra.
    + destruct (Z.eq_dec h 94000) as [E | N].
      * rewrite E. vm_compute. reflexivity.
      * apply leb_of_val; [apply Fpos_fin; exact Hp | exact Hf9 |].
        rewrite E9.
        assert (H : inject_Z h <= inject_Z 93999) by (rewrite <- Zle_Qle; lia).
        change (inject_Z 93999) with 93999 in H.
        unfold u52 in *. lra.
Qed.

(** C10: with the shipped table the total cost is at most 940 whatever the
    request, so the debt never exceeds the threshold of 1000: the flag is
    never set and the warning is always absent. *)
Theorem bankruptcy_unreachable (policy_inputs : dict PyVal)
  (r : CalculationResult.t) :
  calculate_impacts new_PolicyEngine policy_inputs = Ok r ->
  PrimFloat.leb (CalculationResult.total_cost r) 940 = true /\
  PrimFloat.ltb 940 BANKRUPTCY_THRESHOLD = true /\
  CalculationResult.bankruptcy_flag r = false /\
  CalculationResult.warning_message r = None.
Proof.
  intros H. apply calculate_impacts_Ok in H as [policies [st [H1 [H2 ->]]]].
  apply sanitize_inputs_valid in H1.
  destruct (policy_loop_total_cost policies H1) as [st' [H3 [Hf Hb]]].
  rewrite H2 in H3. injection H3 as <-.
  assert (Hflag : PrimFloat.ltb BANKRUPTCY_THRESHOLD (total_cost st) = false)
    by (apply below_threshold; [exact Hf | lra]).
  cbn [assemble CalculationResult.total_cost CalculationResult.bankruptcy_flag
       CalculationResult.warning_message].
  rewrite Hflag. split; [now apply rounded_total_le|].
  split; [reflexivity|]. split; reflexivity.
Qed.

Lemma bankruptcy_unreachable_witness :
  exists r,
    calculate_impacts new_PolicyEngine (levels 100 100 0 100 100 100 100 100)
      = Ok r /\
    PrimFloat.leb (CalculationResult.total_cost r) 940 = true /\
    CalculationResult.bankruptcy_flag r = false.
Proof.
  eexists. split; [vm_compute; reflexivity|].
  match goal with
  | |- PrimFloat.leb (CalculationResult.total_cost ?r) _ = true /\ _ =>
      destruct (bankruptcy_unreachable
                  (levels 100 100 0 100 100 100 100 100) r)
        as [H1 [_ [H2 _]]]; [vm_compute; reflexivity|]
  end.
  split; assumption.
Defined.

(** * The lists built by the policy loop *)

Local Open Scope Z_scope.

Definition breakdown_entry (pd : PolicyData) (l : Z) : BreakdownEntry.t :=
  {| BreakdownEntry.policy := label pd;
     BreakdownEntry.level := l;
     BreakdownEntry.cost := round_to_precision (lever_cost pd l) 2;
     BreakdownEntry.cost_formatted := format_currency (lever_cost pd l);
     BreakdownEntry.temperature_impact :=
       round_to_precision (lever_temp_impact pd l) 3;
     BreakdownEntry.temperature_formatted :=
       format_temperature (lever_temp_impact pd l) 3;
     BreakdownEntry.description := description pd |}.

Definition lever_efficiency (pd : PolicyData) (l : Z) : float :=
  calculate_efficiency_index (lever_temp_impact pd l) (lever_cost pd l).

Definition efficiency_entry (pd : PolicyData) (l : Z) : EfficiencyEntry.t :=
  {| EfficiencyEntry.policy := label pd;
     EfficiencyEntry.efficiency := lever_efficiency pd l;
     EfficiencyEntry.interpretation :=
       _interpret_efficiency (lever_efficiency pd l) |}.

(** The levers of a list that are switched on. *)
Definition active (items : list (string * PolicyData * Z))
  : list (string * PolicyData * Z) :=
  filter (fun x => negb (snd x =? 0)) items.

Lemma policy_step_lists (self : PolicyEngine) (st : Totals) (key : string)
  (pd : PolicyData) (l : Z) :
  dict_find (policy_costs self) key = Some pd ->
  exists st',
    policy_step self st (key, l) = Ok st' /\
    policy_breakdown st' =
      (policy_breakdown st ++
       map (fun x => breakdown_entry (snd (fst x)) (snd x))
           (active [(key, pd, l)]))%list /\
    efficiency_metrics st' =
      (efficiency_metrics st ++
       map (fun x => efficiency_entry (snd (fst x)) (snd x))
           (active [(key, pd, l)]))%list /\
    total_temp_mitigation st' =
      if l =? 0 then total_temp_mitigation st
      else (total_temp_mitigation st + lever_temp_impact pd l)%float.
Proof.
  intros Hf. unfold policy_step, dict_item, active.
  rewrite Hf. cbn [filter snd]. destruct (l =? 0); cbn [negb map bind].
  - exists st. rewrite !app_nil_r. repeat split; reflexivity.
  - eexists. split; [reflexivity|]. repeat split; reflexivity.
Qed.

Lemma active_cons (x : string * PolicyData * Z)
  (items : list (string * PolicyData * Z)) :
  active (x :: items) = (active [x] ++ active items)%list.
Proof.
  unfold active. cbn [filter]. destruct (negb (snd x =? 0)); reflexivity.
Qed.

Lemma policy_loop_lists (self : PolicyEngine)
  (items : list (string * PolicyData * Z)) :
  Forall (fun x => dict_find (policy_costs self) (fst (fst x))
                   = Some (snd (fst x))) items ->
  forall st st',
    for_each (policy_step self) (map lever_item items) st = Ok st' ->
    policy_breakdown st' =
      (policy_breakdown st ++
       map (fun x => breakdown_entry (snd (fst x)) (snd x)) (active items))%list
    /\
    efficiency_metrics st' =
      (efficiency_metrics st ++
       map (fun x => efficiency_entry (snd (fst x)) (snd x)) (active items))%list.
Proof.
  induction 1 as [| [[key pd] l] items Hx _ IH]; intros st st' Hloop.
  - cbn in Hloop. injection Hloop as <-. cbn. now rewrite !app_nil_r.
  - cbn [fst snd] in Hx. cbn [map lever_item for_each] in Hloop.
    destruct (policy_step_lists self st key pd l Hx) as [st1 [H1 [H2 [H3 _]]]].
    rewrite H1 in Hloop. cbn [bind] in Hloop.
    destruct (IH st1 st' Hloop) as [H4 H5].
    rewrite active_cons, !map_app. rewrite H4, H5, H2, H3, !app_assoc.
    split; reflexivity.
Qed.

(** A check made on every lever of a table and every level 1..100 holds for
    the levers paired with levels in range. *)
Lemma table_levels_forall (P : string -> PolicyData -> Z -> bool)
  (table : dict PolicyData) :
  forallb (fun kp => forallb (P (fst kp) (snd kp)) (Z_range 1 100)) table
    = true ->
  forall ls, Forall (fun l => 0 <= l <= 100) ls ->
    Forall (fun x => snd x <> 0 ->
                     P (fst (fst x)) (snd (fst x)) (snd x) = true)
           (combine table ls).
Proof.
  induction table as [| kp table IH]; intros H ls Hls.
  - apply Forall_nil.
  - destruct ls as [| l ls]; [apply Forall_nil|].
    cbn [forallb] in H. apply andb_prop in H as [H1 H2].
    inversion_clear Hls as [| ? ? Hl Hls'].
    cbn [combine]. apply Forall_cons; [|now apply IH].
    cbn [fst snd]. intros Hnz.
    now apply (Z_range_1_100 (P (fst kp) (snd kp)) H1 l Hl Hnz).
Qed.

Lemma active_Forall (P : string * PolicyData * Z -> Prop)
  (items : list (string * PolicyData * Z)) :
  Forall (fun x => snd x <> 0 -> P x) items -> Forall P (active items).
Proof.
  intros H. unfold active. apply Forall_forall. intros x Hin.
  apply filter_In in Hin as [Hin Hnz]. rewrite Forall_forall in H.
  apply H; [exact Hin|]. apply negb_true_iff in Hnz. now apply Z.eqb_neq.
Qed.

(** The label the table gives a lever. *)
Definition lever_label (key : string) : string :=
  match dict_find POLICY_COSTS key with
  | Some pd => label pd
  | None => ""
  end.

(** The levers of a sanitized request that are switched on. *)
Definition switched_on (policies : dict Z) : dict Z :=
  filter (fun kl => negb (snd kl =? 0)) policies.

Definition is_carbon_tax (key : string) : bool := String.eqb key "carbon_tax".

Lemma switched_on_levers (items : list (string * PolicyData * Z)) :
  switched_on (map lever_item items) = map lever_item (active items).
Proof.
  unfold switched_on, active.
  induction items as [| [[key pd] l] items IH]; [reflexivity|].
  cbn [map lever_item filter snd]. rewrite IH.
  destruct (negb (l =? 0)); reflexivity.
Qed.

Lemma levers_labels (ls : list Z) :
  Forall (fun x => lever_label (fst (fst x)) = label (snd (fst x)))
         (levers ls).
Proof.
  pose proof (levers_found ls) as H. induction H as [| x items Hx _ IH].
  - apply Forall_nil.
  - apply Forall_cons; [|exact IH].
    unfold lever_label. cbn [policy_costs new_PolicyEngine] in Hx.
    now rewrite Hx.
Qed.

(** Facts about what [calculate_impacts] returns, gathered once. *)
Lemma calculate_impacts_inv (policy_inputs : dict PyVal)
  (r : CalculationResult.t) :
  calculate_impacts new_PolicyEngine policy_inputs = Ok r ->
  exists ls st,
    List.length ls = 8%nat /\ Forall (fun l => 0 <= l <= 100) ls /\
    sanitize_inputs policy_inputs = Ok (map lever_item (levers ls)) /\
    policy_loop new_PolicyEngine (map lever_item (levers ls)) = Ok st /\
    r = assemble new_PolicyEngine (map lever_item (levers ls)) st.
Proof.
  intros H. apply calculate_impacts_Ok in H as [policies [st [H1 [H2 ->]]]].
  pose proof (sanitize_inputs_valid _ _ H1) as Hv.
  destruct (valid_levels_levers policies Hv) as [ls [Hlen [Hls ->]]].
  exists ls, st. repeat split; assumption.
Qed.

Lemma treemap_percentages_names (treemap : list TreemapEntry.t) :
  map TreemapEntry.name (treemap_percentages treemap)
    = map TreemapEntry.name treemap.
Proof.
  unfold treemap_percentages.
  destruct (PrimFloat.ltb 0 (py_sum (map TreemapEntry.value treemap)));
    [|reflexivity].
  rewrite map_map. reflexivity.
Qed.

Definition cost_sign_ok (key : string) (pd : PolicyData) (l : Z) : bool :=
  Bool.eqb (PrimFloat.ltb 0 (lever_cost pd l)) (negb (is_carbon_tax key)).

Lemma treemap_names (items : list (string * PolicyData * Z)) :
  Forall (fun x => snd x <> 0 ->
            cost_sign_ok (fst (fst x)) (snd (fst x)) (snd x) = true) items ->
  Forall (fun x => lever_label (fst (fst x)) = label (snd (fst x))) items ->
  map TreemapEntry.name
      (flat_map (fun x => lever_entries (snd (fst x)) (snd x)) items)
  = map (fun kl => lever_label (fst kl))
        (filter (fun kl => negb (is_carbon_tax (fst kl)))
                (switched_on (map lever_item items))).
Proof.
  intros H1 H2. induction items as [| [[key pd] l] items IH]; [reflexivity|].
  inversion_clear H1 as [| ? ? Hx H1']. inversion_clear H2 as [| ? ? Hy H2'].
  cbn [fst snd] in Hx, Hy.
  cbn [flat_map map lever_item fst snd]. rewrite map_app, (IH H1' H2').
  unfold switched_on at 2. cbn [filter snd]. fold (switched_on (map lever_item items)).
  unfold lever_entries. destruct (Z.eqb_spec l 0) as [E | N]; cbn [negb].
  - reflexivity.
  - specialize (Hx N). unfold cost_sign_ok in Hx. apply Bool.eqb_prop in Hx.
    rewrite Hx. cbn [filter fst].
    destruct (negb (is_carbon_tax key)); [|reflexivity].
    cbn [map app treemap_entry TreemapEntry.name fst]. now rewrite Hy.
Qed.

(** Every lever with a non-zero level has one breakdown entry and one
    efficiency entry, in the order of the table, and no other lever has
    any; the treemap has an entry for each of them but carbon_tax. *)
Theorem switched_on_levers_listed (policy_inputs : dict PyVal)
  (r : CalculationResult.t) :
  calculate_impacts new_PolicyEngine policy_inputs = Ok r ->
  let on := switched_on (CalculationResult.policies_applied r) in
  map (fun b => (BreakdownEntry.policy b, BreakdownEntry.level b))
      (CalculationResult.policy_breakdown r)
    = map (fun kl => (lever_label (fst kl), snd kl)) on /\
  map EfficiencyEntry.policy (CalculationResult.efficiency_index r)
    = map (fun kl => lever_label (fst kl)) on /\
  map TreemapEntry.name (CalculationResult.fiscal_treemap r)
    = map (fun kl => lever_label (fst kl))
          (filter (fun kl => negb (is_carbon_tax (fst kl))) on).
Proof.
  intros H. destruct (calculate_impacts_inv _ _ H)
    as [ls [st [Hlen [Hls [_ [Hloop ->]]]]]].
  cbv zeta.
  cbn [assemble CalculationResult.policies_applied
       CalculationResult.policy_breakdown CalculationResult.efficiency_index
       CalculationResult.fiscal_treemap].
  destruct (policy_loop_lists new_PolicyEngine (levers ls) (levers_found ls)
              initial_totals st Hloop) as [Hb He].
  destruct (policy_loop_levers new_PolicyEngine (levers ls) (levers_found ls)
              initial_totals) as [st' [Hloop' [_ Ht]]].
  unfold policy_loop in Hloop. rewrite Hloop in Hloop'. injection Hloop' as <-.
  cbn [initial_totals policy_breakdown efficiency_metrics fiscal_treemap app]
    in Hb, He, Ht.
  rewrite Hb, He, Ht, treemap_percentages_names, switched_on_levers.
  rewrite !map_map.
  pose proof (levers_labels ls) as Hlab.
  assert (Hlab' : Forall (fun x => lever_label (fst (fst x))
                                   = label (snd (fst x))) (active (levers ls))).
  { apply active_Forall. revert Hlab. apply Forall_impl. auto. }
  split; [|split].
  - apply map_ext_Forall. revert Hlab'. apply Forall_impl.
    intros [[key pd] l] Hx. cbn [fst snd] in *. cbn. now rewrite Hx.
  - apply map_ext_Forall. revert Hlab'. apply Forall_impl.
    intros [[key pd] l] Hx. cbn [fst snd] in *. cbn. now rewrite Hx.
  - rewrite <- switched_on_levers. apply treemap_names; [|exact Hlab].
    apply (table_levels_forall cost_sign_ok POLICY_COSTS); [|exact Hls].
    vm_compute. reflexivity.
Qed.

Lemma switched_on_levers_listed_witness :
  exists r,
    calculate_impacts new_PolicyEngine (levels 0 20 30 0 0 0 0 5) = Ok r /\
    map TreemapEntry.name (CalculationResult.fiscal_treemap r)
      = ["Renewable Energy Expansion"; "Waste Management & Recycling"].
Proof.
  eexists. split; [vm_compute; reflexivity|].
  match goal with
  | |- map _ (CalculationResult.fiscal_treemap ?r) = _ =>
      destruct (switched_on_levers_listed (levels 0 20 30 0 0 0 0 5) r)
        as [_ [_ H]]; [vm_compute; reflexivity|]
  end.
  rewrite H. vm_compute. reflexivity.
Defined.

(** The efficiency tier the shipped table gives a lever, whatever its
    level. *)
Definition lever_tier (policy : string) : string :=
  if String.eqb policy "Carbon Tax Implementation" then "Excellent"
  else if String.eqb policy "Renewable Energy Expansion" then "Moderate"
  else "Good".

Definition tier_ok (key : string) (pd : PolicyData) (l : Z) : bool :=
  String.eqb (_interpret_efficiency (lever_efficiency pd l))
             (lever_tier (label pd)).

(** The efficiency tier of an entry depends on the lever only: carbon tax is
    always "Excellent", renewable energy always "Moderate", every other
    lever always "Good"; no lever is ever rated "Poor". *)
Theorem efficiency_tier_by_lever (policy_inputs : dict PyVal)
  (r : CalculationResult.t) :
  calculate_impacts new_PolicyEngine policy_inputs = Ok r ->
  Forall (fun e => EfficiencyEntry.interpretation e
                   = lever_tier (EfficiencyEntry.policy e))
         (CalculationResult.efficiency_index r).
Proof.
  intros H. destruct (calculate_impacts_inv _ _ H)
    as [ls [st [Hlen [Hls [_ [Hloop ->]]]]]].
  cbn [assemble CalculationResult.efficiency_index].
  destruct (policy_loop_lists new_PolicyEngine (levers ls) (levers_found ls)
              initial_totals st Hloop) as [_ He].
  cbn [initial_totals efficiency_metrics app] in He. rewrite He.
  apply Forall_map. apply active_Forall.
  pose proof (table_levels_forall tier_ok POLICY_COSTS
                ltac:(vm_compute; reflexivity) ls Hls) as Ht.
  revert Ht. apply Forall_impl. intros [[key pd] l] Hx Hnz.
  cbn [fst snd] in *. specialize (Hx Hnz). unfold tier_ok in Hx.
  apply String.eqb_eq in Hx. exact Hx.
Qed.

Lemma efficiency_tier_by_lever_witness :
  exists r,
    calculate_impacts new_PolicyEngine (levels 1 100 1 0 0 0 0 37) = Ok r /\
    map EfficiencyEntry.interpretation (CalculationResult.efficiency_index r)
      = ["Good"; "Moderate"; "Excellent"; "Good"].
Proof.
  eexists. split; [vm_compute; reflexivity|].
  match goal with
  | |- map _ (CalculationResult.efficiency_index ?r) = _ =>
      pose proof (efficiency_tier_by_lever (levels 1 100 1 0 0 0 0 37) r
                    ltac:(vm_compute; reflexivity)) as H
  end.
  repeat match goal with
         | H : Forall _ (_ :: _) |- _ => inversion_clear H
         end.
  cbn [map]. repeat match goal with H : _ = lever_tier _ |- _ => rewrite H; clear H end.
  vm_compute. reflexivity.
Defined.

(** * Which requests are served *)

Lemma level_of_cases (policy_inputs : dict PyVal) (key : string) :
  (exists n, level_of policy_inputs key = Ok n) \/
  level_of policy_inputs key = Raise OverflowError.
Proof.
  unfold level_of.
  destruct (sanitize_slider_value_cases (dict_get policy_inputs key (VInt 0)))
    as [[n [Hn _]] | Hr]; [left; now exists n | now right].
Qed.

Lemma sanitize_inputs_cases (policy_inputs : dict PyVal) :
  (exists policies, sanitize_inputs policy_inputs = Ok policies) \/
  (sanitize_inputs policy_inputs = Raise OverflowError /\
   exists key, In key policy_keys /\
               level_of policy_inputs key = Raise OverflowError).
Proof.
  rewrite sanitize_inputs_eq.
  repeat match goal with
         | |- context [bind (level_of policy_inputs ?k) _] =>
             destruct (level_of_cases policy_inputs k) as [[? ->] | E];
             [ cbn [bind]
             | right; rewrite E; split;
               [reflexivity | exists k; split; [cbn; tauto | exact E]] ]
         end.
  left. eexists. reflexivity.
Qed.

(** With the shipped table [calculate_impacts] returns a result unless the
    sanitization of one of the eight levers overflows; it raises nothing
    but that [OverflowError]: no key is ever missing from the table. *)
Theorem calculate_impacts_served (policy_inputs : dict PyVal) :
  (exists r, calculate_impacts new_PolicyEngine policy_inputs = Ok r) \/
  (calculate_impacts new_PolicyEngine policy_inputs = Raise OverflowError /\
   exists key, In key policy_keys /\
     sanitize_slider_value (dict_get policy_inputs key (VInt 0))
       = Raise OverflowError).
Proof.
  unfold calculate_impacts.
  destruct (sanitize_inputs_cases policy_inputs) as [[policies Hs] | [Hs Hk]].
  - left. rewrite Hs. cbn [bind].
    destruct (policy_loop_total_cost policies (sanitize_inputs_valid _ _ Hs))
      as [st [Hloop _]].
    rewrite Hloop. cbn [bind]. eexists. reflexivity.
  - right. rewrite Hs. split; [reflexivity | exact Hk].
Qed.

Lemma dict_find_insert {A : Type} (before after : dict A) (k key : string)
  (v : A) :
  key <> k ->
  dict_find (before ++ (k, v) :: after)%list key
    = dict_find (before ++ after)%list key.
Proof.
  intros Hne. induction before as [| [k' v'] before IH]; cbn [app dict_find].
  - destruct (String.eqb_spec key k); [contradiction | reflexivity].
  - now rewrite IH.
Qed.

Lemma sanitize_loop_ext (inputs1 inputs2 : dict PyVal) (keys : list string) :
  (forall key, In key keys ->
     dict_get inputs1 key (VInt 0) = dict_get inputs2 key (VInt 0)) ->
  forall acc : dict Z,
    for_each
      (fun acc key =>
         v <- sanitize_slider_value (dict_get inputs1 key (VInt 0)) ;;
         Ok (acc ++ [(key, v)])%list) keys acc
    = for_each
        (fun acc key =>
           v <- sanitize_slider_value (dict_get inputs2 key (VInt 0)) ;;
           Ok (acc ++ [(key, v)])%list) keys acc.
Proof.
  induction keys as [| key keys IH]; intros H acc; [reflexivity|].
  cbn [for_each]. rewrite (H key (or_introl eq_refl)).
  destruct (sanitize_slider_value _); cbn [bind]; [|reflexivity].
  apply IH. intros key' Hin. apply H. now right.
Qed.

(** A key of the request that names no lever changes nothing, wherever it
    stands and whatever its value. *)
Theorem unknown_key_ignored (self : PolicyEngine)
  (before after : dict PyVal) (k : string) (v : PyVal) :
  ~ In k policy_keys ->
  calculate_impacts self (before ++ (k, v) :: after)%list
    = calculate_impacts self (before ++ after)%list.
Proof.
  intros Hk. apply calculate_impacts_sanitized.
  unfold sanitize_inputs.
  assert (H : forall key, In key policy_keys ->
            dict_get (before ++ (k, v) :: after)%list key (VInt 0)
              = dict_get (before ++ after)%list key (VInt 0)).
  { intros key Hin. unfold dict_get. rewrite dict_find_insert; [reflexivity|].
    intros ->. contradiction. }
  now apply sanitize_loop_ext.
Qed.

Lemma unknown_key_ignored_witness :
  calculate_impacts new_PolicyEngine
    [("ev_adoption", VInt 10); ("fiscal_cost", VStr "inf");
     ("carbon_tax", VInt 5)]
  = calculate_impacts new_PolicyEngine
      [("ev_adoption", VInt 10); ("carbon_tax", VInt 5)].
Proof.
  apply (unknown_key_ignored new_PolicyEngine [("ev_adoption", VInt 10)]
           [("carbon_tax", VInt 5)] "fiscal_cost" (VStr "inf")).
  cbn. intros H.
  repeat (destruct H as [H | H]; [discriminate H|]). exact H.
Defined.

Lemma to_int_overflow (x : float) :
  PyFloat.to_int x = Raise OverflowError -> PrimFloat.is_infinity x = true.
Proof.
  unfold PyFloat.to_int, PrimFloat.is_infinity. rewrite eqb_spec, abs_spec.
  destruct (Prim2SF x) as [s | s | | s m e]; try discriminate.
  intros _. reflexivity.
Qed.

Lemma to_int_infinity (x : float) :
  PrimFloat.is_infinity x = true -> PyFloat.to_int x = Raise OverflowError.
Proof.
  unfold PyFloat.to_int, PrimFloat.is_infinity. rewrite eqb_spec, abs_spec.
  destruct (Prim2SF x) as [s | s | | s m e]; cbn; try discriminate.
  intros _. reflexivity.
Qed.

(** [sanitize_slider_value] returns an integer of [0..100] or raises
    [OverflowError], and it raises exactly on the integers too large for a
    float and on the values [float] turns into an infinity. *)
Theorem sanitize_slider_value_outcome (v : PyVal) :
  ((exists n, sanitize_slider_value v = Ok n /\ (0 <= n <= 100)%Z) \/
   sanitize_slider_value v = Raise OverflowError) /\
  (sanitize_slider_value v = Raise OverflowError <->
   ((exists n, v = VInt n /\
               PrimFloat.is_infinity (PyFloat.of_Z n) = true) \/
    (exists x, py_float v = Ok x /\ PrimFloat.is_infinity x = true))).
Proof.
  split; [apply sanitize_slider_value_cases|]. split.
  - intros H. unfold sanitize_slider_value in H.
    destruct (py_float v) as [x | e] eqn:Ef; cbn [bind] in H.
    + right. exists x. split; [reflexivity|].
      apply to_int_overflow.
      destruct (PyFloat.to_int x) as [n | e] eqn:Ei; cbn [bind] in H;
        [discriminate|].
      destruct e; try discriminate; reflexivity.
    + left. destruct e; try discriminate.
      destruct v as [| b | n | y | s | |]; cbn [py_float] in Ef;
        try discriminate.
      * exists n. split; [reflexivity|].
        destruct (PrimFloat.is_infinity (PyFloat.of_Z n));
          [reflexivity|discriminate].
      * destruct (PyStr.parse_float s); discriminate.
  - intros [[n [-> Hn]] | [x [Ef Hx]]]; unfold sanitize_slider_value.
    + cbn [py_float]. rewrite Hn. reflexivity.
    + rewrite Ef. cbn [bind]. rewrite (to_int_infinity x Hx). reflexivity.
Qed.

(** * Rounding to decimals *)

Local Open Scope Q_scope.

Lemma of_ratio_val (N den : Z) :
  (0 <= N <= 2 ^ 29)%Z -> (1 <= den <= 1000)%Z ->
  Ffin (PyFloat.of_ratio N den) /\
  (1 - 3 * u52) * inject_Z N
    <= Fval (PyFloat.of_ratio N den) * inject_Z den
    <= (1 + 3 * u52) * inject_Z N.
Proof.
  intros HN Hd. destruct (Z.eq_dec N 0) as [-> | Hnz].
  - unfold PyFloat.of_ratio. cbn [Z.eqb].
    split; [exact I|]. change (Fval PrimFloat.zero) with 0.
    change (inject_Z 0) with 0. lra.
  - destruct (of_ratio_near N den) as [Hp Hv]; [lia | lia | nia |].
    split; [now apply Fpos_fin | exact Hv].
Qed.

Lemma inject_Z_pow10 (nd : Z) :
  (0 <= nd <= 3)%Z -> (1 <= 10 ^ nd <= 1000)%Z.
Proof.
  intros H.
  assert (C : nd = 0%Z \/ nd = 1%Z \/ nd = 2%Z \/ nd = 3%Z) by lia.
  destruct C as [-> | [-> | [-> | ->]]]; cbn; lia.
Qed.

(** Rounding keeps a value below a decimal bound it is below: if [t] is
    less than [(N + 1/2) / 10^nd], then [round(t, nd)] is at most the float
    nearest [N / 10^nd]. *)
Lemma py_round_upper (t : float) (nd N : Z) :
  Ffin t -> (0 <= nd <= 3)%Z -> (0 <= N <= 2 ^ 29)%Z ->
  inject_Z (10 ^ nd) * Fval t < inject_Z N + (1 # 2) ->
  - (524288) <= Fval t ->
  Ffin (PyFloat.py_round t nd) /\
  Fval (PyFloat.py_round t nd) <= Fval (PyFloat.of_ratio N (10 ^ nd)).
Proof.
  intros Hf Hnd HN Hup Hlo.
  pose proof (inject_Z_pow10 nd Hnd) as Hden.
  set (den := (10 ^ nd)%Z) in *.
  destruct (of_ratio_val N den HN Hden) as [HfB HvB].
  assert (HD : 1 <= inject_Z den <= 1000).
  { split; [change 1 with (inject_Z 1) | change 1000 with (inject_Z 1000)];
      rewrite <- Zle_Qle; lia. }
  assert (HN0 : 0 <= inject_Z N <= 536870912).
  { split; [change 0 with (inject_Z 0) | change 536870912 with (inject_Z (2 ^ 29))];
      rewrite <- Zle_Qle; lia. }
  assert (HB0 : 0 <= Fval (PyFloat.of_ratio N den)).
  { unfold u52 in HvB. nra. }
  unfold PyFloat.py_round. unfold Ffin, Fval in Hf, Hup, Hlo.
  destruct (Prim2SF t) as [s | s | | s m e] eqn:Et; try contradiction.
  - split; [unfold Ffin; rewrite Et; exact I|].
    unfold Fval at 1. rewrite Et. cbn [SFval]. exact HB0.
  - pose proof (scaled_digits_near m e nd ltac:(lia)) as Hk. cbv zeta in Hk.
    fold den in Hk. set (h := PyFloat.scaled_digits m e nd) in *.
    pose proof (B2Q_pos m e) as HB.
    rewrite SFval_finite in Hup, Hlo. cbv zeta. fold den. fold h.
    assert (Hh0 : (0 <= h)%Z).
    { assert (H : inject_Z (-1) < inject_Z h).
      { change (inject_Z (-1)) with (- (1)). nra. }
      rewrite <- Zlt_Qlt in H. lia. }
    assert (Hhb : (h <= 2 ^ 29)%Z).
    { assert (H : inject_Z h < inject_Z (2 ^ 29 + 1)).
      { change (inject_Z (2 ^ 29 + 1)) with 536870913.
        destruct s; unfold signQ in Hup, Hlo; nra. }
      rewrite <- Zlt_Qlt in H. lia. }
    destruct (of_ratio_val h den ltac:(lia) Hden) as [Hfr Hvr].
    assert (Hr0 : 0 <= Fval (PyFloat.of_ratio h den)).
    { assert (0 <= inject_Z h)
        by (change 0 with (inject_Z 0); rewrite <- Zle_Qle; lia).
      unfold u52 in Hvr. nra. }
    destruct s.
    + destruct (opp_val _ Hfr) as [Hfo Evo]. split; [exact Hfo|]. lra.
    + split; [exact Hfr|].
      assert (HhN : (h <= N)%Z).
      { assert (H : inject_Z h < inject_Z (N + 1)).
        { rewrite inject_Z_plus. change (inject_Z 1) with 1.
          unfold signQ in Hup. lra. }
        rewrite <- Zlt_Qlt in H. lia. }
      destruct (Z.eq_dec h N) as [E | Hne]; [rewrite E; lra|].
      assert (H : inject_Z h <= inject_Z N - 1).
      { assert (H' : inject_Z (h + 1) <= inject_Z N)
          by (rewrite <- Zle_Qle; lia).
        rewrite inject_Z_plus in H'. change (inject_Z 1) with 1 in H'. lra. }
      unfold u52 in *.
      assert (Hcmp : Fval (PyFloat.of_ratio h den) * inject_Z den
                     <= Fval (PyFloat.of_ratio N den) * inject_Z den) by nra.
      nra.
Qed.

Lemma opp_involutive (x : float) : (- - x)%float = x.
Proof.
  apply Prim2SF_inj. rewrite !opp_spec.
  destruct (Prim2SF x); cbn [SFopp]; rewrite ?Bool.negb_involutive; reflexivity.
Qed.

Lemma py_round_opp (x : float) (nd : Z) :
  PyFloat.py_round (- x) nd = (- PyFloat.py_round x nd)%float.
Proof.
  unfold PyFloat.py_round. rewrite opp_spec.
  destruct (Prim2SF x) as [s | s | | s m e]; cbn [SFopp]; try reflexivity.
  destruct s; cbn [negb]; [now rewrite opp_involutive | reflexivity].
Qed.

(** Rounding keeps a value above a decimal bound it is above. *)
Lemma py_round_lower (t : float) (nd N : Z) :
  Ffin t -> (0 <= nd <= 3)%Z -> (0 <= N <= 2 ^ 29)%Z ->
  - (inject_Z N + (1 # 2)) < inject_Z (10 ^ nd) * Fval t ->
  Fval t <= 524288 ->
  Ffin (PyFloat.py_round t nd) /\
  Fval (- PyFloat.of_ratio N (10 ^ nd)) <= Fval (PyFloat.py_round t nd).
Proof.
  intros Hf Hnd HN Hlo Hup.
  destruct (opp_val t Hf) as [Hfo Evo].
  destruct (py_round_upper (- t) nd N Hfo Hnd HN) as [Hfr Hvr]; [nra | lra |].
  rewrite py_round_opp in Hfr, Hvr.
  destruct (opp_val _ Hfr) as [Hfr' Evr]. rewrite opp_involutive in Hfr', Evr.
  destruct (of_ratio_val N (10 ^ nd) HN (inject_Z_pow10 nd Hnd)) as [HfB _].
  destruct (opp_val _ HfB) as [_ EvB].
  split; [exact Hfr'|]. lra.
Qed.

(** * Bounds on the temperature mitigation *)

Definition add_temp (t : float) (pd : PolicyData) (l : Z) : float :=
  if (l =? 0)%Z then t else (t + lever_temp_impact pd l)%float.

Lemma policy_loop_temp (self : PolicyEngine)
  (items : list (string * PolicyData * Z)) :
  Forall (fun x => dict_find (policy_costs self) (fst (fst x))
                   = Some (snd (fst x))) items ->
  forall st st',
    for_each (policy_step self) (map lever_item items) st = Ok st' ->
    total_temp_mitigation st' =
      fold_left (fun t x => add_temp t (snd (fst x)) (snd x)) items
        (total_temp_mitigation st).
Proof.
  induction 1 as [| [[key pd] l] items Hx _ IH]; intros st st' Hloop.
  - cbn in Hloop. injection Hloop as <-. reflexivity.
  - cbn [fst snd] in Hx. cbn [map lever_item for_each] in Hloop.
    destruct (policy_step_lists self st key pd l Hx) as [st1 [H1 [_ [_ H2]]]].
    rewrite H1 in Hloop. cbn [bind] in Hloop.
    rewrite (IH st1 st' Hloop). cbn [fold_left fst snd].
    unfold add_temp at 2. now rewrite H2.
Qed.

(** The range of each lever's temperature impact over the levels 1..100, in
    the order of the table: from the lever's maximum impact to zero. *)
Definition temp_ranges : list (Q * Q) :=
  [ (- (80001 # 1000000), 0); (- (120001 # 1000000), 0);
    (- (150001 # 1000000), 0); (- (50001 # 1000000), 0);
    (- (100001 # 1000000), 0); (- (130001 # 1000000), 0);
    (- (70001 # 1000000), 0); (- (60001 # 1000000), 0) ].

Definition temp_in_range (x : string * PolicyData * Z) (r : Q * Q) : Prop :=
  fst r <= 0 <= snd r /\
  (snd x <> 0%Z ->
   Ffin (lever_temp_impact (snd (fst x)) (snd x)) /\
   fst r <= Fval (lever_temp_impact (snd (fst x)) (snd x)) <= snd r).

Lemma lever_temp_ranges :
  Forall2 (fun kp r =>
             fst r <= 0 <= snd r /\
             forall l, (0 <= l <= 100)%Z -> l <> 0%Z ->
               Ffin (lever_temp_impact (snd kp) l) /\
               fst r <= Fval (lever_temp_impact (snd kp) l) <= snd r)
          POLICY_COSTS temp_ranges.
Proof.
  unfold POLICY_COSTS, temp_ranges.
  repeat (apply Forall2_cons;
          [ split;
            [ cbn [fst snd]; lra
            | intros l Hl Hnz; apply Fval_in_sound;
              match goal with
              | |- Fval_in (lever_temp_impact ?pd l) ?lo ?hi = true =>
                  apply (Z_range_1_100
                           (fun l => Fval_in (lever_temp_impact pd l) lo hi));
                  [vm_compute; reflexivity | exact Hl | exact Hnz]
              end ] |]).
  apply Forall2_nil.
Qed.

Lemma levers_temp_in_range (ls : list Z) :
  Forall (fun l => 0 <= l <= 100)%Z ls -> List.length ls = 8%nat ->
  Forall2 temp_in_range (levers ls) temp_ranges.
Proof.
  intros Hls Hlen. unfold levers.
  eapply Forall2_combine;
    [ | exact lever_temp_ranges | exact Hls | exact Hlen].
  intros kp l r [Hr Hk] Hl. split; [exact Hr|].
  cbn [fst snd]. intros Hnz. now apply Hk.
Qed.

Lemma temp_ranges_sign (items : list (string * PolicyData * Z))
  (ranges : list (Q * Q)) :
  Forall2 temp_in_range items ranges ->
  sum_lo ranges <= 0 <= sum_hi ranges.
Proof.
  induction 1 as [| x r items ranges [Hr _] _ IH]; cbn [sum_lo sum_hi fold_right].
  - lra.
  - fold (sum_lo ranges). fold (sum_hi ranges). lra.
Qed.

Lemma add_temp_bounds (items : list (string * PolicyData * Z))
  (ranges : list (Q * Q)) :
  Forall2 temp_in_range items ranges ->
  forall (t : float) (L U : Q),
    Ffin t -> L <= Fval t <= U ->
    - (999) <= L + sum_lo ranges - count ranges * delta ->
    U + sum_hi ranges + count ranges * delta <= 999 ->
    let t' := fold_left (fun t x => add_temp t (snd (fst x)) (snd x)) items t in
    Ffin t' /\
    L + sum_lo ranges - count ranges * delta <= Fval t'
      <= U + sum_hi ranges + count ranges * delta.
Proof.
  assert (Hd : 0 < delta) by reflexivity.
  induction 1 as [| x r items ranges Hx Hrest IH]; intros t L U Ht Hb HL HU.
  - cbn [fold_left sum_lo sum_hi fold_right] in *. unfold count in *.
    cbn [List.length Z.of_nat] in *. change (inject_Z 0) with 0 in *.
    split; [exact Ht|]. lra.
  - pose proof (temp_ranges_sign items ranges Hrest) as Hsign.
    pose proof (count_nonneg ranges) as Hc.
    pose proof (count_cons r ranges) as Ec.
    cbn [sum_lo sum_hi fold_right] in *.
    fold (sum_lo ranges) in *. fold (sum_hi ranges) in *.
    destruct Hx as [Hr Hx]. cbn [fold_left].
    set (t1 := add_temp t (snd (fst x)) (snd x)).
    assert (H1 : Ffin t1 /\ L + fst r - delta <= Fval t1 <= U + snd r + delta).
    { unfold t1, add_temp. destruct (Z.eqb_spec (snd x) 0) as [E | N].
      - split; [exact Ht | lra].
      - destruct (Hx N) as [Hfc Hbc].
        assert (Hs : - (1000)
                     <= Fval t + Fval (lever_temp_impact (snd (fst x)) (snd x))
                     <= 1000) by nra.
        destruct (add_near t (lever_temp_impact (snd (fst x)) (snd x)) Ht Hfc)
          as [Hf [Hn _]]; [unfold big; lra|].
        split; [exact Hf|].
        apply near_abs with (B := 1000) in Hn; [|exact Hs].
        fold delta in Hn. lra. }
    destruct H1 as [Hf1 Hb1].
    destruct (IH t1 (L + fst r - delta) (U + snd r + delta) Hf1 Hb1)
      as [Hf' Hb']; [nra | nra |].
    split; [exact Hf'|]. nra.
Qed.

(** On sanitized levels the accumulated mitigation lies between the sum of
    the maximum impacts and zero, up to eight rounding errors. *)
Lemma policy_loop_temp_mitigation (policies : dict Z) (st : Totals) :
  valid_levels policies ->
  policy_loop new_PolicyEngine policies = Ok st ->
  Ffin (total_temp_mitigation st) /\
  - (760009 # 1000000) <= Fval (total_temp_mitigation st) <= 1 # 1000000.
Proof.
  intros Hv Hloop.
  destruct (valid_levels_levers policies Hv) as [ls [Hlen [Hls ->]]].
  rewrite (policy_loop_temp new_PolicyEngine (levers ls) (levers_found ls)
             initial_totals st Hloop).
  pose proof (add_temp_bounds (levers ls) temp_ranges
                (levers_temp_in_range ls Hls Hlen)
                (total_temp_mitigation initial_totals) 0 0) as H.
  assert (Hd : delta == 1000 # 4503599627370496) by reflexivity.
  assert (Elo : sum_lo temp_ranges == - (760008 # 1000000)) by reflexivity.
  assert (Ehi : sum_hi temp_ranges == 0) by reflexivity.
  assert (Ec : count temp_ranges == 8) by reflexivity.
  destruct H as [Hf Hb].
  - exact I.
  - change (Fval (total_temp_mitigation initial_totals)) with (Fval 0).
    assert (E0 : Fval 0 == 0) by reflexivity. lra.
  - rewrite Elo, Ec, Hd. lra.
  - rewrite Ehi, Ec, Hd. lra.
  - split; [exact Hf|]. rewrite Elo, Ehi, Ec, Hd in Hb. lra.
Qed.

(** The reported temperature mitigation, rounded to three decimals, always
    lies between -0.76 (every lever at its maximum impact) and 0: no request
    makes the model warm the planet or cool it by more than 0.76 degrees. *)
Theorem temperature_mitigation_range (policy_inputs : dict PyVal)
  (r : CalculationResult.t) :
  calculate_impacts new_PolicyEngine policy_inputs = Ok r ->
  PrimFloat.leb (-0.76) (CalculationResult.temperature_mitigation r) = true /\
  PrimFloat.leb (CalculationResult.temperature_mitigation r) 0 = true.
Proof.
  intros H. apply calculate_impacts_Ok in H as [policies [st [H1 [H2 ->]]]].
  apply sanitize_inputs_valid in H1.
  destruct (policy_loop_temp_mitigation policies st H1 H2) as [Hf Hb].
  cbn [assemble CalculationResult.temperature_mitigation].
  unfold round_to_precision.
  destruct (py_round_lower (total_temp_mitigation st) 3 760 Hf)
    as [Hfr Hlo]; [lia | cbn; lia | | lra |].
  { change (inject_Z (10 ^ 3)) with 1000. change (inject_Z 760) with 760. lra. }
  destruct (py_round_upper (total_temp_mitigation st) 3 0 Hf)
    as [_ Hhi]; [lia | cbn; lia | | lra |].
  { change (inject_Z (10 ^ 3)) with 1000. change (inject_Z 0) with 0. lra. }
  split.
  - apply leb_of_val; [exact I | exact Hfr |].
    change (-0.76)%float with (- PyFloat.of_ratio 760 (10 ^ 3))%float.
    exact Hlo.
  - apply leb_of_val; [exact Hfr | exact I |].
    change 0%float with (PyFloat.of_ratio 0 (10 ^ 3)). exact Hhi.
Qed.

Lemma temperature_mitigation_range_witness :
  exists r,
    calculate_impacts new_PolicyEngine (levels 100 100 100 100 100 100 100 100)
      = Ok r /\
    PrimFloat.leb (-0.76) (CalculationResult.temperature_mitigation r) = true /\
    PrimFloat.leb (CalculationResult.temperature_mitigation r) 0 = true.
Proof.
  eexists. split; [vm_compute; reflexivity|].
  match goal with
  | |- PrimFloat.leb _ (CalculationResult.temperature_mitigation ?r) = true /\ _ =>
      exact (temperature_mitigation_range
               (levels 100 100 100 100 100 100 100 100) r
               ltac:(vm_compute; reflexivity))
  end.
Defined.

(** * The trend line *)

Local Open Scope Z_scope.

(** Multiplying by [1.0] is exact. *)
Lemma shr_exact_52 (m : positive) (e : Z) :
  shr (shr_record_of_loc (Zpos (m * 4503599627370496)) loc_Exact) (e - 52) 52
  = (shr_record_of_loc (Zpos m) loc_Exact, e).
Proof.
  rewrite Pos.mul_comm. cbn [Pos.mul].
  unfold shr. cbn [shr_record_of_loc].
  cbn [SpecFloat.iter_pos Pos.iter shr_1 orb]. f_equal. lia.
Qed.

Lemma SFmul_one (s : bool) (m : positive) (e : Z) :
  bounded prec emax m e = true ->
  SFmul prec emax (S754_finite s m e) (Prim2SF 1) = S754_finite s m e.
Proof.
  intros Hb. destruct (bounded_spec m e Hb) as [Hf He].
  change (Prim2SF 1) with (S754_finite false 4503599627370496 (-52)).
  cbn [SFmul]. rewrite Bool.xorb_false_r.
  unfold binary_round_aux.
  assert (Hd : digits (Zpos (m * 4503599627370496)) = digits (Zpos m) + 52).
  { apply digits_shift; [lia|]. rewrite Pos2Z.inj_mul. reflexivity. }
  assert (E1 : shr_fexp prec emax (Zpos (m * 4503599627370496)) (e + -52)
                 loc_Exact
               = (shr_record_of_loc (Zpos m) loc_Exact, e)).
  { unfold shr_fexp. fold (digits (Zpos (m * 4503599627370496))).
    rewrite Hd.
    replace (digits (Zpos m) + 52 + (e + -52)) with (digits (Zpos m) + e) by lia.
    rewrite Hf. replace (e - (e + -52)) with 52 by lia.
    replace (e + -52) with (e - 52) by lia. apply shr_exact_52. }
  rewrite E1. cbn [shr_record_of_loc shr_m loc_of_shr_record round_nearest_even].
  rewrite (shr_fexp_id (Zpos m) e loc_Exact) by lia.
  cbn [shr_record_of_loc shr_m].
  assert (Hle : (e <=? emax - prec) = true).
  { apply Z.leb_le. change (emax - prec) with 971. lia. }
  rewrite Hle. reflexivity.
Qed.

Lemma mul_1_r (x : float) : (x * 1)%float = x.
Proof.
  apply Prim2SF_inj. rewrite mul_spec.
  pose proof (Prim2SF_valid x) as Hv.
  destruct (Prim2SF x) as [s | s | | s m e] eqn:E.
  - change (Prim2SF 1) with (S754_finite false 4503599627370496 (-52)).
    cbn. now rewrite Bool.xorb_false_r.
  - change (Prim2SF 1) with (S754_finite false 4503599627370496 (-52)).
    cbn. now rewrite Bool.xorb_false_r.
  - reflexivity.
  - apply SFmul_one. exact Hv.
Qed.

(** A finite float times zero is a zero, and adding a zero to a nonzero
    finite float leaves it as it is. *)
Lemma mul_0_r (x : float) :
  Ffin x -> exists s, Prim2SF (x * 0) = S754_zero s.
Proof.
  unfold Ffin. rewrite mul_spec.
  change (Prim2SF 0) with (S754_zero false).
  destruct (Prim2SF x) as [s | s | | s m e]; try contradiction; intros _;
    eexists; reflexivity.
Qed.

Lemma add_zero_r (x z : float) (s : bool) :
  Fpos x -> Prim2SF z = S754_zero s -> (x + z)%float = x.
Proof.
  unfold Fpos. intros Hx Hz. apply Prim2SF_inj. rewrite add_spec, Hz.
  destruct (Prim2SF x) as [| | | [|] m e]; try contradiction. reflexivity.
Qed.

(** The share of the mitigation applied in a year, and the trend point the
    loop builds from a point of the projection. *)
Definition mitigation_factor (year : Z) : float :=
  PyFloat.py_min 1.0 (PyFloat.of_Z (year - 2026) / 9.0).

Definition trend_point (total_mitigation : float) (bau_point : YearPoint)
  : TrendPoint.t :=
  let adjusted_temp :=
    (anomaly bau_point
     + total_mitigation * mitigation_factor (year bau_point))%float in
  {| TrendPoint.year := year bau_point;
     TrendPoint.anomaly := round_to_precision adjusted_temp 3;
     TrendPoint.anomaly_formatted := format_temperature adjusted_temp 2;
     TrendPoint.bau_anomaly := round_to_precision (anomaly bau_point) 3;
     TrendPoint.mitigation_applied :=
       round_to_precision
         (total_mitigation * mitigation_factor (year bau_point))%float 3 |}.

Lemma _generate_trend_line_points (self : PolicyEngine)
  (total_mitigation : float) :
  _generate_trend_line self total_mitigation
  = map (trend_point total_mitigation) (bau_projection self).
Proof. reflexivity. Qed.

Lemma trend_point_start (m : float) (bau_point : YearPoint) :
  Ffin m -> Fpos (anomaly bau_point) -> year bau_point = 2026 ->
  let p := trend_point m bau_point in
  TrendPoint.anomaly p = TrendPoint.bau_anomaly p /\
  PrimFloat.eqb (TrendPoint.mitigation_applied p) 0 = true.
Proof.
  intros Hm Hb Hy. unfold trend_point. rewrite Hy.
  replace (mitigation_factor 2026) with 0%float by (vm_compute; reflexivity).
  cbn [TrendPoint.anomaly TrendPoint.bau_anomaly TrendPoint.mitigation_applied].
  destruct (mul_0_r m Hm) as [s Hz].
  rewrite (add_zero_r _ _ s Hb Hz). split; [reflexivity|].
  unfold round_to_precision, PyFloat.py_round. rewrite Hz.
  rewrite eqb_spec, Hz. destruct s; reflexivity.
Qed.

Lemma mitigation_factor_full :
  Forall (fun bau_point =>
            2035 <= year bau_point ->
            mitigation_factor (year bau_point) = 1%float)
         BAU_PROJECTION.
Proof.
  unfold BAU_PROJECTION.
  repeat (apply Forall_cons;
          [ cbn [year yp]; intros Hy;
            first [ exfalso; lia | vm_compute; reflexivity ] |]).
  apply Forall_nil.
Qed.

Lemma BAU_PROJECTION_positive :
  Forall (fun bau_point => Fpos (anomaly bau_point)) BAU_PROJECTION.
Proof.
  unfold BAU_PROJECTION.
  repeat (apply Forall_cons; [exact I|]). apply Forall_nil.
Qed.

(** The mitigation is phased in: the projection for 2026 is the
    business-as-usual one, with no mitigation applied, and from 2035 on every
    point applies the whole reported mitigation.  The line has one point a
    year from 2026 to 2050. *)
Theorem trend_line_ramp (policy_inputs : dict PyVal)
  (r : CalculationResult.t) :
  calculate_impacts new_PolicyEngine policy_inputs = Ok r ->
  map TrendPoint.year (CalculationResult.trend_line r) = Z_range 2026 25 /\
  Forall (fun p =>
            (TrendPoint.year p = 2026 ->
             TrendPoint.anomaly p = TrendPoint.bau_anomaly p /\
             PrimFloat.eqb (TrendPoint.mitigation_applied p) 0 = true) /\
            (2035 <= TrendPoint.year p ->
             TrendPoint.mitigation_applied p
             = CalculationResult.temperature_mitigation r))
         (CalculationResult.trend_line r).
Proof.
  intros H. apply calculate_impacts_Ok in H as [policies [st [H1 [H2 ->]]]].
  apply sanitize_inputs_valid in H1.
  destruct (policy_loop_temp_mitigation policies st H1 H2) as [Hf _].
  cbn [assemble CalculationResult.trend_line
       CalculationResult.temperature_mitigation].
  rewrite _generate_trend_line_points. cbn [bau_projection new_PolicyEngine].
  split; [rewrite map_map; reflexivity|].
  apply Forall_map.
  pose proof mitigation_factor_full as Hfull.
  pose proof BAU_PROJECTION_positive as Hpos.
  induction Hfull as [| bau_point rest Hx _ IH];
    [apply Forall_nil | apply Forall_cons].
  - inversion_clear Hpos as [| ? ? Hp _]. split.
    + intros Hy. now apply trend_point_start.
    + cbn [trend_point TrendPoint.year TrendPoint.mitigation_applied].
      intros Hy. rewrite (Hx Hy), mul_1_r. reflexivity.
  - inversion_clear Hpos as [| ? ? _ Hps]. now apply IH.
Qed.

Lemma trend_line_ramp_witness :
  exists r,
    calculate_impacts new_PolicyEngine (levels 40 0 25 0 100 0 0 7) = Ok r /\
    map TrendPoint.year (CalculationResult.trend_line r) = Z_range 2026 25.
Proof.
  eexists. split; [vm_compute; reflexivity|].
  match goal with
  | |- map _ (CalculationResult.trend_line ?r) = _ =>
      exact (proj1 (trend_line_ramp (levels 40 0 25 0 100 0 0 7) r
                      ltac:(vm_compute; reflexivity)))
  end.
Defined.

(** * Accuracy of the rounding *)

Local Open Scope Q_scope.

(** [round(t, nd)] is the float nearest [h / 10^nd] for an integer [h] within
    half a unit of [t * 10^nd]. *)
Lemma py_round_val (t : float) (nd : Z) :
  Ffin t -> (0 <= nd <= 3)%Z -> - (524288) <= Fval t <= 524288 ->
  exists h : Z,
    Ffin (PyFloat.py_round t nd) /\
    (- 2 ^ 29 <= h <= 2 ^ 29)%Z /\
    inject_Z h - (1 # 2) <= inject_Z (10 ^ nd) * Fval t
      <= inject_Z h + (1 # 2) /\
    (0 <= inject_Z h ->
     (1 - 3 * u52) * inject_Z h
       <= Fval (PyFloat.py_round t nd) * inject_Z (10 ^ nd)
       <= (1 + 3 * u52) * inject_Z h) /\
    (inject_Z h <= 0 ->
     (1 + 3 * u52) * inject_Z h
       <= Fval (PyFloat.py_round t nd) * inject_Z (10 ^ nd)
       <= (1 - 3 * u52) * inject_Z h).
Proof.
  intros Hf Hnd Hb.
  pose proof (inject_Z_pow10 nd Hnd) as Hden.
  set (den := (10 ^ nd)%Z) in *.
  assert (HD : 1 <= inject_Z den <= 1000).
  { split; [change 1 with (inject_Z 1) | change 1000 with (inject_Z 1000)];
      rewrite <- Zle_Qle; lia. }
  unfold PyFloat.py_round. unfold Ffin, Fval in Hf, Hb. unfold Ffin, Fval.
  destruct (Prim2SF t) as [s | s | | s m e] eqn:Et; try contradiction.
  - exists 0%Z. rewrite Et. cbn [SFval SFfin]. change (inject_Z 0) with 0.
    split; [exact I|]. split; [cbn; lia|]. unfold u52. repeat split; nra.
  - pose proof (scaled_digits_near m e nd ltac:(lia)) as Hk. cbv zeta in Hk.
    fold den in Hk. cbv zeta. fold den.
    set (k := PyFloat.scaled_digits m e nd) in *.
    pose proof (B2Q_pos m e) as HB.
    rewrite SFval_finite in Hb.
    assert (Hk0 : (0 <= k)%Z).
    { assert (H : inject_Z (-1) < inject_Z k).
      { change (inject_Z (-1)) with (- (1)). nra. }
      rewrite <- Zlt_Qlt in H. lia. }
    assert (Hkb : (k <= 2 ^ 29)%Z).
    { assert (H : inject_Z k < inject_Z (2 ^ 29 + 1)).
      { change (inject_Z (2 ^ 29 + 1)) with 536870913.
        destruct s; unfold signQ in Hb; nra. }
      rewrite <- Zlt_Qlt in H. lia. }
    assert (Hk0' : 0 <= inject_Z k)
      by (change 0 with (inject_Z 0); rewrite <- Zle_Qle; lia).
    destruct (of_ratio_val k den ltac:(lia) Hden) as [Hfr Hvr].
    fold (Ffin (PyFloat.of_ratio k den)) in Hfr.
    destruct s.
    + destruct (opp_val _ Hfr) as [Hfo Evo].
      exists (- k)%Z. split; [exact Hfo|]. split; [lia|].
      rewrite inject_Z_opp, (SFval_finite true m e). unfold signQ.
      fold (Fval (- PyFloat.of_ratio k den)). unfold u52 in *.
      assert (Eo : Fval (- PyFloat.of_ratio k den) * inject_Z den
                   == - (Fval (PyFloat.of_ratio k den) * inject_Z den))
        by (rewrite Evo; ring).
      split; [lra|]. split; intros Hs; lra.
    + exists k. split; [exact Hfr|]. split; [lia|].
      rewrite (SFval_finite false m e). unfold signQ.
      fold (Fval (PyFloat.of_ratio k den)). unfold u52 in *.
      split; [lra|]. split; intros Hs; lra.
Qed.

(** [round_to_precision] is accurate: for a value up to [2^19] in magnitude
    and up to three decimals, the result is finite and differs from the value
    by at most half a unit of the last decimal kept, plus the error of one
    float rounding. *)
Theorem round_to_precision_accuracy (value : float) (precision : Z) :
  Ffin value -> (0 <= precision <= 3)%Z ->
  - (524288) <= Fval value <= 524288 ->
  Ffin (round_to_precision value precision) /\
  - ((1 # 2) + (1 # 1000000))
    <= (Fval (round_to_precision value precision) - Fval value)
       * inject_Z (10 ^ precision)
    <= (1 # 2) + (1 # 1000000).
Proof.
  intros Hf Hp Hb. unfold round_to_precision.
  destruct (py_round_val value precision Hf Hp Hb)
    as [h [Hfr [Hh [Hk [Hpos Hneg]]]]].
  split; [exact Hfr|].
  assert (Hhb : - (536870912) <= inject_Z h <= 536870912).
  { split; [change (- (536870912)) with (inject_Z (- 2 ^ 29))
           | change 536870912 with (inject_Z (2 ^ 29))];
      rewrite <- Zle_Qle; lia. }
  unfold u52 in *.
  destruct (Qlt_le_dec (inject_Z h) 0) as [Hn | Hn].
  - specialize (Hneg ltac:(lra)). lra.
  - specialize (Hpos Hn). lra.
Qed.

Lemma round_to_precision_accuracy_witness :
  Ffin (round_to_precision 123.456 2) /\
  - ((1 # 2) + (1 # 1000000))
    <= (Fval (round_to_precision 123.456 2) - Fval 123.456) * inject_Z (10 ^ 2)
    <= (1 # 2) + (1 # 1000000).
Proof.
  apply (round_to_precision_accuracy 123.456 2).
  - exact I.
  - lia.
  - vm_compute. split; discriminate.
Defined.

(** [round_to_precision] is odd: a cost and the revenue of the same size
    round to opposite values, for every float and precision. *)
Theorem round_to_precision_opp (value : float) (precision : Z) :
  round_to_precision (- value) precision
  = (- round_to_precision value precision)%float.
Proof. unfold round_to_precision. apply py_round_opp. Qed.

(** [round_to_precision] is idempotent: a value already rounded to
    [precision] decimals is left as it is. *)
Theorem round_to_precision_idempotent (value : float) (precision : Z) :
  Ffin value -> (0 <= precision <= 3)%Z ->
  - (524288) <= Fval value <= 524288 ->
  round_to_precision (round_to_precision value precision) precision
  = round_to_precision value precision.
Proof.
  intros Hf Hnd Hb. unfold round_to_precision.
  pose proof (inject_Z_pow10 precision Hnd) as Hden.
  unfold PyFloat.py_round at 2 3. unfold Ffin, Fval in Hf, Hb.
  destruct (Prim2SF value) as [s | s | | s m e] eqn:Et; try contradiction.
  - unfold PyFloat.py_round. now rewrite Et.
  - cbv zeta. set (den := (10 ^ precision)%Z) in *.
    assert (HD : 1 <= inject_Z den <= 1000).
    { split; [change 1 with (inject_Z 1) | change 1000 with (inject_Z 1000)];
        rewrite <- Zle_Qle; lia. }
    pose proof (scaled_digits_near m e precision ltac:(lia)) as Hk.
    cbv zeta in Hk. fold den in Hk.
    set (k := PyFloat.scaled_digits m e precision) in *.
    pose proof (B2Q_pos m e) as HB.
    rewrite SFval_finite in Hb.
    assert (Hk0 : (0 <= k)%Z).
    { assert (H : inject_Z (-1) < inject_Z k).
      { change (inject_Z (-1)) with (- (1)). nra. }
      rewrite <- Zlt_Qlt in H. lia. }
    assert (Hkb : (k <= 2 ^ 29)%Z).
    { assert (H : inject_Z k < inject_Z (2 ^ 29 + 1)).
      { change (inject_Z (2 ^ 29 + 1)) with 536870913.
        destruct s; unfold signQ in Hb; nra. }
      rewrite <- Zlt_Qlt in H. lia. }
    destruct (Z.eq_dec k 0) as [Ek | Nk].
    + rewrite Ek. unfold PyFloat.of_ratio. cbn [Z.eqb].
      unfold PyFloat.py_round. destruct s.
      * rewrite opp_spec. reflexivity.
      * reflexivity.
    + destruct (of_ratio_near k den) as [Hp Hv]; [lia | lia | nia |].
      destruct (Fpos_inv _ Hp) as [m' [e' [Er [_ Ev]]]].
      assert (Es : Prim2SF (if s then (- PyFloat.of_ratio k den)%float
                            else PyFloat.of_ratio k den)
                   = S754_finite s m' e').
      { destruct s; [rewrite opp_spec, Er|rewrite Er]; reflexivity. }
      unfold PyFloat.py_round. rewrite Es. cbv zeta. fold den.
      pose proof (scaled_digits_near m' e' precision ltac:(lia)) as Hk'.
      cbv zeta in Hk'. fold den in Hk'.
      set (k' := PyFloat.scaled_digits m' e' precision) in *.
      assert (Hkq : 1 <= inject_Z k <= 536870912).
      { split; [change 1 with (inject_Z 1)
               | change 536870912 with (inject_Z (2 ^ 29))];
          rewrite <- Zle_Qle; lia. }
      assert (E : k' = k).
      { rewrite Ev in Hv. unfold u52 in Hv.
        assert (H1 : inject_Z (k + -1) < inject_Z k').
        { rewrite inject_Z_plus. change (inject_Z (-1)) with (- (1)). lra. }
        assert (H2 : inject_Z k' < inject_Z (k + 1)).
        { rewrite inject_Z_plus. change (inject_Z 1) with 1. lra. }
        rewrite <- Zlt_Qlt in H1, H2. lia. }
      rewrite E. reflexivity.
Qed.

Lemma round_to_precision_idempotent_witness :
  round_to_precision (round_to_precision 0.125 2) 2
  = round_to_precision 0.125 2.
Proof.
  apply (round_to_precision_idempotent 0.125 2).
  - exact I.
  - lia.
  - vm_compute. split; discriminate.
Defined.


(** * The treemap percentages *)

Local Open Scope Q_scope.

Definition Qsum (xs : list Q) : Q := fold_right Qplus 0 xs.

Definition Qlen {A : Type} (xs : list A) : Q :=
  inject_Z (Z.of_nat (List.length xs)).

(** A treemap value: a positive amount between 0.59 and 251. *)
Definition good_value (v : float) : Prop :=
  Ffin v /\ (59 # 100) <= Fval v <= 251.

(** The error one addition can add to a sum below 2048. *)
Definition eps : Q := u52 * 2048.

Lemma Qlen_cons {A : Type} (x : A) (xs : list A) :
  Qlen (x :: xs) == 1 + Qlen xs.
Proof.
  unfold Qlen. cbn [List.length]. rewrite Nat2Z.inj_succ.
  unfold Z.succ. rewrite inject_Z_plus. ring.
Qed.

Lemma Qlen_nonneg {A : Type} (xs : list A) : 0 <= Qlen xs.
Proof.
  unfold Qlen. change 0 with (inject_Z 0). rewrite <- Zle_Qle. lia.
Qed.

Lemma Qsum_good (vs : list float) :
  Forall good_value vs -> 0 <= Qsum (map Fval vs).
Proof.
  induction 1 as [| v vs [_ Hv] _ IH]; cbn [map Qsum fold_right]; [lra|].
  fold (Qsum (map Fval vs)). lra.
Qed.

Lemma py_sum_acc (vs : list float) :
  Forall good_value vs ->
  forall (t : float) (S0 k : Q),
    Ffin t -> 0 <= k -> 0 <= S0 ->
    S0 - k * eps <= Fval t <= S0 + k * eps ->
    S0 + Qsum (map Fval vs) + (k + Qlen vs) * eps <= 2048 ->
    let T := fold_left PrimFloat.add vs t in
    Ffin T /\
    S0 + Qsum (map Fval vs) - (k + Qlen vs) * eps <= Fval T
      <= S0 + Qsum (map Fval vs) + (k + Qlen vs) * eps.
Proof.
  assert (He : 0 < eps) by reflexivity.
  induction 1 as [| v vs Hv Hvs IH]; intros t S0 k Ht Hk HS Hb Hmax.
  - cbn [fold_left map Qsum fold_right] in *. unfold Qlen in *.
    cbn [List.length Z.of_nat] in *. change (inject_Z 0) with 0 in *.
    split; [exact Ht|]. lra.
  - pose proof (Qsum_good vs Hvs) as Hpos.
    pose proof (Qlen_nonneg vs) as Hl.
    pose proof (Qlen_cons v vs) as El.
    cbn [map Qsum fold_right] in *. fold (Qsum (map Fval vs)) in *.
    destruct Hv as [Hfv Hbv]. cbn [fold_left].
    assert (Hke : 0 <= k * eps) by nra.
    assert (Hle : 0 <= Qlen vs * eps) by nra.
    assert (Hmax' : S0 + (Fval v + Qsum (map Fval vs))
                    + (k * eps + (1 + Qlen vs) * eps) <= 2048).
    { rewrite El in Hmax. lra. }
    destruct (add_near t v Ht Hfv) as [Hf [Hn _]]; [unfold big; lra|].
    apply near_abs with (B := 2048) in Hn; [|lra]. fold eps in Hn.
    destruct (IH (t + v)%float (S0 + Fval v) (k + 1) Hf) as [Hf' Hb'];
      [lra | lra | lra | lra |].
    split; [exact Hf'|]. rewrite El. lra.
Qed.

Lemma py_sum_bounds (vs : list float) :
  Forall good_value vs -> vs <> [] -> Qlen vs <= 7 ->
  Fpos (py_sum vs) /\
  Qsum (map Fval vs) - 7 * eps <= Fval (py_sum vs)
    <= Qsum (map Fval vs) + 7 * eps /\
  (1 # 2) <= Fval (py_sum vs) <= 2048.
Proof.
  intros Hvs Hne Hlen.
  assert (He : eps == 2048 # 4503599627370496) by reflexivity.
  pose proof (Qlen_nonneg vs) as Hl.
  assert (Hsum : (59 # 100) <= Qsum (map Fval vs) <= 251 * Qlen vs).
  { clear Hlen Hl. destruct Hvs as [| v vs [_ Hv] Hvs]; [congruence|].
    pose proof (Qlen_cons v vs) as El. pose proof (Qlen_nonneg vs) as Hl.
    cbn [map Qsum fold_right]. fold (Qsum (map Fval vs)).
    rewrite El. clear Hne El.
    assert (H : 0 <= Qsum (map Fval vs) <= 251 * Qlen vs).
    { induction Hvs as [| w ws [_ Hw] _ IH].
      - unfold Qlen. cbn [map Qsum fold_right List.length Z.of_nat].
        change (inject_Z 0) with 0. lra.
      - pose proof (Qlen_cons w ws) as El. pose proof (Qlen_nonneg ws) as Hl'.
        cbn [map Qsum fold_right]. fold (Qsum (map Fval ws)).
        rewrite El. specialize (IH Hl'). lra. }
    lra. }
  assert (Hle : 0 <= Qlen vs * eps <= 7 * eps) by (rewrite He; nra).
  destruct (py_sum_acc vs Hvs 0%float 0 0) as [Hf Hb];
    [exact I | lra | lra | change (Fval 0) with 0; lra | rewrite He in *; lra |].
  fold (py_sum vs) in Hf, Hb.
  assert (Hv : (1 # 2) <= Fval (py_sum vs) <= 2048) by (rewrite He in *; lra).
  split; [|split; [lra | exact Hv]].
  apply SFval_pos_finite. fold (Fval (py_sum vs)). lra.
Qed.

(** One entry's percentage: the scaled share [p], its tenths [h] and the
    reported float. *)
Definition percentage_of (v total : float) : float :=
  round_to_precision (v / total * 100)%float 1.

Lemma percentage_of_spec (v T : float) :
  good_value v -> Fpos T -> (1 # 2) <= Fval T <= 2048 ->
  exists (p : Q) (h : Z),
    (1 - 3 * u52) * (1000 * Fval v) <= 10 * p * Fval T
      <= (1 + 3 * u52) * (1000 * Fval v) /\
    inject_Z h - (1 # 2) <= 10 * p <= inject_Z h + (1 # 2) /\
    (0 <= h)%Z /\
    Ffin (percentage_of v T) /\
    (1 - 3 * u52) * inject_Z h <= 10 * Fval (percentage_of v T)
      <= (1 + 3 * u52) * inject_Z h.
Proof.
  intros [Hfv Hbv] HT HbT.
  assert (Hpv : Fpos v).
  { apply SFval_pos_finite. fold (Fval v). lra. }
  destruct (div_pos v T Hpv HT) as [Hpq Hq];
    [unfold small, big; lra | unfold small, big; lra |].
  set (q := (v / T)%float) in *.
  pose proof (Fpos_val q Hpq) as Hq0.
  assert (Hq1 : Fval q <= 503).
  { unfold u52 in Hq. nra. }
  assert (Hq2 : (1 # 4096) <= Fval q).
  { unfold u52 in Hq.
    assert (Fval q * Fval T <= Fval q * 2048) by nra. lra. }
  destruct (Ffin_Fval_of_check 100 100 eq_refl) as [_ E100].
  assert (Hp100 : Fpos 100) by exact I.
  destruct (mul_pos q 100 Hpq Hp100) as [Hpp Hp];
    [unfold small, big; lra | rewrite E100; unfold small, big; lra |].
  rewrite E100 in Hp.
  set (p := (q * 100)%float) in *.
  destruct (py_round_val p 1 (Fpos_fin p Hpp)) as [h [Hfr [Hh [Hk [Hpos _]]]]];
    [lia | unfold u52 in Hp; lra |].
  change (inject_Z (10 ^ 1)) with 10 in Hk, Hpos.
  pose proof (Fpos_val p Hpp) as Hp0.
  assert (Hh0 : (0 <= h)%Z).
  { assert (H : inject_Z (-1) < inject_Z h).
    { change (inject_Z (-1)) with (- (1)). lra. }
    rewrite <- Zlt_Qlt in H. lia. }
  assert (Hh0' : 0 <= inject_Z h)
    by (change 0 with (inject_Z 0); rewrite <- Zle_Qle; lia).
  specialize (Hpos Hh0').
  exists (Fval p), h. unfold percentage_of, round_to_precision. fold q p.
  split.
  { unfold u52 in *.
    assert (H1 : (1 - (1 # 4503599627370496)) * (Fval q * Fval T) * 100
                 <= Fval p * Fval T) by nra.
    assert (H2 : Fval p * Fval T
                 <= (1 + (1 # 4503599627370496)) * (Fval q * Fval T) * 100)
      by nra.
    split; nra. }
  split; [lra|]. split; [exact Hh0|]. split; [exact Hfr|]. lra.
Qed.

Lemma percentages_sum_spec (vs : list float) (T : float) :
  Forall good_value vs -> Fpos T -> (1 # 2) <= Fval T <= 2048 ->
  exists (P : Q) (H : Z),
    (1 - 3 * u52) * (1000 * Qsum (map Fval vs)) <= 10 * P * Fval T
      <= (1 + 3 * u52) * (1000 * Qsum (map Fval vs)) /\
    inject_Z H - Qlen vs * (1 # 2) <= 10 * P
      <= inject_Z H + Qlen vs * (1 # 2) /\
    (0 <= H)%Z /\
    Forall Ffin (map (fun v => percentage_of v T) vs) /\
    (1 - 3 * u52) * inject_Z H
      <= 10 * Qsum (map Fval (map (fun v => percentage_of v T) vs))
      <= (1 + 3 * u52) * inject_Z H.
Proof.
  intros Hvs HT HbT. induction Hvs as [| v vs Hv _ IH].
  - exists 0, 0%Z. cbn [map Qsum fold_right]. unfold Qlen.
    cbn [List.length Z.of_nat]. change (inject_Z 0) with 0.
    split; [lra|]. split; [lra|]. split; [lia|]. split; [apply Forall_nil|].
    lra.
  - destruct IH as [P [H [H1 [H2 [H3 [H4 H5]]]]]].
    destruct (percentage_of_spec v T Hv HT HbT) as [p [h [K1 [K2 [K3 [K4 K5]]]]]].
    pose proof (Qlen_cons v vs) as El.
    exists (p + P), (h + H)%Z. cbn [map Qsum fold_right].
    fold (Qsum (map Fval vs)).
    fold (Qsum (map Fval (map (fun v => percentage_of v T) vs))).
    rewrite inject_Z_plus, El.
    assert (E : 10 * (p + P) * Fval T == 10 * p * Fval T + 10 * P * Fval T)
      by ring.
    split; [rewrite E; lra|]. split; [lra|]. split; [lia|].
    split; [apply Forall_cons; assumption|]. lra.
Qed.

(** The percentages of a treemap with one to seven good values add up to
    100 within 0.3. *)
Lemma percentages_total (vs : list float) :
  Forall good_value vs -> vs <> [] -> Qlen vs <= 7 ->
  let ps := map (fun v => percentage_of v (py_sum vs)) vs in
  Forall Ffin ps /\
  (997 # 10) - (1 # 1000000000) <= Qsum (map Fval ps)
    <= (1003 # 10) + (1 # 1000000000).
Proof.
  intros Hvs Hne Hlen.
  destruct (py_sum_bounds vs Hvs Hne Hlen) as [HT [HS HbT]].
  destruct (percentages_sum_spec vs (py_sum vs) Hvs HT HbT)
    as [P [H [H1 [H2 [H3 [H4 H5]]]]]].
  cbv zeta. split; [exact H4|].
  pose proof (Qlen_nonneg vs) as Hl.
  assert (He : eps == 2048 # 4503599627370496) by reflexivity.
  set (T := Fval (py_sum vs)) in *. set (S := Qsum (map Fval vs)) in *.
  unfold u52 in *. rewrite He in HS.
  assert (Hhi : 10 * P * T <= (1000 + (1 # 1000000)) * T) by lra.
  assert (Hlo : (1000 - (1 # 1000000)) * T <= 10 * P * T) by lra.
  assert (HP : 1000 - (1 # 1000000) <= 10 * P <= 1000 + (1 # 1000000)).
  { split; nra. }
  assert (HH : (997 <= H <= 1003)%Z).
  { assert (Ha : inject_Z 996 < inject_Z H).
    { change (inject_Z 996) with 996. lra. }
    assert (Hb : inject_Z H < inject_Z 1004).
    { change (inject_Z 1004) with 1004. lra. }
    rewrite <- Zlt_Qlt in Ha, Hb. lia. }
  assert (HHq : 997 <= inject_Z H <= 1003).
  { split; [change 997 with (inject_Z 997) | change 1003 with (inject_Z 1003)];
      rewrite <- Zle_Qle; lia. }
  lra.
Qed.

Local Open Scope Z_scope.

(** What the loop puts in the treemap for a lever: nothing, or one entry
    with a good value; nothing for carbon_tax. *)
Definition entry_value_ok (key : string) (pd : PolicyData) (l : Z) : bool :=
  match lever_entries pd l with
  | [] => true
  | [e] => negb (is_carbon_tax key)
           && Fval_in (TreemapEntry.value e) (59 # 100) 251
  | _ => false
  end.

Lemma treemap_values (items : list (string * PolicyData * Z)) :
  Forall (fun x => snd x <> 0 ->
            entry_value_ok (fst (fst x)) (snd (fst x)) (snd x) = true) items ->
  let tm := flat_map (fun x => lever_entries (snd (fst x)) (snd x)) items in
  Forall good_value (map TreemapEntry.value tm) /\
  (List.length tm
   <= List.length (filter (fun x => negb (is_carbon_tax (fst (fst x)))) items))%nat.
Proof.
  induction 1 as [| [[key pd] l] items Hx _ [IH1 IH2]]; cbv zeta.
  - split; [apply Forall_nil | apply Nat.le_refl].
  - cbn [fst snd] in Hx. cbn [flat_map fst snd filter].
    rewrite map_app, length_app. unfold entry_value_ok in Hx.
    destruct (Z.eq_dec l 0) as [-> | N].
    + change (lever_entries pd 0) with (@nil TreemapEntry.t).
      cbn [app map List.length Nat.add].
      split; [exact IH1|].
      destruct (negb (is_carbon_tax key)); cbn [List.length]; lia.
    + specialize (Hx N).
      destruct (lever_entries pd l) as [| e [| e' rest]]; [| |discriminate].
      * cbn [app map List.length Nat.add]. split; [exact IH1|].
        destruct (negb (is_carbon_tax key)); cbn [List.length]; lia.
      * apply andb_prop in Hx as [Hc Hv]. rewrite Hc.
        apply Fval_in_sound in Hv.
        cbn [app map List.length Nat.add]. split; [|lia].
        apply Forall_cons; [exact Hv | exact IH1].
Qed.

Lemma levers_without_carbon_tax (ls : list Z) :
  (List.length
     (filter (fun x => negb (is_carbon_tax (fst (fst x)))) (levers ls))
   <= 7)%nat.
Proof.
  unfold levers, POLICY_COSTS.
  do 8 (destruct ls as [| ? ls]; [cbn; lia|]). cbn. lia.
Qed.

Lemma treemap_percentages_values (treemap : list TreemapEntry.t) :
  PrimFloat.ltb 0 (py_sum (map TreemapEntry.value treemap)) = true ->
  map TreemapEntry.percentage (treemap_percentages treemap)
  = map (fun v => percentage_of v (py_sum (map TreemapEntry.value treemap)))
        (map TreemapEntry.value treemap).
Proof.
  intros H. unfold treemap_percentages. rewrite H, !map_map. reflexivity.
Qed.

Local Open Scope Q_scope.

(** The exact values of the percentages of a treemap add up to 100 within
    0.3 + 1e-9: each of the at most seven entries is rounded to one decimal,
    so each is off by at most 0.05, and 1e-9 covers the distance between the
    floats and the one-decimal numbers they stand for. *)
Theorem treemap_percentages_sum (policy_inputs : dict PyVal)
  (r : CalculationResult.t) :
  calculate_impacts new_PolicyEngine policy_inputs = Ok r ->
  let ps := map TreemapEntry.percentage (CalculationResult.fiscal_treemap r) in
  ps <> [] ->
  Forall Ffin ps /\
  (997 # 10) - (1 # 1000000000) <= Qsum (map Fval ps)
    <= (1003 # 10) + (1 # 1000000000).
Proof.
  intros H. destruct (calculate_impacts_inv _ _ H)
    as [ls [st [Hlen [Hls [_ [Hloop ->]]]]]].
  destruct (policy_loop_levers new_PolicyEngine (levers ls) (levers_found ls)
              initial_totals) as [st' [Hloop' [_ Htm]]].
  unfold policy_loop in Hloop. rewrite Hloop in Hloop'. injection Hloop' as <-.
  cbn [fiscal_treemap initial_totals app] in Htm.
  cbn [assemble CalculationResult.fiscal_treemap]. rewrite Htm.
  assert (Hok : Forall (fun x => snd x <> 0%Z ->
                          entry_value_ok (fst (fst x)) (snd (fst x)) (snd x)
                          = true) (levers ls)).
  { apply (table_levels_forall entry_value_ok POLICY_COSTS);
      [vm_compute; reflexivity | exact Hls]. }
  destruct (treemap_values (levers ls) Hok) as [Hgood Hcount].
  pose proof (levers_without_carbon_tax ls) as H7.
  set (tm := flat_map (fun x => lever_entries (snd (fst x)) (snd x))
               (levers ls)) in *.
  cbv zeta. intros Hne.
  assert (Hvs : map TreemapEntry.value tm <> []).
  { intros E. apply Hne. destruct tm; [reflexivity | discriminate]. }
  assert (Hl : Qlen (map TreemapEntry.value tm) <= 7).
  { unfold Qlen. rewrite length_map. change 7 with (inject_Z 7).
    rewrite <- Zle_Qle. lia. }
  destruct (py_sum_bounds _ Hgood Hvs Hl) as [HT _].
  assert (Hlt : PrimFloat.ltb 0 (py_sum (map TreemapEntry.value tm)) = true).
  { apply ltb_val; [exact I | now apply Fpos_fin |].
    change (Fval 0) with 0. now apply Fpos_val. }
  rewrite (treemap_percentages_values tm Hlt).
  exact (percentages_total _ Hgood Hvs Hl).
Qed.

Lemma treemap_percentages_sum_witness :
  exists r,
    calculate_impacts new_PolicyEngine (levels 94 68 0 31 55 40 99 86) = Ok r /\
    let ps := map TreemapEntry.percentage (CalculationResult.fiscal_treemap r) in
    (Forall Ffin ps /\
     (997 # 10) - (1 # 1000000000) <= Qsum (map Fval ps)
       <= (1003 # 10) + (1 # 1000000000)) /\
    (1002 # 10) < Qsum (map Fval ps).
Proof.
  eexists. split; [vm_compute; reflexivity|].
  match goal with
  | |- let ps := map _ (CalculationResult.fiscal_treemap ?r) in _ =>
      split;
      [ exact (treemap_percentages_sum (levels 94 68 0 31 55 40 99 86) r
                 ltac:(vm_compute; reflexivity)
                 ltac:(vm_compute; discriminate))
      | vm_compute; reflexivity ]
  end.
Defined.

Local Open Scope Z_scope.


(** * Signs in the formatters *)

Lemma abs_opp (x : float) : PrimFloat.abs (- x) = PrimFloat.abs x.
Proof.
  apply Prim2SF_inj. rewrite !abs_spec, opp_spec.
  destruct (Prim2SF x); reflexivity.
Qed.

Lemma positive_sign (x : float) :
  PrimFloat.ltb 0 x = true ->
  PrimFloat.ltb x 0 = false /\ PrimFloat.ltb (- x) 0 = true.
Proof.
  rewrite !ltb_spec, opp_spec. change (Prim2SF 0) with (S754_zero false).
  destruct (Prim2SF x) as [s | s | | s m e]; cbn; try discriminate;
    destruct s; cbn; try discriminate; intros _; split; reflexivity.
Qed.

(** A revenue is formatted as the cost of the same size with a minus sign in
    front: the unit and the digits are those of the absolute value. *)
Theorem format_currency_opp (value : float) :
  PrimFloat.ltb 0 value = true ->
  format_currency (- value) = ("-" ++ format_currency value)%string.
Proof.
  intros H. destruct (positive_sign value H) as [H1 H2].
  unfold format_currency. rewrite abs_opp, H1, H2. reflexivity.
Qed.

Lemma format_currency_opp_witness :
  format_currency (- 80) = ("-" ++ format_currency 80)%string.
Proof. apply (format_currency_opp 80). reflexivity. Defined.

(** * Feeding the sanitized levels back *)

Definition as_request (policies : dict Z) : dict PyVal :=
  map (fun kl => (fst kl, VInt (snd kl))) policies.

(** The [policies_applied] of a result are a request of their own: sent back
    to the engine they give the same result, so sanitizing is idempotent. *)
Theorem policies_applied_round_trip (self : PolicyEngine)
  (policy_inputs : dict PyVal) (r : CalculationResult.t) :
  calculate_impacts self policy_inputs = Ok r ->
  calculate_impacts self (as_request (CalculationResult.policies_applied r))
  = Ok r.
Proof.
  intros H. rewrite <- H.
  apply calculate_impacts_Ok in H as [policies [st [H1 [H2 ->]]]].
  cbn [assemble CalculationResult.policies_applied].
  apply calculate_impacts_sanitized. rewrite H1.
  destruct (sanitize_inputs_valid _ _ H1)
    as [l1 [l2 [l3 [l4 [l5 [l6 [l7 [l8 [-> Hl]]]]]]]]].
  exact (sanitize_inputs_levels l1 l2 l3 l4 l5 l6 l7 l8 Hl).
Qed.

Lemma policies_applied_round_trip_witness :
  exists r,
    calculate_impacts new_PolicyEngine
      [("ev_adoption", VStr "42.7"); ("carbon_tax", VInt 250);
       ("reforestation", VFloat (-3.5)); ("waste_management", VNone)] = Ok r /\
    calculate_impacts new_PolicyEngine
      (as_request (CalculationResult.policies_applied r)) = Ok r.
Proof.
  eexists. split; [vm_compute; reflexivity|].
  match goal with
  | |- calculate_impacts _ (as_request (CalculationResult.policies_applied ?r))
       = _ =>
      exact (policies_applied_round_trip new_PolicyEngine
               [("ev_adoption", VStr "42.7"); ("carbon_tax", VInt 250);
                ("reforestation", VFloat (-3.5)); ("waste_management", VNone)]
               r ltac:(vm_compute; reflexivity))
  end.
Defined.


(** * The trend line stays below business as usual *)

Local Open Scope Q_scope.

(** The sign of a product follows the signs of the factors. *)
Lemma binary_round_aux_opp (s : bool) (m e : Z) (l : location) :
  binary_round_aux prec emax (negb s) m e l
  = SFopp (binary_round_aux prec emax s m e l).
Proof.
  unfold binary_round_aux.
  destruct (shr_fexp prec emax m e l) as [mrs' e'].
  destruct (shr_fexp prec emax _ e' loc_Exact) as [mrs'' e''].
  destruct (shr_m mrs''); [reflexivity | | reflexivity].
  destruct (e'' <=? emax - prec)%Z; reflexivity.
Qed.

Lemma mul_opp_l (x y : float) : (- x * y)%float = (- (x * y))%float.
Proof.
  apply Prim2SF_inj. rewrite opp_spec, !mul_spec, opp_spec. unfold SF64mul.
  destruct (Prim2SF x) as [sx | sx | | sx mx ex];
    destruct (Prim2SF y) as [sy | sy | | sy my ey];
    cbn [SFopp SFmul]; try reflexivity;
    try (destruct sx, sy; reflexivity).
  rewrite <- binary_round_aux_opp. destruct sx, sy; reflexivity.
Qed.

Lemma mul_0_l (y : float) :
  Ffin y -> exists s, Prim2SF (0 * y) = S754_zero s.
Proof.
  unfold Ffin. rewrite mul_spec.
  change (Prim2SF 0) with (S754_zero false).
  destruct (Prim2SF y) as [s | s | | s m e]; try contradiction; intros _;
    eexists; reflexivity.
Qed.

Lemma zero_val (x : float) (s : bool) :
  Prim2SF x = S754_zero s -> Ffin x /\ Fval x == 0.
Proof.
  intros E. unfold Ffin, Fval. rewrite E. split; [exact I | reflexivity].
Qed.

(** A mitigation that is zero or negative, times a factor that is zero or
    between 0.1 and 1, is between the mitigation and zero. *)
Lemma mitigation_share (m f : float) :
  m = 0%float \/ (Ffin m /\ - (760009 # 1000000) <= Fval m <= - (4 # 10000)) ->
  f = 0%float \/ (Fpos f /\ (1 # 10) <= Fval f <= 1) ->
  Ffin (m * f) /\ - (76001 # 100000) <= Fval (m * f) <= 0.
Proof.
  intros Hm Hf.
  assert (Hff : Ffin f).
  { destruct Hf as [-> | [Hf _]]; [exact I | now apply Fpos_fin]. }
  destruct Hm as [-> | [Hfm Hbm]].
  { destruct (mul_0_l f Hff) as [s Hz].
    destruct (zero_val _ s Hz) as [H1 H2]. split; [exact H1 | lra]. }
  destruct Hf as [-> | [Hpf Hbf]].
  { destruct (mul_0_r m Hfm) as [s Hz].
    destruct (zero_val _ s Hz) as [H1 H2]. split; [exact H1 | lra]. }
  destruct (opp_val m Hfm) as [Hfa Eva].
  assert (Hpa : Fpos (- m)).
  { apply SFval_pos_finite. fold (Fval (- m)). lra. }
  destruct (mul_pos (- m) f Hpa Hpf) as [Hpp Hv];
    [unfold small, big; lra | unfold small, big; lra |].
  rewrite mul_opp_l in Hpp, Hv.
  pose proof (Fpos_fin _ Hpp) as Hfo.
  destruct (opp_val _ Hfo) as [Hfr Evr]. rewrite opp_involutive in Hfr, Evr.
  split; [exact Hfr|]. unfold u52 in Hv.
  pose proof (Fpos_val _ Hpp) as H0. split; [|lra].
  assert (H1 : - Fval m * Fval f <= 760009 # 1000000) by nra. nra.
Qed.

(** Every lever that is switched on cools by at least 0.00049 degrees. *)
Definition temp_negative (key : string) (pd : PolicyData) (l : Z) : bool :=
  Fval_in (lever_temp_impact pd l) (- (1)) (- (49 # 100000)).

Lemma add_temp_sign (items : list (string * PolicyData * Z)) :
  Forall (fun x => snd x <> 0%Z ->
            temp_negative (fst (fst x)) (snd (fst x)) (snd x) = true) items ->
  forall (t : float) (B : Q),
    t = 0%float \/ (Ffin t /\ - B <= Fval t <= - (4 # 10000)) ->
    0 <= B -> B + 2 * Qlen items <= 1000 ->
    let t' := fold_left (fun t x => add_temp t (snd (fst x)) (snd x)) items t in
    t' = 0%float \/ (Ffin t' /\ Fval t' <= - (4 # 10000)).
Proof.
  induction 1 as [| [[key pd] l] items Hx _ IH]; intros t B Ht HB Hmax;
    cbv zeta in *.
  - cbn [fold_left]. destruct Ht as [-> | [H1 H2]]; [now left | right].
    split; [exact H1 | lra].
  - pose proof (Qlen_cons (key, pd, l) items) as El.
    pose proof (Qlen_nonneg items) as Hl.
    cbn [fold_left fst snd]. cbn [fst snd] in Hx. rewrite El in Hmax.
    destruct (Z.eqb_spec l 0) as [E | N].
    + replace (add_temp t pd l) with t
        by (unfold add_temp; rewrite E; reflexivity).
      apply (IH t B Ht HB). lra.
    + replace (add_temp t pd l) with (t + lever_temp_impact pd l)%float
        by (unfold add_temp; destruct (Z.eqb_spec l 0);
            [contradiction | reflexivity]).
      specialize (Hx N). apply Fval_in_sound in Hx as [Hfy Hby].
      apply (IH _ (B + 2)); [|lra|lra]. right.
      assert (Hft : Ffin t).
      { destruct Ht as [-> | [Hft _]]; [exact I | exact Hft]. }
      assert (Hbt : - B <= Fval t <= 0).
      { destruct Ht as [-> | [_ Hbt]]; [change (Fval 0) with 0|]; lra. }
      destruct (add_near t (lever_temp_impact pd l) Hft Hfy) as [Hf [[_ Hn] _]];
        [unfold big; lra|].
      specialize (Hn ltac:(lra)). split; [exact Hf|]. unfold u52 in Hn.
      split; nra.
Qed.

Lemma policy_loop_temp_sign (policies : dict Z) (st : Totals) :
  valid_levels policies ->
  policy_loop new_PolicyEngine policies = Ok st ->
  total_temp_mitigation st = 0%float \/
  (Ffin (total_temp_mitigation st) /\
   - (760009 # 1000000) <= Fval (total_temp_mitigation st) <= - (4 # 10000)).
Proof.
  intros Hv Hloop.
  destruct (policy_loop_temp_mitigation policies st Hv Hloop) as [Hf [Hlo _]].
  destruct (valid_levels_levers policies Hv) as [ls [Hlen [Hls ->]]].
  rewrite (policy_loop_temp new_PolicyEngine (levers ls) (levers_found ls)
             initial_totals st Hloop) in *.
  assert (Hok : Forall (fun x => snd x <> 0%Z ->
                          temp_negative (fst (fst x)) (snd (fst x)) (snd x)
                          = true) (levers ls)).
  { apply (table_levels_forall temp_negative POLICY_COSTS);
      [vm_compute; reflexivity | exact Hls]. }
  assert (Hq : Qlen (levers ls) <= 8).
  { unfold Qlen, levers. rewrite length_combine. change 8 with (inject_Z 8).
    rewrite <- Zle_Qle. rewrite Hlen. cbn. lia. }
  destruct (add_temp_sign (levers ls) Hok
              (total_temp_mitigation initial_totals) 0) as [E | [H1 H2]];
    [now left | lra | lra | now left | right].
  split; [exact H1 | lra].
Qed.

(** The thousandths of a point of the projection, and what is checked of
    each point: its factor is zero or between 0.1 and 1, and its anomaly is
    a positive float within 1e-9 of its thousandths. *)
Definition thousandths (x : float) : Z :=
  match Prim2SF x with
  | S754_finite false m e => PyFloat.scaled_digits m e 3
  | _ => 0
  end.

Definition bau_point_ok (bau_point : YearPoint) : bool :=
  let f := mitigation_factor (year bau_point) in
  let N := thousandths (anomaly bau_point) in
  match Prim2SF f with
  | S754_zero false => true
  | S754_finite false _ _ => Fval_in f (1 # 10) 1
  | _ => false
  end
  && match Prim2SF (anomaly bau_point) with
     | S754_finite false _ _ => true
     | _ => false
     end
  && (1200 <=? N)%Z && (N <=? 2520)%Z
  && Fval_in (anomaly bau_point)
       ((N # 1000) - (1 # 1000000000)) ((N # 1000) + (1 # 1000000000)).

Lemma bau_point_ok_spec (bau_point : YearPoint) :
  bau_point_ok bau_point = true ->
  let f := mitigation_factor (year bau_point) in
  let b := anomaly bau_point in
  let N := thousandths b in
  (f = 0%float \/ (Fpos f /\ (1 # 10) <= Fval f <= 1)) /\
  Ffin b /\
  round_to_precision b 3 = PyFloat.of_ratio N (10 ^ 3) /\
  (1200 <= N <= 2520)%Z /\
  (N # 1000) - (1 # 1000000000) <= Fval b <= (N # 1000) + (1 # 1000000000).
Proof.
  unfold bau_point_ok. cbv zeta. intros H.
  apply andb_prop in H as [H H5]. apply andb_prop in H as [H H4].
  apply andb_prop in H as [H H3]. apply andb_prop in H as [H1 H2].
  apply Fval_in_sound in H5 as [Hfb Hb].
  apply Z.leb_le in H3, H4.
  split; [|split; [exact Hfb|split; [|split; [lia | exact Hb]]]].
  - destruct (Prim2SF (mitigation_factor (year bau_point)))
      as [[|] | | | [|] m e] eqn:E; try discriminate.
    + left. apply Prim2SF_inj. rewrite E. reflexivity.
    + right. apply Fval_in_sound in H1 as [_ Hv].
      split; [unfold Fpos; rewrite E; exact I | exact Hv].
  - unfold round_to_precision, PyFloat.py_round, thousandths.
    destruct (Prim2SF (anomaly bau_point)) as [| | | [|] m e];
      try discriminate. reflexivity.
Qed.

Lemma BAU_PROJECTION_ok : forallb bau_point_ok BAU_PROJECTION = true.
Proof. vm_compute. reflexivity. Qed.

Lemma trend_point_within_bau (m : float) (bau_point : YearPoint) :
  m = 0%float \/ (Ffin m /\ - (760009 # 1000000) <= Fval m <= - (4 # 10000)) ->
  bau_point_ok bau_point = true ->
  let p := trend_point m bau_point in
  Ffin (TrendPoint.anomaly p) /\
  PrimFloat.leb (TrendPoint.anomaly p) (TrendPoint.bau_anomaly p) = true /\
  Fval (TrendPoint.bau_anomaly p) - (760001 # 1000000)
    <= Fval (TrendPoint.anomaly p).
Proof.
  intros Hm Hok.
  destruct (bau_point_ok_spec bau_point Hok) as [Hf [Hfb [Er [HN Hb]]]].
  cbv zeta in *.
  destruct (mitigation_share m _ Hm Hf) as [Hfs Hs].
  unfold trend_point. cbv zeta.
  cbn [TrendPoint.anomaly TrendPoint.bau_anomaly].
  set (b := anomaly bau_point) in *.
  set (N := thousandths b) in *.
  set (s := (m * mitigation_factor (year bau_point))%float) in *.
  rewrite Er.
  assert (HNq : 1200 <= inject_Z N <= 2520).
  { split; [change 1200 with (inject_Z 1200) | change 2520 with (inject_Z 2520)];
      rewrite <- Zle_Qle; lia. }
  assert (EN : N # 1000 == inject_Z N * (1 # 1000)).
  { unfold Qeq, Qmult, inject_Z. cbn [Qnum Qden]. lia. }
  rewrite EN in Hb.
  destruct (add_near b s Hfb Hfs) as [Hfa [[Hn _] _]]; [unfold big; lra|].
  specialize (Hn ltac:(lra)). unfold u52 in Hn.
  set (a := (b + s)%float) in *.
  destruct (of_ratio_val N (10 ^ 3) ltac:(lia) ltac:(cbn; lia)) as [HfB HvB].
  change (inject_Z (10 ^ 3)) with 1000 in HvB. unfold u52 in HvB.
  destruct (py_round_upper a 3 N Hfa) as [Hfr Hup];
    [lia | lia | change (inject_Z (10 ^ 3)) with 1000; lra | lra |].
  destruct (py_round_val a 3 Hfa) as [h [_ [_ [Hk [Hpos _]]]]]; [lia | lra |].
  change (inject_Z (10 ^ 3)) with 1000 in Hk, Hpos.
  assert (Hh : (N - 760 <= h)%Z).
  { assert (H : inject_Z (N + -761) < inject_Z h).
    { rewrite inject_Z_plus. change (inject_Z (-761)) with (- (761)). lra. }
    rewrite <- Zlt_Qlt in H. lia. }
  assert (Hhq : inject_Z N - 760 <= inject_Z h).
  { assert (H : inject_Z (N + -760) <= inject_Z h) by (rewrite <- Zle_Qle; lia).
    rewrite inject_Z_plus in H. change (inject_Z (-760)) with (- (760)) in H.
    lra. }
  specialize (Hpos ltac:(lra)). unfold u52 in Hpos.
  unfold round_to_precision.
  split; [exact Hfr|]. split; [now apply leb_of_val|]. lra.
Qed.

(** In every result the projected anomaly of each year is a finite float, at
    most the business-as-usual anomaly of that year and at most 0.76 degrees
    below it: the policies never warm the projection. *)
Theorem trend_line_within_bau (policy_inputs : dict PyVal)
  (r : CalculationResult.t) :
  calculate_impacts new_PolicyEngine policy_inputs = Ok r ->
  Forall (fun p =>
            Ffin (TrendPoint.anomaly p) /\
            PrimFloat.leb (TrendPoint.anomaly p) (TrendPoint.bau_anomaly p)
              = true /\
            Fval (TrendPoint.bau_anomaly p) - (760001 # 1000000)
              <= Fval (TrendPoint.anomaly p))
         (CalculationResult.trend_line r).
Proof.
  intros H. apply calculate_impacts_Ok in H as [policies [st [H1 [H2 ->]]]].
  apply sanitize_inputs_valid in H1.
  pose proof (policy_loop_temp_sign policies st H1 H2) as Hm.
  cbn [assemble CalculationResult.trend_line].
  rewrite _generate_trend_line_points. cbn [bau_projection new_PolicyEngine].
  apply Forall_map. apply Forall_forall. intros bau_point Hin.
  apply (trend_point_within_bau _ _ Hm).
  pose proof BAU_PROJECTION_ok as Hok. rewrite forallb_forall in Hok.
  now apply Hok.
Qed.

Lemma trend_line_within_bau_witness :
  exists r,
    calculate_impacts new_PolicyEngine (levels 100 100 100 100 100 100 100 100)
      = Ok r /\
    Forall (fun p =>
              Ffin (TrendPoint.anomaly p) /\
              PrimFloat.leb (TrendPoint.anomaly p) (TrendPoint.bau_anomaly p)
                = true /\
              Fval (TrendPoint.bau_anomaly p) - (760001 # 1000000)
                <= Fval (TrendPoint.anomaly p))
           (CalculationResult.trend_line r).
Proof.
  eexists. split; [vm_compute; reflexivity|].
  match goal with
  | |- Forall _ (CalculationResult.trend_line ?r) =>
      exact (trend_line_within_bau
               (levels 100 100 100 100 100 100 100 100) r
               ltac:(vm_compute; reflexivity))
  end.
Defined.


(** * The largest revenue *)

Local Open Scope Q_scope.

(** The reported total cost is never below -80, the revenue of the carbon
    tax at level 100 with every other lever off. *)
Theorem total_cost_at_least (policy_inputs : dict PyVal)
  (r : CalculationResult.t) :
  calculate_impacts new_PolicyEngine policy_inputs = Ok r ->
  PrimFloat.leb (-80) (CalculationResult.total_cost r) = true.
Proof.
  intros H. apply calculate_impacts_Ok in H as [policies [st [H1 [H2 ->]]]].
  apply sanitize_inputs_valid in H1.
  destruct (policy_loop_total_cost policies H1) as [st' [H3 [Hf Hb]]].
  rewrite H2 in H3. injection H3 as <-.
  cbn [assemble CalculationResult.total_cost].
  assert (Hd : delta == 1000 # 4503599627370496) by reflexivity.
  unfold round_to_precision.
  destruct (py_round_lower (total_cost st) 2 8000 Hf) as [Hfr Hlo];
    [lia | cbn; lia | | lra |].
  { change (inject_Z (10 ^ 2)) with 100. change (inject_Z 8000) with 8000.
    lra. }
  apply leb_of_val; [exact I | exact Hfr |].
  change (-80)%float with (- PyFloat.of_ratio 8000 (10 ^ 2))%float.
  exact Hlo.
Qed.

Lemma total_cost_at_least_witness :
  exists r,
    calculate_impacts new_PolicyEngine (levels 0 0 100 0 0 0 0 0) = Ok r /\
    PrimFloat.leb (-80) (CalculationResult.total_cost r) = true /\
    PrimFloat.leb (CalculationResult.total_cost r) (-80) = true.
Proof.
  eexists. split; [vm_compute; reflexivity|].
  match goal with
  | |- PrimFloat.leb _ (CalculationResult.total_cost ?r) = true /\ _ =>
      split;
      [ exact (total_cost_at_least (levels 0 0 100 0 0 0 0 0) r
                 ltac:(vm_compute; reflexivity))
      | vm_compute; reflexivity ]
  end.
Defined.

(** * Signs of the temperature text and of the efficiency *)

Local Open Scope Z_scope.

Lemma format_f_opp (x : float) (nd : Z) :
  PrimFloat.ltb 0 x = true ->
  PyFloat.format_f (- x) nd = ("-" ++ PyFloat.format_f x nd)%string.
Proof.
  rewrite ltb_spec. change (Prim2SF 0) with (S754_zero false).
  unfold PyFloat.format_f. rewrite opp_spec.
  destruct (Prim2SF x) as [s | s | | s m e]; cbn; try discriminate;
    destruct s; cbn; try discriminate; intros _; reflexivity.
Qed.

Lemma positive_leb (x : float) :
  PrimFloat.ltb 0 x = true ->
  PrimFloat.leb 0 x = true /\ PrimFloat.leb 0 (- x) = false.
Proof.
  rewrite ltb_spec, !leb_spec, opp_spec.
  change (Prim2SF 0) with (S754_zero false).
  destruct (Prim2SF x) as [s | s | | s m e]; cbn; try discriminate;
    destruct s; cbn; try discriminate; intros _; split; reflexivity.
Qed.

(** A warming and the cooling of the same size are written with the same
    digits, the first with a plus sign and the second with a minus sign. *)
Theorem format_temperature_opp (value : float) (decimals : Z) :
  PrimFloat.ltb 0 value = true ->
  format_temperature value decimals
  = ("+" ++ PyFloat.format_f value decimals ++ "°C")%string /\
  format_temperature (- value) decimals
  = ("-" ++ PyFloat.format_f value decimals ++ "°C")%string.
Proof.
  intros H. destruct (positive_leb value H) as [H1 H2].
  unfold format_temperature. rewrite H1, H2, (format_f_opp value decimals H).
  split; reflexivity.
Qed.

Lemma format_temperature_opp_witness :
  format_temperature 1.25 2
  = ("+" ++ PyFloat.format_f 1.25 2 ++ "°C")%string /\
  format_temperature (- 1.25) 2
  = ("-" ++ PyFloat.format_f 1.25 2 ++ "°C")%string.
Proof. apply (format_temperature_opp 1.25 2). reflexivity. Defined.

(** * The efficiency tiers *)

Definition tier_rank (tier : string) : nat :=
  if String.eqb tier "Excellent" then 3
  else if String.eqb tier "Good" then 2
  else if String.eqb tier "Moderate" then 1
  else 0.

Lemma leb_trans (a x y : float) :
  Ffin a -> Ffin x -> Ffin y ->
  PrimFloat.leb a x = true -> PrimFloat.leb x y = true ->
  PrimFloat.leb a y = true.
Proof.
  intros Ha Hx Hy H1 H2.
  apply (leb_val a x Ha Hx) in H1. apply (leb_val x y Hx Hy) in H2.
  apply (leb_val a y Ha Hy). apply (Qle_trans _ _ _ H1 H2).
Qed.

(** The tiers are ordered as the scores: of two finite scores the higher one
    never gets the lower tier. *)
Theorem interpret_efficiency_monotone (x y : float) :
  Ffin x -> Ffin y -> PrimFloat.leb x y = true ->
  (tier_rank (_interpret_efficiency x)
   <= tier_rank (_interpret_efficiency y))%nat.
Proof.
  intros Hx Hy H. unfold _interpret_efficiency.
  pose proof (fun a Ha => leb_trans a x y Ha Hx Hy) as T.
  destruct (PrimFloat.leb 1 x) eqn:E1.
  { rewrite (T 1%float I E1 H). apply Nat.le_refl. }
  destruct (PrimFloat.leb 0.5 x) eqn:E2.
  { rewrite (T 0.5%float I E2 H).
    destruct (PrimFloat.leb 1 y); cbn; lia. }
  destruct (PrimFloat.leb 0.2 x) eqn:E3.
  { rewrite (T 0.2%float I E3 H).
    destruct (PrimFloat.leb 1 y), (PrimFloat.leb 0.5 y); cbn; lia. }
  cbn. lia.
Qed.

Lemma interpret_efficiency_monotone_witness :
  (tier_rank (_interpret_efficiency 0.48)
   <= tier_rank (_interpret_efficiency 75))%nat.
Proof.
  apply (interpret_efficiency_monotone 0.48 75);
    [exact I | exact I | reflexivity].
Defined.

Local Open Scope Z_scope.


(** * The cap on a lever's temperature impact *)

Local Open Scope Q_scope.

Lemma abs_val_nonpos (x : float) :
  Ffin x -> Fval x <= 0 ->
  Ffin (PrimFloat.abs x) /\ Fval (PrimFloat.abs x) == - Fval x.
Proof.
  unfold Ffin, Fval. rewrite abs_spec.
  destruct (Prim2SF x) as [s | s | | s m e]; try contradiction; intros _ H;
    cbn [SFabs SFfin]; (split; [exact I|]).
  - reflexivity.
  - rewrite !SFval_finite in *. pose proof (B2Q_pos m e) as HB.
    unfold signQ in *. destruct s; lra.
Qed.

Lemma ltb_irrefl (x : float) : PrimFloat.ltb x x = false.
Proof.
  rewrite ltb_spec. unfold SFltb.
  destruct (Prim2SF x) as [s | s | | s m e]; cbn [SFcompare];
    try (destruct s; reflexivity); try reflexivity.
  destruct s; rewrite Z.compare_refl; cbn; rewrite ?Pos.compare_cont_refl;
    rewrite ?Pos.compare_refl; reflexivity.
Qed.

Local Open Scope Z_scope.

(** A lever whose linear impact passes its cap at level 51. *)
Definition steep_lever : PolicyData :=
  {| cost_per_unit := 1.0;
     temperature_impact := (-0.002)%float;
     max_impact := (-0.1)%float;
     label := "Steep lever";
     description := "" |}.

Definition engine_with_steep_lever : PolicyEngine :=
  {| policy_costs := [("steep", steep_lever)];
     bau_projection := BAU_PROJECTION;
     baseline := BASELINE_2026 |}.

(** C3: whatever the table, for a lever at a level of [0..100] the
    contribution to the mitigation is [max(temperature_impact * level,
    max_impact)]: the loop adds it to the total when the level is not 0 and
    skips the lever when it is.  The contribution is never below the lever's
    [max_impact]: it is the cap itself when the linear impact is below the
    cap and the linear impact otherwise; when the linear impact and the cap
    are finite and at most 0, its magnitude is at most the magnitude of the
    cap. *)
Theorem lever_temp_impact_capped (self : PolicyEngine) (st : Totals)
  (key : string) (pd : PolicyData) (l : Z) :
  dict_find (policy_costs self) key = Some pd -> 0 <= l <= 100 ->
  let linear := (temperature_impact pd * PyFloat.of_Z l)%float in
  let contribution := lever_temp_impact pd l in
  (l <> 0 ->
   exists st',
     policy_step self st (key, l) = Ok st' /\
     total_temp_mitigation st' =
       (total_temp_mitigation st + contribution)%float) /\
  (l = 0 -> policy_step self st (key, l) = Ok st) /\
  PrimFloat.ltb contribution (max_impact pd) = false /\
  (PrimFloat.ltb linear (max_impact pd) = true ->
   contribution = max_impact pd) /\
  (PrimFloat.ltb linear (max_impact pd) = false -> contribution = linear) /\
  (Ffin linear -> Ffin (max_impact pd) ->
   PrimFloat.leb linear 0 = true -> PrimFloat.leb (max_impact pd) 0 = true ->
   PrimFloat.leb (PrimFloat.abs contribution) (PrimFloat.abs (max_impact pd))
   = true).
Proof.
  intros Hf Hl. cbv zeta. split.
  { intros Hnz.
    destruct (policy_step_active self st key pd l Hf Hnz)
      as [st' [H1 [_ H2]]].
    exists st'. split; assumption. }
  split; [intros ->; reflexivity|].
  unfold lever_temp_impact, PyFloat.py_max.
  set (linear := (temperature_impact pd * PyFloat.of_Z l)%float).
  destruct (PrimFloat.ltb linear (max_impact pd)) eqn:E.
  - split; [apply ltb_irrefl|].
    split; [reflexivity|]. split; [discriminate|].
    intros _ Hc _ Hc0.
    apply (leb_val (max_impact pd) 0 Hc I) in Hc0.
    change (Fval 0) with 0%Q in Hc0.
    destruct (abs_val_nonpos _ Hc Hc0) as [Ha _].
    apply leb_of_val; [exact Ha | exact Ha | apply Qle_refl].
  - split; [exact E|]. split; [discriminate|]. split; [reflexivity|].
    intros Hlin Hc Hl0 Hc0.
    apply (leb_val linear 0 Hlin I) in Hl0.
    apply (leb_val (max_impact pd) 0 Hc I) in Hc0.
    change (Fval 0) with 0%Q in Hl0, Hc0.
    destruct (abs_val_nonpos _ Hlin Hl0) as [Ha1 Ev1].
    destruct (abs_val_nonpos _ Hc Hc0) as [Ha2 Ev2].
    apply leb_of_val; [exact Ha1 | exact Ha2 |].
    destruct (Qlt_le_dec (Fval linear) (Fval (max_impact pd))) as [Hlt | Hge].
    + apply (ltb_val linear (max_impact pd) Hlin Hc) in Hlt. congruence.
    + lra.
Qed.

Lemma lever_temp_impact_capped_witness :
  dict_find (policy_costs engine_with_steep_lever) "steep" = Some steep_lever /\
  0 <= 100 <= 100 /\
  lever_temp_impact steep_lever 100 = max_impact steep_lever /\
  PrimFloat.ltb (temperature_impact steep_lever * PyFloat.of_Z 100)
    (max_impact steep_lever) = true /\
  PrimFloat.ltb (lever_temp_impact steep_lever 100) (max_impact steep_lever)
  = false.
Proof.
  split; [reflexivity|]. split; [lia|].
  pose proof (lever_temp_impact_capped engine_with_steep_lever initial_totals
                "steep" steep_lever 100 eq_refl ltac:(lia)) as H.
  cbv zeta in H. destruct H as [_ [_ [H1 [H2 _]]]].
  assert (E : PrimFloat.ltb (temperature_impact steep_lever * PyFloat.of_Z 100)
                (max_impact steep_lever) = true) by (vm_compute; reflexivity).
  split; [exact (H2 E)|]. split; [exact E | exact H1].
Defined.

Local Open Scope Z_scope.


(** * The treemap percentages, in tenths *)

Local Open Scope Q_scope.

(** The rounding of a positive float is the float nearest [h / 10^nd] for
    the integer [h] nearest its scaled value. *)
Lemma py_round_pos_digits (t : float) (nd : Z) :
  Fpos t -> (0 <= nd <= 3)%Z -> Fval t <= 524288 ->
  exists h : Z,
    (0 <= h)%Z /\
    PyFloat.py_round t nd = PyFloat.of_ratio h (10 ^ nd) /\
    inject_Z h - (1 # 2) <= inject_Z (10 ^ nd) * Fval t
      <= inject_Z h + (1 # 2).
Proof.
  intros Hp Hnd Hb.
  destruct (Fpos_inv t Hp) as [m [e [Et [_ Ev]]]].
  pose proof (scaled_digits_near m e nd ltac:(lia)) as Hk. cbv zeta in Hk.
  pose proof (B2Q_pos m e) as HB.
  pose proof (inject_Z_pow10 nd Hnd) as Hden.
  assert (HD : 1 <= inject_Z (10 ^ nd) <= 1000).
  { split; [change 1 with (inject_Z 1) | change 1000 with (inject_Z 1000)];
      rewrite <- Zle_Qle; lia. }
  exists (PyFloat.scaled_digits m e nd).
  split; [|split].
  - assert (H : inject_Z (-1) < inject_Z (PyFloat.scaled_digits m e nd)).
    { change (inject_Z (-1)) with (- (1)). nra. }
    rewrite <- Zlt_Qlt in H. lia.
  - unfold PyFloat.py_round. rewrite Et. reflexivity.
  - rewrite Ev. lra.
Qed.

Lemma percentage_of_tenths (v T : float) :
  good_value v -> Fpos T -> (1 # 2) <= Fval T <= 2048 ->
  exists (p : Q) (h : Z),
    (1 - 3 * u52) * (1000 * Fval v) <= 10 * p * Fval T
      <= (1 + 3 * u52) * (1000 * Fval v) /\
    inject_Z h - (1 # 2) <= 10 * p <= inject_Z h + (1 # 2) /\
    (0 <= h)%Z /\
    percentage_of v T = PyFloat.of_ratio h 10.
Proof.
  intros [Hfv Hbv] HT HbT.
  assert (Hpv : Fpos v).
  { apply SFval_pos_finite. fold (Fval v). lra. }
  destruct (div_pos v T Hpv HT) as [Hpq Hq];
    [unfold small, big; lra | unfold small, big; lra |].
  set (q := (v / T)%float) in *.
  pose proof (Fpos_val q Hpq) as Hq0.
  assert (Hq1 : Fval q <= 503).
  { unfold u52 in Hq. nra. }
  assert (Hq2 : (1 # 4096) <= Fval q).
  { unfold u52 in Hq.
    assert (Fval q * Fval T <= Fval q * 2048) by nra. lra. }
  destruct (Ffin_Fval_of_check 100 100 eq_refl) as [_ E100].
  assert (Hp100 : Fpos 100) by exact I.
  destruct (mul_pos q 100 Hpq Hp100) as [Hpp Hp];
    [unfold small, big; lra | rewrite E100; unfold small, big; lra |].
  rewrite E100 in Hp.
  set (p := (q * 100)%float) in *.
  destruct (py_round_pos_digits p 1 Hpp) as [h [Hh0 [Er Hk]]];
    [lia | unfold u52 in Hp; lra |].
  change (inject_Z (10 ^ 1)) with 10 in Hk.
  exists (Fval p), h. unfold percentage_of, round_to_precision. fold q p.
  split.
  { unfold u52 in *.
    assert (H1 : (1 - (1 # 4503599627370496)) * (Fval q * Fval T) * 100
                 <= Fval p * Fval T) by nra.
    assert (H2 : Fval p * Fval T
                 <= (1 + (1 # 4503599627370496)) * (Fval q * Fval T) * 100)
      by nra.
    split; nra. }
  split; [lra|]. split; [exact Hh0 | exact Er].
Qed.

Definition Zsum (xs : list Z) : Z := fold_right Z.add 0%Z xs.

Lemma percentages_tenths_spec (vs : list float) (T : float) :
  Forall good_value vs -> Fpos T -> (1 # 2) <= Fval T <= 2048 ->
  exists (P : Q) (hs : list Z),
    (1 - 3 * u52) * (1000 * Qsum (map Fval vs)) <= 10 * P * Fval T
      <= (1 + 3 * u52) * (1000 * Qsum (map Fval vs)) /\
    inject_Z (Zsum hs) - Qlen vs * (1 # 2) <= 10 * P
      <= inject_Z (Zsum hs) + Qlen vs * (1 # 2) /\
    Forall (fun h => 0 <= h)%Z hs /\
    map (fun v => percentage_of v T) vs
    = map (fun h => PyFloat.of_ratio h 10) hs.
Proof.
  intros Hvs HT HbT. induction Hvs as [| v vs Hv _ IH].
  - exists 0, []. cbn [map Qsum Zsum fold_right]. unfold Qlen.
    cbn [List.length Z.of_nat]. change (inject_Z 0) with 0.
    split; [lra|]. split; [lra|]. split; [apply Forall_nil | reflexivity].
  - destruct IH as [P [hs [H1 [H2 [H3 H4]]]]].
    destruct (percentage_of_tenths v T Hv HT HbT) as [p [h [K1 [K2 [K3 K4]]]]].
    pose proof (Qlen_cons v vs) as El.
    exists (p + P), (h :: hs). cbn [map Qsum Zsum fold_right].
    fold (Qsum (map Fval vs)). fold (Zsum hs).
    rewrite inject_Z_plus, El.
    assert (E : 10 * (p + P) * Fval T == 10 * p * Fval T + 10 * P * Fval T)
      by ring.
    split; [rewrite E; lra|]. split; [lra|].
    split; [apply Forall_cons; assumption|]. now rewrite K4, H4.
Qed.

(** The percentages of one to seven good values are one-decimal numbers
    whose tenths add up to 1000 within 3. *)
Lemma percentages_tenths (vs : list float) :
  Forall good_value vs -> vs <> [] -> Qlen vs <= 7 ->
  exists hs : list Z,
    map (fun v => percentage_of v (py_sum vs)) vs
    = map (fun h => PyFloat.of_ratio h 10) hs /\
    Forall (fun h => 0 <= h)%Z hs /\
    (997 <= Zsum hs <= 1003)%Z.
Proof.
  intros Hvs Hne Hlen.
  destruct (py_sum_bounds vs Hvs Hne Hlen) as [HT [HS HbT]].
  destruct (percentages_tenths_spec vs (py_sum vs) Hvs HT HbT)
    as [P [hs [H1 [H2 [H3 H4]]]]].
  exists hs. split; [exact H4|]. split; [exact H3|].
  pose proof (Qlen_nonneg vs) as Hl.
  assert (He : eps == 2048 # 4503599627370496) by reflexivity.
  set (T := Fval (py_sum vs)) in *. set (S := Qsum (map Fval vs)) in *.
  unfold u52 in *. rewrite He in HS.
  assert (Hhi : 10 * P * T <= (1000 + (1 # 1000000)) * T) by lra.
  assert (Hlo : (1000 - (1 # 1000000)) * T <= 10 * P * T) by lra.
  assert (HP : 1000 - (1 # 1000000) <= 10 * P <= 1000 + (1 # 1000000)).
  { split; nra. }
  assert (Ha : inject_Z 996 < inject_Z (Zsum hs)).
  { change (inject_Z 996) with 996. lra. }
  assert (Hb : inject_Z (Zsum hs) < inject_Z 1004).
  { change (inject_Z 1004) with 1004. lra. }
  rewrite <- Zlt_Qlt in Ha, Hb. lia.
Qed.

Local Open Scope Z_scope.

(** The active levers with a strictly positive cost, in the order of the
    sanitized levels: the levers the specification gives a treemap entry. *)
Definition positive_cost_levers (table : dict PolicyData) (policies : dict Z)
  : list (PolicyData * Z) :=
  flat_map
    (fun kl =>
       match dict_find table (fst kl) with
       | Some pd =>
           if negb (snd kl =? 0) && PrimFloat.ltb 0 (lever_cost pd (snd kl))
           then [(pd, snd kl)] else []
       | None => []
       end)
    policies.

Lemma treemap_entries_positive_cost (table : dict PolicyData)
  (items : list (string * PolicyData * Z)) :
  Forall (fun x => dict_find table (fst (fst x)) = Some (snd (fst x))) items ->
  map (fun e => (TreemapEntry.name e, TreemapEntry.value e))
      (flat_map (fun x => lever_entries (snd (fst x)) (snd x)) items)
  = map (fun x => (label (fst x),
                   round_to_precision (lever_cost (fst x) (snd x)) 2))
        (positive_cost_levers table (map lever_item items)).
Proof.
  induction 1 as [| [[key pd] l] items Hx _ IH]; [reflexivity|].
  cbn [fst snd] in Hx.
  unfold positive_cost_levers in *.
  cbn [flat_map map lever_item fst snd]. rewrite !map_app, IH, Hx.
  f_equal. unfold lever_entries.
  destruct (l =? 0); cbn [negb andb map]; [reflexivity|].
  destruct (PrimFloat.ltb 0 (lever_cost pd l)); reflexivity.
Qed.

Lemma treemap_percentages_fields (treemap : list TreemapEntry.t) :
  map (fun e => (TreemapEntry.name e, TreemapEntry.value e))
      (treemap_percentages treemap)
  = map (fun e => (TreemapEntry.name e, TreemapEntry.value e)) treemap.
Proof.
  unfold treemap_percentages.
  destruct (PrimFloat.ltb 0 (py_sum (map TreemapEntry.value treemap)));
    [|reflexivity].
  rewrite map_map. reflexivity.
Qed.

(** C7, amended: the treemap has an entry, with the lever's label and its
    cost rounded to two decimals, exactly for each active lever with a
    strictly positive cost, and when it is not empty its percentages are
    one-decimal numbers [h / 10] whose tenths [h] add up to 1000 within 3:
    the percentages sum to 100 within 0.3. *)
Theorem treemap_percentages_tenths (policy_inputs : dict PyVal)
  (r : CalculationResult.t) :
  calculate_impacts new_PolicyEngine policy_inputs = Ok r ->
  let treemap := CalculationResult.fiscal_treemap r in
  map (fun e => (TreemapEntry.name e, TreemapEntry.value e)) treemap
  = map (fun x => (label (fst x),
                   round_to_precision (lever_cost (fst x) (snd x)) 2))
        (positive_cost_levers POLICY_COSTS
           (CalculationResult.policies_applied r)) /\
  (treemap <> [] ->
   exists tenths : list Z,
     map TreemapEntry.percentage treemap
     = map (fun h => PyFloat.of_ratio h 10) tenths /\
     Forall (fun h => 0 <= h) tenths /\
     997 <= Zsum tenths <= 1003).
Proof.
  intros H. destruct (calculate_impacts_inv _ _ H)
    as [ls [st [Hlen [Hls [_ [Hloop ->]]]]]].
  destruct (policy_loop_levers new_PolicyEngine (levers ls) (levers_found ls)
              initial_totals) as [st' [Hloop' [_ Htm]]].
  unfold policy_loop in Hloop. rewrite Hloop in Hloop'. injection Hloop' as <-.
  cbn [fiscal_treemap initial_totals app] in Htm.
  cbv zeta.
  cbn [assemble CalculationResult.fiscal_treemap
       CalculationResult.policies_applied].
  rewrite Htm. split.
  { rewrite treemap_percentages_fields.
    apply (treemap_entries_positive_cost POLICY_COSTS (levers ls)).
    exact (levers_found ls). }
  assert (Hok : Forall (fun x => snd x <> 0 ->
                          entry_value_ok (fst (fst x)) (snd (fst x)) (snd x)
                          = true) (levers ls)).
  { apply (table_levels_forall entry_value_ok POLICY_COSTS);
      [vm_compute; reflexivity | exact Hls]. }
  destruct (treemap_values (levers ls) Hok) as [Hgood Hcount].
  pose proof (levers_without_carbon_tax ls) as H7.
  set (tm := flat_map (fun x => lever_entries (snd (fst x)) (snd x))
               (levers ls)) in *.
  intros Hne.
  assert (Hvs : map TreemapEntry.value tm <> []).
  { intros E. apply Hne. destruct tm; [reflexivity | discriminate]. }
  assert (Hl : (Qlen (map TreemapEntry.value tm) <= 7)%Q).
  { unfold Qlen. rewrite length_map. change 7%Q with (inject_Z 7).
    rewrite <- Zle_Qle. lia. }
  destruct (py_sum_bounds _ Hgood Hvs Hl) as [HT _].
  assert (Hlt : PrimFloat.ltb 0 (py_sum (map TreemapEntry.value tm)) = true).
  { apply ltb_val; [exact I | now apply Fpos_fin |].
    change (Fval 0) with 0%Q. now apply Fpos_val. }
  rewrite (treemap_percentages_values tm Hlt).
  exact (percentages_tenths _ Hgood Hvs Hl).
Qed.

Lemma treemap_percentages_tenths_witness :
  exists r,
    calculate_impacts new_PolicyEngine (levels 10 0 30 0 0 0 0 5) = Ok r /\
    map (fun e => (TreemapEntry.name e, TreemapEntry.value e,
                   TreemapEntry.percentage e))
        (CalculationResult.fiscal_treemap r)
    = [ ("EV Adoption Incentives", 12%float, 75%float);
        ("Waste Management & Recycling", 4%float, 25%float) ] /\
    exists tenths : list Z,
      map TreemapEntry.percentage (CalculationResult.fiscal_treemap r)
      = map (fun h => PyFloat.of_ratio h 10) tenths /\
      997 <= Zsum tenths <= 1003.
Proof.
  eexists. split; [vm_compute; reflexivity|].
  split; [vm_compute; reflexivity|].
  match goal with
  | |- exists _, map _ (CalculationResult.fiscal_treemap ?r) = _ /\ _ =>
      destruct (treemap_percentages_tenths (levels 10 0 30 0 0 0 0 5) r
                  ltac:(vm_compute; reflexivity)) as [_ H];
      destruct (H ltac:(vm_compute; discriminate)) as [hs [H1 [_ H2]]];
      exists hs; split; [exact H1 | exact H2]
  end.
Defined.

(** C7, as stated, fails: with the levers at 94, 68, 0, 31, 55, 40, 99 and
    86 the seven percentages are 18.0, 27.1, 3.0, 15.8, 9.6, 15.8 and
    11.0, and their sum, 100.3, is above 100.2. *)
Lemma treemap_percentages_not_within_02 :
  ~ (exists r,
       calculate_impacts new_PolicyEngine (levels 94 68 0 31 55 40 99 86)
         = Ok r /\
       ((998 # 10) <= Qsum (map Fval (map TreemapEntry.percentage
                                       (CalculationResult.fiscal_treemap r)))
        <= (1002 # 10))%Q).
Proof.
  intros [r [H1 [_ H2]]].
  vm_compute in H1. injection H1 as <-.
  apply Qle_not_lt in H2. apply H2. vm_compute. reflexivity.
Qed.

Local Open Scope Z_scope.


(** * Calls on the engine object *)

(** [calculate_impacts] once more, this time as a call that runs in a store:
    the attributes of [self], which the method reads, and the dictionaries
    it creates for the treemap, which it updates in place when it fills in
    the percentages.  A treemap entry is the address of its dictionary.  The
    other dictionaries and the lists of the method are local and never
    updated once built; they are kept as values. *)
Module Store.
Record t : Type := {
  this : PolicyEngine;
  dicts : list TreemapEntry.t
}.
End Store.

Definition Call (A : Type) : Type := Store.t -> result A * Store.t.

Definition ret {A : Type} (a : A) : Call A := fun s => (Ok a, s).

Definition and_then {A B : Type} (m : Call A) (k : A -> Call B) : Call B :=
  fun s =>
    match m s with
    | (Ok a, s') => k a s'
    | (Raise e, s') => (Raise e, s')
    end.

Notation "x <~ m ;; k" := (and_then m (fun x => k))
  (at level 61, m at next level, right associativity).

Definition lift {A : Type} (r : result A) : Call A := fun s => (r, s).

(** [self.attribute] *)
Definition getattr {A : Type} (attribute : PolicyEngine -> A) : Call A :=
  fun s => (Ok (attribute (Store.this s)), s).

(** A dictionary display: a new dictionary, at a new address. *)
Definition new_dict (d : TreemapEntry.t) : Call nat :=
  fun s =>
    (Ok (List.length (Store.dicts s)),
     {| Store.this := Store.this s;
        Store.dicts := (Store.dicts s ++ [d])%list |}).

(** [item[...]] for reading. *)
Definition getitem (item : nat) : Call TreemapEntry.t :=
  fun s =>
    match nth_error (Store.dicts s) item with
    | Some d => (Ok d, s)
    | None => (Raise KeyError, s)
    end.

Fixpoint set_nth {A : Type} (n : nat) (x : A) (l : list A) : list A :=
  match l, n with
  | [], _ => []
  | _ :: t, O => x :: t
  | h :: t, S n' => h :: set_nth n' x t
  end.

(** [item["percentage"] = value] *)
Definition setitem_percentage (item : nat) (value : float) : Call unit :=
  fun s =>
    match nth_error (Store.dicts s) item with
    | Some d =>
        (Ok tt,
         {| Store.this := Store.this s;
            Store.dicts :=
              set_nth item
                {| TreemapEntry.name := TreemapEntry.name d;
                   TreemapEntry.value := TreemapEntry.value d;
                   TreemapEntry.formatted := TreemapEntry.formatted d;
                   TreemapEntry.percentage := value |}
                (Store.dicts s) |})
    | None => (Raise KeyError, s)
    end.

Fixpoint for_each_call {S A : Type} (body : S -> A -> Call S)
  (items : list A) (st : S) : Call S :=
  match items with
  | [] => ret st
  | x :: rest => st' <~ body st x ;; for_each_call body rest st'
  end.

Fixpoint map_call {A B : Type} (f : A -> Call B) (xs : list A)
  : Call (list B) :=
  match xs with
  | [] => ret []
  | x :: rest => y <~ f x ;; ys <~ map_call f rest ;; ret (y :: ys)
  end.

(** The local variables of the policy loop; the treemap is a list of
    addresses. *)
Module Locals.
Record t : Type := {
  total_cost : float;
  total_temp_mitigation : float;
  policy_breakdown : list BreakdownEntry.t;
  fiscal_treemap : list nat;
  efficiency_metrics : list EfficiencyEntry.t
}.
End Locals.

Definition initial_locals : Locals.t :=
  {| Locals.total_cost := 0; Locals.total_temp_mitigation := 0;
     Locals.policy_breakdown := []; Locals.fiscal_treemap := [];
     Locals.efficiency_metrics := [] |}.

Definition policy_step_call (st : Locals.t) (item : string * Z)
  : Call Locals.t :=
  let '(policy_key, level) := item in
  if level =? 0 then ret st
  else
    table <~ getattr policy_costs ;;
    policy_data <~ lift (dict_item table policy_key) ;;
    let cost := lever_cost policy_data level in
    let temp_impact := lever_temp_impact policy_data level in
    fiscal_treemap <~
      (if PrimFloat.ltb 0 cost then
         entry <~ new_dict (treemap_entry policy_data level) ;;
         ret (Locals.fiscal_treemap st ++ [entry])%list
       else ret (Locals.fiscal_treemap st)) ;;
    ret {| Locals.total_cost := (Locals.total_cost st + cost)%float;
           Locals.total_temp_mitigation :=
             (Locals.total_temp_mitigation st + temp_impact)%float;
           Locals.policy_breakdown :=
             (Locals.policy_breakdown st
              ++ [breakdown_entry policy_data level])%list;
           Locals.fiscal_treemap := fiscal_treemap;
           Locals.efficiency_metrics :=
             (Locals.efficiency_metrics st
              ++ [efficiency_entry policy_data level])%list |}.

(** The pass over the treemap that fills in the percentages, in place. *)
Definition set_percentages (fiscal_treemap : list nat) : Call unit :=
  values <~ map_call (fun item => d <~ getitem item ;;
                                  ret (TreemapEntry.value d))
                     fiscal_treemap ;;
  let total_positive_cost := py_sum values in
  if PrimFloat.ltb 0 total_positive_cost then
    for_each_call
      (fun (_ : unit) item =>
         d <~ getitem item ;;
         setitem_percentage item
           (round_to_precision
              (TreemapEntry.value d / total_positive_cost * 100)%float 1))
      fiscal_treemap tt
  else ret tt.

Definition calculate_impacts_call (policy_inputs : dict PyVal)
  : Call CalculationResult.t :=
  policies <~ lift (sanitize_inputs policy_inputs) ;;
  st <~ for_each_call policy_step_call policies initial_locals ;;
  _ <~ set_percentages (Locals.fiscal_treemap st) ;;
  self <~ getattr (fun self => self) ;;
  let trend_line :=
    _generate_trend_line self (Locals.total_temp_mitigation st) in
  let national_debt := Locals.total_cost st in
  let bankruptcy_flag := PrimFloat.ltb BANKRUPTCY_THRESHOLD national_debt in
  fiscal_treemap <~ map_call getitem (Locals.fiscal_treemap st) ;;
  ret {| CalculationResult.total_cost :=
           round_to_precision (Locals.total_cost st) 2;
         CalculationResult.total_cost_formatted :=
           format_currency (Locals.total_cost st);
         CalculationResult.temperature_mitigation :=
           round_to_precision (Locals.total_temp_mitigation st) 3;
         CalculationResult.temperature_mitigation_formatted :=
           format_temperature (Locals.total_temp_mitigation st) 3;
         CalculationResult.national_debt :=
           round_to_precision national_debt 2;
         CalculationResult.national_debt_formatted :=
           format_currency national_debt;
         CalculationResult.bankruptcy_flag := bankruptcy_flag;
         CalculationResult.policy_breakdown := Locals.policy_breakdown st;
         CalculationResult.trend_line := trend_line;
         CalculationResult.fiscal_treemap := fiscal_treemap;
         CalculationResult.efficiency_index := Locals.efficiency_metrics st;
         CalculationResult.policies_applied := policies;
         CalculationResult.warning_message :=
           if bankruptcy_flag then Some "ECONOMIC COLLAPSE IMMINENT"
           else None |}.

(** ** What a call does to the store *)

Definition store (self : PolicyEngine) (ds : list TreemapEntry.t) : Store.t :=
  {| Store.this := self; Store.dicts := ds |}.

Lemma nth_error_middle {A : Type} (front : list A) (x : A) (back : list A) :
  nth_error (front ++ x :: back) (List.length front) = Some x.
Proof. induction front as [| h front IH]; [reflexivity | exact IH]. Qed.

Lemma set_nth_middle {A : Type} (front : list A) (x y : A) (back : list A) :
  set_nth (List.length front) y (front ++ x :: back) = (front ++ y :: back)%list.
Proof.
  induction front as [| h front IH]; [reflexivity|].
  cbn [List.length app set_nth]. now rewrite IH.
Qed.

Lemma snoc_middle {A : Type} (front : list A) (x : A) (back : list A) :
  ((front ++ [x]) ++ back = front ++ x :: back)%list.
Proof. now rewrite <- app_assoc. Qed.

(** Reading the dictionaries of a call, in the order they were made. *)
Lemma map_call_read {B : Type} (self : PolicyEngine)
  (read : nat -> Call B) (f : TreemapEntry.t -> B) :
  (forall item s d, nth_error (Store.dicts s) item = Some d ->
                    read item s = (Ok (f d), s)) ->
  forall (mine old : list TreemapEntry.t),
    map_call read (seq (List.length old) (List.length mine))
      (store self (old ++ mine))
    = (Ok (map f mine), store self (old ++ mine)).
Proof.
  intros Hread. induction mine as [| d mine IH]; intros old; [reflexivity|].
  cbn [List.length seq map_call map]. unfold and_then at 1.
  rewrite (Hread (List.length old) _ d)
    by (cbn [store Store.dicts]; apply nth_error_middle).
  unfold and_then at 1.
  specialize (IH (old ++ [d])%list).
  rewrite length_app, Nat.add_1_r, snoc_middle in IH.
  rewrite IH. reflexivity.
Qed.

(** Updating them in place, one after the other. *)
Lemma for_each_call_update (self : PolicyEngine)
  (body : unit -> nat -> Call unit)
  (g : TreemapEntry.t -> TreemapEntry.t) :
  (forall u item s d, nth_error (Store.dicts s) item = Some d ->
     body u item s
     = (Ok tt, store (Store.this s) (set_nth item (g d) (Store.dicts s)))) ->
  forall (mine old : list TreemapEntry.t),
    for_each_call body (seq (List.length old) (List.length mine)) tt
      (store self (old ++ mine))
    = (Ok tt, store self (old ++ map g mine)).
Proof.
  intros Hbody. induction mine as [| d mine IH]; intros old; [reflexivity|].
  cbn [List.length seq for_each_call map]. unfold and_then at 1.
  rewrite (Hbody tt (List.length old) _ d)
    by (cbn [store Store.dicts]; apply nth_error_middle).
  cbn [store Store.this Store.dicts]. rewrite set_nth_middle.
  specialize (IH (old ++ [g d])%list).
  rewrite length_app, Nat.add_1_r, !snoc_middle in IH.
  exact IH.
Qed.

(** The local variables of the call against those of [policy_step]: the
    same values, and as treemap the addresses of the dictionaries the call
    has made, which follow the ones the store held before. *)
Definition same_locals (old : list TreemapEntry.t) (st : Totals)
  (loc : Locals.t) : Prop :=
  Locals.total_cost loc = total_cost st /\
  Locals.total_temp_mitigation loc = total_temp_mitigation st /\
  Locals.policy_breakdown loc = policy_breakdown st /\
  Locals.efficiency_metrics loc = efficiency_metrics st /\
  Locals.fiscal_treemap loc
  = seq (List.length old) (List.length (fiscal_treemap st)).

Lemma policy_step_call_spec (self : PolicyEngine)
  (old : list TreemapEntry.t) (st : Totals) (loc : Locals.t)
  (item : string * Z) :
  same_locals old st loc ->
  match policy_step self st item with
  | Ok st' =>
      exists loc',
        policy_step_call loc item (store self (old ++ fiscal_treemap st))
        = (Ok loc', store self (old ++ fiscal_treemap st')) /\
        same_locals old st' loc'
  | Raise e =>
      policy_step_call loc item (store self (old ++ fiscal_treemap st))
      = (Raise e, store self (old ++ fiscal_treemap st))
  end.
Proof.
  intros Hs. destruct item as [key l].
  unfold policy_step, policy_step_call.
  destruct (l =? 0).
  { exists loc. split; [reflexivity | exact Hs]. }
  destruct (dict_item (policy_costs self) key) as [pd | e] eqn:Ed;
    cbn [bind].
  2:{ cbv beta iota delta [and_then getattr lift store Store.this].
      rewrite Ed. reflexivity. }
  destruct Hs as [H1 [H2 [H3 [H4 H5]]]].
  destruct (PrimFloat.ltb 0 (lever_cost pd l)) eqn:Ec.
  - eexists. split.
    + cbv beta iota delta [and_then getattr lift store Store.this].
      rewrite Ed, Ec.
      cbv beta iota delta [and_then new_dict ret Store.this Store.dicts].
      rewrite <- app_assoc. reflexivity.
    + unfold same_locals.
      cbn [Locals.total_cost Locals.total_temp_mitigation
           Locals.policy_breakdown Locals.efficiency_metrics
           Locals.fiscal_treemap total_cost total_temp_mitigation
           policy_breakdown efficiency_metrics fiscal_treemap].
      rewrite H1, H2, H3, H4, H5.
      repeat (split; [reflexivity|]).
      rewrite !length_app. cbn [List.length].
      rewrite Nat.add_1_r, seq_S. reflexivity.
  - eexists. split.
    + cbv beta iota delta [and_then getattr lift store Store.this].
      rewrite Ed, Ec.
      cbv beta iota delta [and_then ret]. reflexivity.
    + unfold same_locals.
      cbn [Locals.total_cost Locals.total_temp_mitigation
           Locals.policy_breakdown Locals.efficiency_metrics
           Locals.fiscal_treemap total_cost total_temp_mitigation
           policy_breakdown efficiency_metrics fiscal_treemap].
      rewrite H1, H2, H3, H4, H5. repeat split; reflexivity.
Qed.

Lemma policy_loop_call (self : PolicyEngine) (old : list TreemapEntry.t)
  (items : dict Z) :
  forall (st : Totals) (loc : Locals.t),
    same_locals old st loc ->
    match for_each (policy_step self) items st with
    | Ok st' =>
        exists loc',
          for_each_call policy_step_call items loc
            (store self (old ++ fiscal_treemap st))
          = (Ok loc', store self (old ++ fiscal_treemap st')) /\
          same_locals old st' loc'
    | Raise e =>
        exists mine,
          for_each_call policy_step_call items loc
            (store self (old ++ fiscal_treemap st))
          = (Raise e, store self (old ++ mine))
    end.
Proof.
  induction items as [| item items IH]; intros st loc Hs.
  - exists loc. split; [reflexivity | exact Hs].
  - cbn [for_each for_each_call].
    pose proof (policy_step_call_spec self old st loc item Hs) as Hstep.
    destruct (policy_step self st item) as [st1 | e]; cbn [bind].
    + destruct Hstep as [loc1 [Hrun Hs1]].
      assert (E : (st' <~ policy_step_call loc item ;;
                   for_each_call policy_step_call items st')
                    (store self (old ++ fiscal_treemap st))
                  = for_each_call policy_step_call items loc1
                      (store self (old ++ fiscal_treemap st1)))
        by (unfold and_then; now rewrite Hrun).
      rewrite E. now apply IH.
    + exists (fiscal_treemap st). unfold and_then. now rewrite Hstep.
Qed.

Lemma treemap_percentages_length (treemap : list TreemapEntry.t) :
  List.length (treemap_percentages treemap) = List.length treemap.
Proof.
  unfold treemap_percentages.
  destruct (PrimFloat.ltb 0 (py_sum (map TreemapEntry.value treemap)));
    [apply length_map | reflexivity].
Qed.

Lemma set_percentages_run (self : PolicyEngine)
  (old mine : list TreemapEntry.t) :
  set_percentages (seq (List.length old) (List.length mine))
    (store self (old ++ mine))
  = (Ok tt, store self (old ++ treemap_percentages mine)).
Proof.
  unfold set_percentages. unfold and_then at 1.
  rewrite (map_call_read self _ TreemapEntry.value).
  2:{ intros item s d Hd. unfold and_then, getitem. rewrite Hd. reflexivity. }
  unfold treemap_percentages.
  destruct (PrimFloat.ltb 0 (py_sum (map TreemapEntry.value mine)));
    [|reflexivity].
  apply for_each_call_update.
  intros u item s d Hd. unfold and_then, getitem.
  rewrite Hd. unfold setitem_percentage. rewrite Hd. reflexivity.
Qed.

(** A call returns what [calculate_impacts] computes from the attributes of
    [self] and the request; it leaves the attributes and the dictionaries
    of the store as they were and adds its own dictionaries. *)
Lemma calculate_impacts_call_run (self : PolicyEngine)
  (old : list TreemapEntry.t) (policy_inputs : dict PyVal) :
  exists mine,
    calculate_impacts_call policy_inputs (store self old)
    = (calculate_impacts self policy_inputs, store self (old ++ mine)).
Proof.
  unfold calculate_impacts_call, calculate_impacts.
  unfold and_then at 1. unfold lift at 1.
  destruct (sanitize_inputs policy_inputs) as [policies | e]; cbn [bind].
  2:{ exists []. now rewrite app_nil_r. }
  assert (Hs : same_locals old initial_totals initial_locals).
  { repeat split. }
  pose proof (policy_loop_call self old policies initial_totals initial_locals
                Hs) as Hloop.
  cbn [initial_totals fiscal_treemap] in Hloop. rewrite app_nil_r in Hloop.
  unfold policy_loop.
  destruct (for_each (policy_step self) policies initial_totals)
    as [st | e]; cbn [bind].
  2:{ destruct Hloop as [mine Hrun]. exists mine.
      unfold and_then at 1. now rewrite Hrun. }
  destruct Hloop as [loc [Hrun [H1 [H2 [H3 [H4 H5]]]]]].
  exists (treemap_percentages (fiscal_treemap st)).
  unfold and_then at 1. rewrite Hrun.
  unfold and_then at 1. rewrite H5, set_percentages_run.
  unfold and_then at 1. unfold getattr at 1. cbn [store Store.this].
  unfold and_then at 1.
  rewrite <- (treemap_percentages_length (fiscal_treemap st)).
  rewrite (map_call_read self getitem (fun d => d))
    by (intros item s d Hd; unfold getitem; now rewrite Hd).
  rewrite map_id. unfold ret, assemble.
  rewrite H1, H2, H3, H4. reflexivity.
Qed.

(** C8: two calls in a row with the same request return the same result,
    although the second runs in the store the first one left.  The result is
    the one [calculate_impacts] computes from the attributes of [self] and
    the request alone, whatever dictionaries the store holds, and no call
    changes an attribute of [self]: nothing a call leaves behind influences
    the next. *)
Theorem calculate_impacts_deterministic (s : Store.t)
  (policy_inputs : dict PyVal) :
  let (r1, s1) := calculate_impacts_call policy_inputs s in
  let (r2, s2) := calculate_impacts_call policy_inputs s1 in
  r1 = r2 /\
  r1 = calculate_impacts (Store.this s) policy_inputs /\
  Store.this s1 = Store.this s /\ Store.this s2 = Store.this s /\
  (forall item d, nth_error (Store.dicts s) item = Some d ->
                  nth_error (Store.dicts s2) item = Some d).
Proof.
  destruct s as [self old]. fold (store self old).
  destruct (calculate_impacts_call_run self old policy_inputs) as [m1 H1].
  rewrite H1.
  destruct (calculate_impacts_call_run self (old ++ m1) policy_inputs)
    as [m2 H2].
  rewrite H2. cbn [store Store.this Store.dicts].
  repeat (split; [reflexivity|]).
  intros item d Hd. rewrite <- app_assoc.
  rewrite nth_error_app1; [exact Hd|].
  apply nth_error_Some. congruence.
Qed.
